(** * pf2e-dailies: the daily-resolution interface, embedded in Rocq

    A shallow embedding of [DailyInterface] (the application class of the
    module's interface source) and of the [migration] gate that precedes
    it.  The DOM of the form is a list of row elements carrying their
    dataset, the character's flag bucket is a finite map, and the calls
    made to the host (item store, notifications, chat) are an explicit
    trace of effects.  Functions of the host platform and of [pf2e-api]
    appear as fields of the class [Host]. *)

From Stdlib Require Import Ascii String.
From stdpp Require Import gmap strings list fin_maps sorting pretty.

Open Scope string_scope.
Open Scope list_scope.
Open Scope Z_scope.

(** ** Exceptions

    A JavaScript computation that can throw.  The only exception the
    modelled code raises by itself is the [TypeError] of a property read
    on [undefined]. *)

Inductive JSError :=
| TypeError.

Inductive Exc (A : Type) :=
| Ok (a : A)
| Throw (e : JSError).

Arguments Ok {A} a.
Arguments Throw {A} e.

Definition bindExc {A B} (c : Exc A) (k : A -> Exc B) : Exc B :=
  match c with
  | Ok a => k a
  | Throw e => Throw e
  end.

Declare Scope exc_scope.
Delimit Scope exc_scope with exc.
Notation "x <- c ;;; k" := (bindExc c (fun x => k))
  (at level 100, c at next level, right associativity) : exc_scope.
Open Scope exc_scope.

(** ** JavaScript strings and values *)

(** [value && ...]: a string is truthy unless it is empty. *)
Definition truthyStr (s : string) : bool := negb (String.eqb s "").

(** A string holds its text as the bytes of the UTF-8 encoding, the way
    the literals of this file do. [chars] reads the characters back,
    each with the bytes that encode it; a byte that does not begin a
    well-formed sequence is read as the character of its own number, so
    that a text of characters below 256 may also be given one byte a
    character. *)

Definition isContinuation (b : ascii) : bool :=
  let n := N_of_ascii b in (128 <=? n)%N && (n <=? 191)%N.

Definition continuationBits (b : ascii) : N := (N_of_ascii b - 128)%N.

(** The character that starts with the byte [b], followed by [s]: its
    code point and the number of bytes it takes. *)
Definition firstChar (b : ascii) (s : string) : N * nat :=
  let n := N_of_ascii b in
  match s with
  | String b2 s2 =>
      if (194 <=? n)%N && (n <=? 223)%N && isContinuation b2
      then (((n - 192) * 64 + continuationBits b2)%N, 2%nat)
      else
        match s2 with
        | String b3 s3 =>
            let c3 :=
              ((n - 224) * 4096 + continuationBits b2 * 64 + continuationBits b3)%N in
            if (224 <=? n)%N && (n <=? 239)%N && isContinuation b2 && isContinuation b3
               && (2048 <=? c3)%N
            then (c3, 3%nat)
            else
              match s3 with
              | String b4 _ =>
                  let c4 :=
                    ((n - 240) * 262144 + continuationBits b2 * 4096
                     + continuationBits b3 * 64 + continuationBits b4)%N in
                  if (240 <=? n)%N && (n <=? 244)%N && isContinuation b2
                     && isContinuation b3 && isContinuation b4
                     && (65536 <=? c4)%N && (c4 <=? 1114111)%N
                  then (c4, 4%nat)
                  else (n, 1%nat)
              | EmptyString => (n, 1%nat)
              end
        | EmptyString => (n, 1%nat)
        end
  | EmptyString => (n, 1%nat)
  end.

Fixpoint takeBytes (n : nat) (s : string) : string :=
  match n, s with
  | S n', String b s' => String b (takeBytes n' s')
  | _, _ => EmptyString
  end.

Fixpoint dropBytes (n : nat) (s : string) : string :=
  match n, s with
  | S n', String _ s' => dropBytes n' s'
  | _, _ => s
  end.

(** The characters of a string; [fuel] bounds their number, and the
    number of bytes is enough. *)
Fixpoint charsFrom (fuel : nat) (s : string) : list (N * string) :=
  match fuel, s with
  | S fuel', String b s' =>
      let char := firstChar b s' in
      (char.1, takeBytes char.2 s) :: charsFrom fuel' (dropBytes char.2 s)
  | _, _ => []
  end.

Definition chars (s : string) : list (N * string) :=
  charsFrom (String.length s) s.

(** What [String.prototype.trim] removes: the white space and the line
    terminators of ECMAScript, which are the characters U+0009 to
    U+000D, U+0020, U+00A0, U+1680, U+2000 to U+200A, U+2028, U+2029,
    U+202F, U+205F, U+3000 and U+FEFF. *)
Definition isWhiteSpace (code : N) : bool :=
  ((9 <=? code) && (code <=? 13) || (code =? 32) || (code =? 160) || (code =? 5760)
   || (8192 <=? code) && (code <=? 8202) || (code =? 8232) || (code =? 8233)
   || (code =? 8239) || (code =? 8287) || (code =? 12288) || (code =? 65279))%N.

Fixpoint trimStart (characters : list (N * string)) : list (N * string) :=
  match characters with
  | character :: rest =>
      if isWhiteSpace character.1 then trimStart rest else characters
  | [] => []
  end.

(** [String.prototype.trim] *)
Definition trim (s : string) : string :=
  String.concat "" (snd <$> rev (trimStart (rev (trimStart (chars s))))).

(** A JSON-like value: item sources, rule elements and free-form flag
    data. An object keeps its keys in insertion order. *)
Inductive JValue :=
| JUndefined
| JNull
| JBool (b : bool)
| JNum (n : Z)
| JStr (s : string)
| JArr (items : list JValue)
| JObj (fields : list (string * JValue)).

Definition truthy (v : JValue) : bool :=
  match v with
  | JUndefined | JNull => false
  | JBool b => b
  | JNum n => negb (n =? 0)
  | JStr s => truthyStr s
  | JArr _ | JObj _ => true
  end.

Fixpoint assocGet {A} (k : string) (fields : list (string * A)) : option A :=
  match fields with
  | [] => None
  | (k', v) :: rest => if String.eqb k k' then Some v else assocGet k rest
  end.

(** [object[k] = v]: an existing key keeps its position, a new one goes
    last. *)
Fixpoint assocSet {A} (k : string) (v : A) (fields : list (string * A))
  : list (string * A) :=
  match fields with
  | [] => [(k, v)]
  | (k', v') :: rest =>
      if String.eqb k k' then (k, v) :: rest else (k', v') :: assocSet k v rest
  end.

(** What a plain object inherits from [Object.prototype]: a read of one
    of these keys on an object that has no property of the name finds
    the inherited member, which is never [null] or [undefined]. *)
Definition objectPrototypeKeys : list string :=
  [ "constructor"; "__proto__"; "hasOwnProperty"; "isPrototypeOf";
    "propertyIsEnumerable"; "toLocaleString"; "toString"; "valueOf";
    "__defineGetter__"; "__defineSetter__"; "__lookupGetter__"; "__lookupSetter__" ].

(** [object[key] = value] on a plain object: the key [__proto__] reaches
    the setter of the prototype and creates no property. *)
Definition setOwn {A} (key : string) (value : A) (object : gmap string A)
  : gmap string A :=
  if String.eqb key "__proto__" then object else <[key := value]> object.

(** An array index: the decimal numeral, without a leading zero, of an
    integer below 2^32 - 1. *)
Fixpoint digitsValue (acc : N) (s : string) : option N :=
  match s with
  | EmptyString => Some acc
  | String c s' =>
      let n := N_of_ascii c in
      if (48 <=? n)%N && (n <=? 57)%N then digitsValue (10 * acc + (n - 48))%N s'
      else None
  end.

Definition arrayIndex (key : string) : option N :=
  match key with
  | EmptyString => None
  | String c rest =>
      if Ascii.eqb c "0" && negb (String.eqb rest "") then None
      else
        match digitsValue 0 key with
        | Some index => if (index <? 4294967295)%N then Some index else None
        | None => None
        end
  end.

(** The platform's [getProperty(object, key)]; the dotted [key] is given
    by its segments, ["system.temporary"] as [["system"; "temporary"]]. *)
Fixpoint getProperty (object : JValue) (key : list string) : JValue :=
  match key with
  | [] => object
  | p :: key' =>
      match object with
      | JObj fields =>
          match assocGet p fields with
          | Some target => getProperty target key'
          | None => JUndefined
          end
      | _ => JUndefined
      end
  end.

(** The platform's [setProperty(object, key, value)]: objects missing on
    the way are created. The sources it is used on are objects; anything
    else is left as it is. *)
Fixpoint setProperty (object : JValue) (key : list string) (value : JValue)
  : JValue :=
  match key with
  | [] => value
  | p :: key' =>
      match object with
      | JObj fields =>
          let target := default (JObj []) (assocGet p fields) in
          JObj (assocSet p (setProperty target key' value) fields)
      | other => other
      end
  end.

(** [MODULE.id] *)
Definition MODULE_id : string := "pf2e-dailies".

(** [pf2e-api]'s [flagPath], [getFlagProperty] and [setFlagProperty]:
    the module's flags of an object live under [flags.<MODULE.id>]. *)
Definition flagPath (path : list string) : list string :=
  "flags" :: MODULE_id :: path.

Definition getFlagProperty (object : JValue) (path : list string) : JValue :=
  getProperty object (flagPath path).

Definition setFlagProperty (object : JValue) (path : list string) (value : JValue)
  : JValue :=
  setProperty object (flagPath path) value.

(** ** Documents *)

(** An embedded item: its id and its source. *)
Record Item := {
  item_id : string;
  item_source : JValue;
}.

Definition item_type (item : Item) : JValue := getProperty (item_source item) ["type"].

Definition item_name (item : Item) : string :=
  match getProperty (item_source item) ["name"] with
  | JStr s => s
  | _ => ""
  end.

(** [item.isOfType(type)] *)
Definition isOfType (item : Item) (type : string) : bool :=
  match item_type item with
  | JStr t => String.eqb t type
  | _ => false
  end.

(** [getFlag(item, key)] on an item. *)
Definition getItemFlag (item : Item) (key : string) : JValue :=
  getFlagProperty (item_source item) [key].

(** A statistic as the processing engine reads it. *)
Record Statistic := {
  stat_mod : Z;
  stat_attribute : string;
  stat_rank : option Z;
  stat_slug : string;
}.

(** ** Row model *)

(** The row types ["select"], ["random"], ["combo"], ["alert"], ["input"],
    ["notify"] and ["drop"]. *)
Inductive DailyRowType :=
| TSelect | TRandom | TCombo | TAlert | TInput | TNotify | TDrop.

Global Instance DailyRowType_eq_dec : EqDecision DailyRowType.
Proof. solve_decision. Defined.

(** The drop targets ["feat"] and ["spell"]. *)
Inductive DailyRowDropType :=
| DropFeat | DropSpell.

(** The persisted value of a row: a string (select, input, random), the
    pair of a combo, or the uuid and name of a dropped item. *)
Inductive DailyRowData :=
| RowString (value : string)
| RowCombo (selected : string) (input : bool)
| RowDrop (uuid : string) (name : string).

(** An entry of a select, combo or random row: a group heading or an
    option. *)
Inductive DailyRowSelectOption :=
| OptionGroup (group : string)
| OptionValue (value : string) (label : string) (unique : option string)
              (skipUnique : option bool).

(** A row definition, as returned by a daily's [rows]. The fields of the
    variants it is not are left at their neutral value. *)
Record DailyRow := {
  row_slug : string;
  row_type : DailyRowType;
  row_label : option string;
  row_condition : option bool;
  row_save : option bool;
  row_order : option Z;
  row_empty : option bool;
  row_options : list DailyRowSelectOption;   (* select, combo, random *)
  row_unique : option string;                (* select, combo *)
  row_filterType : DailyRowDropType;         (* drop: filter.type *)
  row_note : option string;                  (* drop *)
  row_message : string;                      (* alert *)
}.

(** Modelled from the spec: [rowIsOfType] of the module's [daily], which
    is not part of the interface source. Like [rowElementIsOFType] beside
    it, it says whether the row's type is one of [types]. *)
Definition rowIsOfType (row : DailyRow) (types : list DailyRowType) : bool :=
  bool_decide (row_type row ∈ types).

(** The dataset [getData] gives a row, which the form carries on the
    row's element. *)
Record RowElementDataset := {
  data_daily : string;
  data_type : DailyRowType;
  data_row : string;
  data_save : bool;                          (* "true" or "false" *)
  data_empty : bool;
  data_input : option bool;
  data_uuid : option string;
  data_droptype : option DailyRowDropType;
}.

(** A row element of the rendered form ([[data-daily]]): its dataset, its
    current [value] and, for a combo, the value of the select that shares
    its [.combo] container. *)
Record RowElement := {
  el_type : DailyRowType;
  el_daily : string;
  el_row : string;
  el_save : bool;
  el_empty : bool;
  el_input : bool;
  el_uuid : string;
  el_value : string;
  el_comboSelect : string;
}.

(** ** Processing context *)

(** An entry of a message group. *)
Record DailyMessage := {
  msg_label : option string;
  msg_uuid : option string;
  msg_selected : option string;
  msg_random : option bool;
}.

Record DailyMessageGroup := {
  grp_label : option string;
  grp_order : Z;
  grp_messages : list DailyMessage;
}.

(** An update fragment: the [_id] of the item and values by field path. *)
Record UpdateData := {
  upd_id : string;
  upd_fields : list (string * JValue);
}.

(** What a [process] callback does with the helpers it is handed, in the
    order it does it. *)
Inductive ProcessOp :=
| MessagesAdd (group : string) (message : DailyMessage)
| MessagesAddGroup (name : string) (label : option string) (order : option Z)
| MessagesAddRaw (message : string) (order : option Z)
| UpdateItem (data : UpdateData)
| AddItem (source : JValue)
| AddFeat (source : JValue) (parent : option Item)
| DeleteItem (item : Item)
| RemoveRule (item : Item) (signature : JValue -> bool)
| AddRule (item : Item) (source : JValue)
| SetExtraFlags (data : JValue).

(** How a call of [daily.process] ends: it returns (a value, or a promise
    that fulfils), it throws before returning, or it returns a promise
    that rejects, as an [async] callback that throws does. *)
Inductive Completion :=
| Returns
| Throws (err : string)
| Rejects (err : string).

Record ProcessRun := {
  run_ops : list ProcessOp;
  run_completion : Completion;
}.

(** The module's flag bucket of a character, as the last flag update
    lays it out: one map of row values per daily key, and the four fixed
    keys. *)
Inductive FlagEntry :=
| FlagRows (rows : gmap string DailyRowData)
| FlagExtra (extra : JValue)
| FlagRested (rested : bool)
| FlagSchema (schema : string)
| FlagAddedItems (ids : list string).

(** The character. [actor_flags] is [None] when the character carries no
    flag of the module at all. *)
Record CharacterPF2e := {
  actor_flags : option (gmap string FlagEntry);
  actor_familiar : bool;                     (* !!actor.familiar *)
  actor_hasStaves : bool;                    (* hasStaves(actor) *)
  actor_disabledDailies : gmap string bool;  (* getDisabledDailies(actor) *)
  actor_highestSpellcasting : option (string * Statistic);
                                             (* its tradition and statistic *)
  actor_highestSynthetic : option Statistic;
}.

Definition setActorFlags (actor : CharacterPF2e) (flags : option (gmap string FlagEntry))
  : CharacterPF2e :=
  {| actor_flags := flags;
     actor_familiar := actor_familiar actor;
     actor_hasStaves := actor_hasStaves actor;
     actor_disabledDailies := actor_disabledDailies actor;
     actor_highestSpellcasting := actor_highestSpellcasting actor;
     actor_highestSynthetic := actor_highestSynthetic actor |}.

(** [hasModuleFlag(actor)] *)
Definition hasModuleFlag (actor : CharacterPF2e) : bool :=
  bool_decide (is_Some (actor_flags actor)).

(** Modelled from the spec: [getActorFlag] of the module's [api], which
    is not part of the interface source, here for the key ["schema"]: the
    value the flag bucket holds under the key. *)
Definition getSchemaFlag (actor : CharacterPF2e) : option string :=
  match actor_flags actor with
  | Some flags =>
      match flags !! "schema" with
      | Some (FlagSchema schema) => Some schema
      | _ => None
      end
  | None => None
  end.

(** [getFlag(actor, daily, row)] *)
Definition getRowFlag (actor : CharacterPF2e) (daily row : string)
  : option DailyRowData :=
  match actor_flags actor with
  | Some flags =>
      match flags !! daily with
      | Some (FlagRows rows) => rows !! row
      | _ => None
      end
  | None => None
  end.

(** [setFlag(actor, key, value)] *)
Definition setFlag (actor : CharacterPF2e) (key : string) (value : FlagEntry)
  : CharacterPF2e :=
  setActorFlags actor (Some (<[key := value]> (default ∅ (actor_flags actor)))).

(** [unsetMofuleFlag(actor)]: the whole bucket goes. *)
Definition unsetMofuleFlag (actor : CharacterPF2e) : CharacterPF2e :=
  setActorFlags actor None.

(** ** The host

    What the module calls and does not define: localization, the
    platform's helpers, and the functions of the module's own [utils]
    that are not part of the interface source. *)
Class Host := {
  (** [localize(...path, data)] of [pf2e-api] *)
  localize : string -> list (string * string) -> string;
  (** [localizeIfExist(...path)] *)
  localizeIfExist : string -> option string;
  (** [game.i18n.localize(key)] *)
  i18n_localize : string -> string;
  (** [createChatLink(uuid, { label })] *)
  createChatLink : string -> option string -> string;
  (** [game.pf2e.system.sluggify(text, options)]; the flag is [camel]. *)
  sluggify : string -> bool -> string;
  (** [mergeObject(original, other)] *)
  mergeObject : JValue -> JValue -> JValue;
  (** [randomID()] for this accept cycle *)
  randomID : string;
  (** the id the item store gives the [n]-th document of a batch *)
  createdItemId : nat -> JValue -> string;
  (** [tab.filterTraits(traits, selected, conjunction)] of the browser *)
  filterTraits : list string -> list (string * bool) -> string -> bool;
  (** [utils.selectRandomOption(element)]: the option drawn for a random row *)
  selectRandomOption : RowElement -> string;
  (** [game.i18n.localize(CONFIG.PF2E.<table>[key])], when the table has
      the key *)
  configLabel : string -> string -> option string;
}.

(** ** Migration gate *)

Definition ACTOR_DAILY_SCHEMA : string := "3.0.0".

(** *** The platform's [isNewerVersion] *)

Fixpoint splitOn (sep : ascii) (s : string) : list string :=
  match s with
  | EmptyString => [EmptyString]
  | String c s' =>
      if Ascii.eqb c sep then EmptyString :: splitOn sep s'
      else match splitOn sep s' with
           | p :: ps => String c p :: ps
           | [] => [String c EmptyString]
           end
  end.

Definition isDigit (c : ascii) : bool :=
  let n := nat_of_ascii c in (48 <=? n)%nat && (n <=? 57)%nat.

Fixpoint allDigits (s : string) : bool :=
  match s with
  | EmptyString => true
  | String c s' => isDigit c && allDigits s'
  end.

(** [Number.isNumeric] on a version part: a non-empty decimal numeral. *)
Definition isNumeric (s : string) : bool := truthyStr s && allDigits s.

Fixpoint numberOf (acc : N) (s : string) : N :=
  match s with
  | EmptyString => acc
  | String c s' => numberOf (10 * acc + (N.of_nat (nat_of_ascii c) - 48))%N s'
  end.

(** The loop over [v1Parts.entries()]; [None] when it falls through. *)
Fixpoint compareParts (v1Parts v0Parts : list string) : option bool :=
  match v1Parts with
  | [] => None
  | p1 :: v1Parts' =>
      match v0Parts with
      | [] => Some true
      | p0 :: v0Parts' =>
          if isNumeric p0 && isNumeric p1
             && negb (numberOf 0 p1 =? numberOf 0 p0)%N
          then Some (numberOf 0 p0 <? numberOf 0 p1)%N
          else if negb (String.eqb p1 p0) then Some (String.ltb p0 p1)
          else compareParts v1Parts' v0Parts'
      end
  end.

Definition isNewerVersion (v1 v0 : string) : bool :=
  let v1Parts := splitOn "." v1 in
  let v0Parts := splitOn "." v0 in
  match compareParts v1Parts v0Parts with
  | Some newer => newer
  | None =>
      if (length v1Parts <? length v0Parts)%nat then false
      else negb (bool_decide (v1Parts = v0Parts))
  end.

(** *** The catalog *)

(** An entry of a migration's [messages]: keys (a string or an array of
    strings), possibly under a condition on the character. *)
Record MigrationMessages := {
  mm_condition : option (CharacterPF2e -> bool);
  mm_messages : list string;
}.

Record Migration := {
  mig_schema : string;
  mig_reset : option bool;
  mig_messages : list MigrationMessages;
}.

Definition MIGRATIONS : list Migration :=
  [ {| mig_schema := "3.0.0";
       mig_reset := Some true;
       mig_messages :=
         [ {| mm_condition := None; mm_messages := ["filter"] |};
           {| mm_condition := Some actor_familiar;
              mm_messages := ["familiar.now-remove"; "familiar.cant-remove"] |};
           {| mm_condition := Some actor_hasStaves;
              mm_messages := ["staves.moved"] |} ] |} ].

Section migration_def.
Context `{Host}.

(** One pass of the inner loop: the formatted paragraphs of a message
    list, or nothing when its condition fails. *)
Definition formatMessageList (actor : CharacterPF2e) (messageList : MigrationMessages)
  : option string :=
  match mm_condition messageList with
  | Some condition =>
      if condition actor then
        Some (String.concat ""
                ((fun x => "<p>" +:+ localize ("interface.migration." +:+ x) [] +:+ "</p>")
                   <$> mm_messages messageList))
      else None
  | None =>
      Some (String.concat ""
              ((fun x => "<p>" +:+ localize ("interface.migration." +:+ x) [] +:+ "</p>")
                 <$> mm_messages messageList))
  end.

(** The loop over the catalog, accumulating [reset] and [messages]. *)
Fixpoint applyMigrations (actor : CharacterPF2e) (schema : string)
    (catalog : list Migration) (reset : bool) (messages : list string)
  : bool * list string :=
  match catalog with
  | [] => (reset, messages)
  | migration :: rest =>
      if negb (isNewerVersion (mig_schema migration) schema)
      then applyMigrations actor schema rest reset messages
      else
        let reset := reset || bool_decide (mig_reset migration = Some true) in
        let migrationMessages := omap (formatMessageList actor) (mig_messages migration) in
        let messages :=
          if bool_decide (migrationMessages = []) then messages
          else (messages ++ ["<h3>" +:+ mig_schema migration +:+ "</h3>";
                             String.concat "<hr />" migrationMessages])%list in
        applyMigrations actor schema rest reset messages
  end.

(** [migration(actor)] over a catalog: the character afterwards and the
    content of the dialog that is prompted, if any. *)
Definition migrationWith (catalog : list Migration) (actor : CharacterPF2e)
  : CharacterPF2e * option string :=
  if negb (hasModuleFlag actor) then (actor, None)
  else
    let schema := default "" (getSchemaFlag actor) in
    if negb (isNewerVersion ACTOR_DAILY_SCHEMA schema) then (actor, None)
    else
      let '(reset, messages) := applyMigrations actor schema catalog false [] in
      let messages :=
        if reset then localize "interface.migration.reset" [] :: "<br>" :: messages
        else messages in
      let actor :=
        if reset then unsetMofuleFlag actor
        else setFlag actor "schema" (FlagSchema ACTOR_DAILY_SCHEMA) in
      if bool_decide (messages = []) then (actor, None)
      else (actor, Some (String.concat "" (messages ++ ["<br>"])%list)).

Definition migration (actor : CharacterPF2e) : CharacterPF2e * option string :=
  migrationWith MIGRATIONS actor.

End migration_def.

(** ** Template builder: [DailyInterface.getData] *)

Definition TEMPLATE_ORDER (type : DailyRowType) : Z :=
  match type with
  | TSelect => 100
  | TCombo => 80
  | TRandom => 60
  | TAlert => 40
  | TInput => 20
  | TNotify => 20
  | TDrop => 0
  end.

(** An entry of a row template's [options]: an option of the row or the
    [{ groupEnd: true }] marker. *)
Inductive TemplateOption :=
| TplOption (option : DailyRowSelectOption)
| TplGroupEnd.

Record RowTemplate := {
  tpl_type : DailyRowType;
  tpl_label : string;
  tpl_daily : string;
  tpl_row : string;
  tpl_value : option string;
  tpl_note : option string;
  tpl_selected : option string;
  tpl_unique : option string;
  tpl_order : Z;
  tpl_data : RowElementDataset;
  tpl_options : option (list TemplateOption);
}.

Record DailyTemplate := {
  dtpl_label : string;
  dtpl_rows : list RowTemplate;
}.

(** A daily of the catalog, after its label, [prepare] and [rows] have
    been resolved for this pass; [daily_process] is its [process]
    callback, applied to the values of its rows. *)
Record PreparedDaily := {
  daily_key : string;
  daily_label : string;
  daily_rows : list DailyRow;
  daily_process : gmap string DailyRowData -> ProcessRun;
}.

(** [Array.prototype.sort(compare)], which is stable; [after a b] says
    [compare(a, b) > 0]. *)
Fixpoint insertSorted {A} (after : A -> A -> bool) (x : A) (l : list A) : list A :=
  match l with
  | [] => [x]
  | y :: l' => if after x y then y :: insertSorted after x l' else x :: y :: l'
  end.

Definition sortBy {A} (after : A -> A -> bool) (l : list A) : list A :=
  foldr (insertSorted after) [] l.

(** A stored value read where a string is expected. *)
Definition flagText (data : DailyRowData) : string :=
  match data with
  | RowString value => value
  | _ => "[object Object]"
  end.

Section getData_def.
Context `{Host}.

(** The loop over [row.options]: labels are localized, and a group
    still open is closed before the next one starts and at the end. *)
Fixpoint templateOptions (options : list DailyRowSelectOption)
    (openedGroups : list string) : list TemplateOption :=
  match options with
  | [] => (fun _ => TplGroupEnd) <$> openedGroups
  | OptionGroup group :: rest =>
      let popped := last openedGroups in
      let openedGroups := removelast openedGroups in
      ((if from_option truthyStr false popped then [TplGroupEnd] else [])
         ++ TplOption (OptionGroup (i18n_localize group))
         :: templateOptions rest (openedGroups ++ [group]))%list
  | OptionValue value label unique skipUnique :: rest =>
      TplOption (OptionValue value (i18n_localize label) unique skipUnique)
        :: templateOptions rest openedGroups
  end.

Definition optionHasValue (selected : option string) (o : TemplateOption) : bool :=
  match o with
  | TplOption (OptionValue value _ _ _) => bool_decide (selected = Some value)
  | _ => false
  end.

(** The body of [for (const row of rows)]: the row's template, or
    [None] when the loop goes on to the next row without pushing one.
    The cache of feat uuids a feat drop row fills is not part of it. *)
Definition rowTemplate (actor : CharacterPF2e) (daily : PreparedDaily) (row : DailyRow)
  : option RowTemplate :=
  if bool_decide (row_condition row = Some false) then None
  else
    let rowLabel := from_option i18n_localize (row_slug row) (row_label row) in
    let order := default (TEMPLATE_ORDER (row_type row)) (row_order row) in
    let isSavedRow := negb (bool_decide (row_save row = Some false)) in
    let getSavedFlag :=
      if isSavedRow then getRowFlag actor (daily_key daily) (row_slug row) else None in
    let rowData :=
      {| data_daily := daily_key daily; data_type := row_type row;
         data_row := row_slug row; data_save := isSavedRow;
         data_empty := default false (row_empty row);
         data_input := None; data_uuid := None; data_droptype := None |} in
    let base value note selected unique data options :=
      {| tpl_type := row_type row; tpl_label := rowLabel;
         tpl_daily := daily_key daily; tpl_row := row_slug row;
         tpl_value := value; tpl_note := note; tpl_selected := selected;
         tpl_unique := unique; tpl_order := order; tpl_data := data;
         tpl_options := options |} in
    if rowIsOfType row [TSelect; TCombo; TRandom] then
      let options := templateOptions (row_options row) [] in
      let unique :=
        if rowIsOfType row [TCombo; TSelect]
           && from_option truthyStr false (row_unique row)
           && (1 <? length options)%nat
        then row_unique row else None in
      if rowIsOfType row [TCombo] then
        let '(input, selected) :=
          match getSavedFlag with
          | Some (RowCombo selected input) => (Some input, Some selected)
          | _ => (None, None)
          end in
        let isInput := default true input in
        let option :=
          if isInput then None else List.find (optionHasValue selected) options in
        let value :=
          if isInput then selected
          else match option with
               | Some (TplOption (OptionValue _ label _ _)) => Some label
               | _ => None
               end in
        let selected :=
          if isInput then None
          else match option with
               | Some (TplOption (OptionValue value _ _ _)) =>
                   if truthyStr value then Some value else None
               | _ => None
               end in
        Some (base (Some (default "" value)) None (Some (default "" selected)) unique
                {| data_daily := data_daily rowData; data_type := data_type rowData;
                   data_row := data_row rowData; data_save := data_save rowData;
                   data_empty := data_empty rowData;
                   data_input := Some isInput; data_uuid := None;
                   data_droptype := None |}
                (Some options))
      else if bool_decide (row_options row = []) then None
      else
        Some (base None None (Some (from_option flagText "" getSavedFlag)) unique
                rowData (Some options))
    else if rowIsOfType row [TDrop] then
      let '(name, uuid) :=
        match getSavedFlag with
        | Some (RowDrop uuid name) => (Some name, Some uuid)
        | _ => (None, None)
        end in
      Some (base (Some (default "" name)) (row_note row) None None
              {| data_daily := data_daily rowData; data_type := data_type rowData;
                 data_row := data_row rowData; data_save := data_save rowData;
                 data_empty := data_empty rowData;
                 data_input := None; data_uuid := Some (default "" uuid);
                 data_droptype := Some (row_filterType row) |}
              None)
    else if rowIsOfType row [TAlert] then
      Some (base (Some (row_message row)) None None None
              {| data_daily := data_daily rowData; data_type := data_type rowData;
                 data_row := data_row rowData; data_save := false;
                 data_empty := false;
                 data_input := None; data_uuid := None; data_droptype := None |}
              None)
    else if rowIsOfType row [TInput] then
      Some (base (Some (from_option flagText "" getSavedFlag)) None None None
              rowData None)
    else Some (base None None None None rowData None).

(** One daily of [dailies.map(...)]: nothing for a disabled daily or
    one without a row to show. *)
Definition dailyTemplate (actor : CharacterPF2e) (daily : PreparedDaily)
  : option DailyTemplate :=
  if from_option id false (actor_disabledDailies actor !! daily_key daily) then None
  else
    let rows := omap (rowTemplate actor daily) (daily_rows daily) in
    if bool_decide (rows = []) then None
    else Some {| dtpl_label := daily_label daily; dtpl_rows := rows |}.

Definition setTemplateLabel (t : RowTemplate) (label : string) : RowTemplate :=
  {| tpl_type := tpl_type t; tpl_label := label; tpl_daily := tpl_daily t;
     tpl_row := tpl_row t; tpl_value := tpl_value t; tpl_note := tpl_note t;
     tpl_selected := tpl_selected t; tpl_unique := tpl_unique t;
     tpl_order := tpl_order t; tpl_data := tpl_data t;
     tpl_options := tpl_options t |}.

(** The single row of a template that is shown flat, under the daily's
    label. *)
Definition flatRow (template : DailyTemplate) : option RowTemplate :=
  match dtpl_rows template with
  | [row] =>
      if bool_decide (tpl_type row = TAlert) then None
      else Some (setTemplateLabel row (dtpl_label template))
  | _ => None
  end.

Record InterfaceData := {
  idata_rows : list RowTemplate;
  idata_groups : list DailyTemplate;
  idata_hasDailies : bool;
  idata_hasAlert : bool;
  idata_canAccept : bool;
}.

(** [getData], after the migration gate. [dailies] lists the dailies of
    the catalog in the order in which their preparation completes (the
    label, [prepare] and [rows] of a daily are awaited one after the
    other): this is the order in which the templates are pushed. It is
    the order of the catalog only when the dailies complete in that
    order. *)
Definition getData (actor : CharacterPF2e) (dailies : list PreparedDaily)
  : InterfaceData :=
  let templates := omap (dailyTemplate actor) dailies in
  let hasAlert :=
    existsb (fun t => existsb (fun row => bool_decide (tpl_type row = TAlert))
                              (dtpl_rows t)) templates in
  let rows := omap flatRow templates in
  let groups :=
    filter (fun t => flatRow t = None /\ dtpl_rows t <> []) templates in
  let rows := sortBy (fun a b => tpl_order a <? tpl_order b) rows in
  let groups :=
    sortBy (fun a b => (length (dtpl_rows b) <? length (dtpl_rows a))%nat) groups in
  let hasDailies := negb (bool_decide (rows = [])) || negb (bool_decide (groups = [])) in
  {| idata_rows := rows; idata_groups := groups; idata_hasDailies := hasDailies;
     idata_hasAlert := hasAlert; idata_canAccept := hasDailies && negb hasAlert |}.

End getData_def.

(** ** Uniqueness resolver: [DailyInterface.#onUniqueChange] *)

(** An [<option>] of a select element: its [value], the two dataset
    entries the resolver reads and the [disabled] flag it writes. *)
Record OptionEl := {
  opt_value : string;
  opt_dataUnique : option string;      (* option.dataset.unique *)
  opt_dataSkipUnique : option string;  (* option.dataset.skipUnique *)
  opt_disabled : bool;
}.

(** A [<select data-unique=...>] element. [selectedIndex] is -1 when no
    option is selected. *)
Record SelectEl := {
  sel_options : list OptionEl;
  sel_selectedIndex : Z;
}.

(** [option.dataset.unique ?? option.value] *)
Definition optionKey (o : OptionEl) : string :=
  default (opt_value o) (opt_dataUnique o).

(** The closure [optionUniqueValue] at the current [index]:
    [selectOptions[index]] is [undefined] outside the list and the read of
    its [dataset] throws. [None] stands for the [undefined] of a
    skip-unique option. *)
Definition optionUniqueValue (selectOptions : list OptionEl) (index : nat)
  : Exc (option string) :=
  match selectOptions !! index with
  | None => Throw TypeError
  | Some o =>
      Ok (if decide (opt_dataSkipUnique o = Some "true") then None
          else Some (optionKey o))
  end.

(** The closure [optionExists]: [value && uniqueOptions.has(value)]. *)
Definition optionExists (uniqueOptions : gset string)
    (selectOptions : list OptionEl) (index : nat) : Exc bool :=
  value <- optionUniqueValue selectOptions index ;;;
  Ok (match value with
      | Some v => truthyStr v && bool_decide (v ∈ uniqueOptions)
      | None => false
      end).

(** [while (optionExists() && index > 0) index -= 1] *)
Fixpoint probeDown (uniqueOptions : gset string) (selectOptions : list OptionEl)
    (index : nat) : Exc nat :=
  conflict <- optionExists uniqueOptions selectOptions index ;;;
  match index with
  | S index' =>
      if conflict then probeDown uniqueOptions selectOptions index'
      else Ok index
  | O => Ok index
  end.

(** [while (optionExists() && index < maxIndex) index += 1]; [gap] is the
    loop variant [maxIndex - index]. *)
Fixpoint probeUp (uniqueOptions : gset string) (selectOptions : list OptionEl)
    (gap : nat) (index : nat) : Exc nat :=
  conflict <- optionExists uniqueOptions selectOptions index ;;;
  match gap with
  | S gap' =>
      if conflict then probeUp uniqueOptions selectOptions gap' (S index)
      else Ok index
  | O => Ok index
  end.

(** [if (finalValue) uniqueOptions.add(finalValue)] *)
Definition claimAdd (finalValue : option string) (uniqueOptions : gset string)
  : gset string :=
  match finalValue with
  | Some v => if truthyStr v then {[ v ]} ∪ uniqueOptions else uniqueOptions
  | None => uniqueOptions
  end.

Definition setSelectedIndex (selectEl : SelectEl) (index : Z) : SelectEl :=
  {| sel_options := sel_options selectEl; sel_selectedIndex := index |}.

(** Body of the first [for (const selectEl of selectElements)] loop.  A
    negative [selectedIndex] makes the first [optionExists()] read
    [selectOptions[-1]] and throw. *)
Definition resolveSelect (uniqueOptions : gset string) (selectEl : SelectEl)
  : Exc (gset string * SelectEl) :=
  let selectOptions := sel_options selectEl in
  let maxIndex := (length selectOptions - 1)%nat in
  if sel_selectedIndex selectEl <? 0 then Throw TypeError
  else
    let index := Z.to_nat (sel_selectedIndex selectEl) in
    index <- probeDown uniqueOptions selectOptions index ;;;
    index <- probeUp uniqueOptions selectOptions (maxIndex - index)%nat index ;;;
    conflict <- optionExists uniqueOptions selectOptions index ;;;
    if conflict then Ok (uniqueOptions, selectEl)
    else
      finalValue <- optionUniqueValue selectOptions index ;;;
      Ok (claimAdd finalValue uniqueOptions,
          if decide (sel_selectedIndex selectEl = Z.of_nat index) then selectEl
          else setSelectedIndex selectEl (Z.of_nat index)).

(** The first loop over the whole group, threading [uniqueOptions]. *)
Fixpoint resolveSelects (uniqueOptions : gset string) (selectElements : list SelectEl)
  : Exc (gset string * list SelectEl) :=
  match selectElements with
  | [] => Ok (uniqueOptions, [])
  | selectEl :: rest =>
      head <- resolveSelect uniqueOptions selectEl ;;;
      tail <- resolveSelects head.1 rest ;;;
      Ok (tail.1, head.2 :: tail.2)
  end.

Definition setDisabled (o : OptionEl) (d : bool) : OptionEl :=
  {| opt_value := opt_value o; opt_dataUnique := opt_dataUnique o;
     opt_dataSkipUnique := opt_dataSkipUnique o; opt_disabled := d |}.

(** Body of the second loop: every option but the selected one gets
    [disabled = uniqueOptions.has(option.dataset.unique ?? option.value)]. *)
Definition refreshDisabled (uniqueOptions : gset string) (selectEl : SelectEl)
  : SelectEl :=
  {| sel_options :=
       imap (fun i o =>
               if decide (Z.of_nat i = sel_selectedIndex selectEl) then o
               else setDisabled o (bool_decide (optionKey o ∈ uniqueOptions)))
            (sel_options selectEl);
     sel_selectedIndex := sel_selectedIndex selectEl |}.

(** [#onUniqueChange] on the elements matched by
    [select[data-unique="<tag>"]], in document order. *)
Definition onUniqueChange (selectElements : list SelectEl) : Exc (list SelectEl) :=
  resolved <- resolveSelects ∅ selectElements ;;;
  Ok (refreshDisabled resolved.1 <$> resolved.2).

(** The unique-value a select element currently claims: that of its
    selected option, when the option is not exempt and the value is not
    empty. *)
Definition claimOf (selectEl : SelectEl) : option string :=
  if sel_selectedIndex selectEl <? 0 then None
  else
    match optionUniqueValue (sel_options selectEl)
            (Z.to_nat (sel_selectedIndex selectEl)) with
    | Ok (Some v) => if truthyStr v then Some v else None
    | _ => None
    end.

(** The unique-value of the selected option as the specification words
    it: the explicit unique datum, else the raw value, exempt when the
    option is marked skip-unique (an empty value is not exempt here). *)
Definition selectedUniqueValue (selectEl : SelectEl) : option string :=
  if sel_selectedIndex selectEl <? 0 then None
  else
    match optionUniqueValue (sel_options selectEl)
            (Z.to_nat (sel_selectedIndex selectEl)) with
    | Ok v => v
    | Throw _ => None
    end.

(** The non-exempt, non-empty unique-values a select element offers. *)
Definition offeredValues (selectEl : SelectEl) : gset string :=
  list_to_set
    (omap (fun o =>
             if decide (opt_dataSkipUnique o = Some "true") then None
             else if truthyStr (optionKey o) then Some (optionKey o) else None)
          (sel_options selectEl)).

(** The non-exempt unique-values (empty or not) offered by the whole group. *)
Definition groupValues (selectElements : list SelectEl) : gset string :=
  list_to_set
    (selectElements ≫= fun selectEl =>
       omap (fun o =>
               if decide (opt_dataSkipUnique o = Some "true") then None
               else Some (optionKey o))
            (sel_options selectEl)).

(** The element has one of its options selected. *)
Definition selectWF (selectEl : SelectEl) : Prop :=
  0 <= sel_selectedIndex selectEl < Z.of_nat (length (sel_options selectEl)).

(** No two elements of the group claim the same unique-value. *)
Definition conflictFree (selectElements : list SelectEl) : Prop :=
  NoDup (omap claimOf selectElements).

(** The same with the specification's unique-values, where an empty value
    counts like any other. *)
Definition noSharedUniqueValue (selectElements : list SelectEl) : Prop :=
  NoDup (omap selectedUniqueValue selectElements).

Definition mkOption (value : string) : OptionEl :=
  {| opt_value := value; opt_dataUnique := None;
     opt_dataSkipUnique := None; opt_disabled := false |}.

Definition mkSelect (values : list string) (index : Z) : SelectEl :=
  {| sel_options := mkOption <$> values; sel_selectedIndex := index |}.

(** ** Accept: [DailyInterface.#onAccept] and [#processDailies] *)

(** The double quote, for the markup the summary contains. *)
Definition dq : string := String "034"%char EmptyString.

(** A number used as a sort key of the chat summary: the orders given by
    dailies, and the [Infinity] of the preface. *)
Inductive ChatOrder :=
| Finite (order : Z)
| Infinity.

Record ChatGroup := {
  chat_message : string;
  chat_order : ChatOrder;
}.

(** [b.order - a.order > 0]; [Infinity - Infinity] is [NaN], which the
    sort takes for no difference. *)
Definition orderAfter (a b : ChatGroup) : bool :=
  match chat_order a, chat_order b with
  | Finite x, Finite y => x <? y
  | Finite _, Infinity => true
  | Infinity, _ => false
  end.

(** The payload of the flag update. *)
Abbreviation FlagUpdate := (gmap string FlagEntry).

(** What the interface does to the outside, in order. *)
Inductive Effect :=
| EClearEmptyMarks                           (* labels lose the class "empty" *)
| EWarn (key : string)                       (* warn(key) *)
| EMarkEmpty (row : string)                  (* the row's label gets "empty" *)
| ELock                                      (* this.#lock() *)
| EClose                                     (* this.close() *)
| EError (key : string)                      (* error(key) *)
| EConsoleError (message : string)           (* console.error(...) *)
| ECreateItems (sources : list JValue)       (* actor.createEmbeddedDocuments *)
| EUpdateItems (updates : list UpdateData)   (* actor.updateEmbeddedDocuments *)
| EDeleteItems (ids : list string)           (* actor.deleteEmbeddedDocuments *)
| EUpdateFlag (updates : FlagUpdate)         (* updateFlag(actor, ...) *)
| EChatMessage (content : string).           (* ChatMessage.create *)

(** The effects that change the character, the item store or the chat. *)
Definition isCommitEffect (e : Effect) : bool :=
  match e with
  | ECreateItems _ | EUpdateItems _ | EDeleteItems _ | EUpdateFlag _
  | EChatMessage _ => true
  | _ => false
  end.

(** The accumulators of one accept cycle. *)
Record ProcessContext := {
  ctx_messageGroups : list (string * DailyMessageGroup);
  ctx_rawMessages : list (string * Z);
  ctx_updatedItems : list (string * list (string * JValue));
  ctx_addedItems : list JValue;
  ctx_deletedItems : list string;
  ctx_itemsRules : list (string * list JValue);
  ctx_extraFlags : JValue;
}.

Definition emptyGroup (order : Z) : DailyMessageGroup :=
  {| grp_label := None; grp_order := order; grp_messages := [] |}.

Definition initialContext : ProcessContext :=
  {| ctx_messageGroups :=
       [ ("languages", emptyGroup 80); ("skills", emptyGroup 70);
         ("resistances", emptyGroup 60); ("feats", emptyGroup 50);
         ("spells", emptyGroup 40); ("scrolls", emptyGroup 30) ];
     ctx_rawMessages := [];
     ctx_updatedItems := [];
     ctx_addedItems := [];
     ctx_deletedItems := [];
     ctx_itemsRules := [];
     ctx_extraFlags := JObj [] |}.

(** Modelled from the spec: [createUpdateCollection] of the module's
    [api], which is not part of the interface source. The collection maps
    an item id to its pending update fragment; a further fragment for the
    same id is merged into it by field path, the last writer winning a
    path. *)
Definition updateItem (updatedItems : list (string * list (string * JValue)))
    (data : UpdateData) : list (string * list (string * JValue)) :=
  let update := default [] (assocGet (upd_id data) updatedItems) in
  assocSet (upd_id data)
    (foldl (fun acc kv => assocSet kv.1 kv.2 acc) update (upd_fields data))
    updatedItems.

(** Parameters of [utils.createSpellcastingEntrySource]. *)
Record SpellcastingEntryArgs := {
  entry_name : string;
  entry_identifier : string;
  entry_category : string;
  entry_tradition : string;
  entry_attribute : string;
  entry_showSlotlessRanks : bool;
  entry_proficiencyRank : Z;
  entry_proficiencySlug : option string;
}.

(** Modelled from the spec: [utils.createSpellcastingEntrySource] of the
    module's [utils], which is not part of the interface source. It makes
    the source of a spellcasting entry of the given category, tagged with
    the identifier among the module's flags. *)
Definition createSpellcastingEntrySource (args : SpellcastingEntryArgs) : JValue :=
  JObj
    [ ("type", JStr "spellcastingEntry");
      ("name", JStr (entry_name args));
      ("system",
        JObj [ ("ability", JObj [("value", JStr (entry_attribute args))]);
               ("prepared", JObj [("value", JStr (entry_category args))]);
               ("showSlotlessLevels",
                 JObj [("value", JBool (entry_showSlotlessRanks args))]);
               ("proficiency",
                 JObj [ ("value", JNum (entry_proficiencyRank args));
                        ("slug", from_option JStr JUndefined
                                   (entry_proficiencySlug args)) ]);
               ("tradition", JObj [("value", JStr (entry_tradition args))]) ]);
      ("flags",
        JObj [(MODULE_id, JObj [("identifier", JStr (entry_identifier args))])]) ].

(** [a === b] on the values flags hold; two objects are never the same
    one. *)
Definition strictEq (a b : JValue) : bool :=
  match a, b with
  | JUndefined, JUndefined => true
  | JNull, JNull => true
  | JBool x, JBool y => bool_decide (x = y)
  | JNum x, JNum y => x =? y
  | JStr x, JStr y => String.eqb x y
  | _, _ => false
  end.

Definition hasKey (k : string) (v : JValue) : bool :=
  match v with
  | JObj fields => bool_decide (is_Some (assocGet k fields))
  | _ => false
  end.

(** The closure [getRules]: the rules recorded for the item, or a copy of
    its source's rules without those the module added. *)
Definition getRules (itemsRules : list (string * list JValue)) (item : Item)
  : list JValue :=
  match assocGet (item_id item) itemsRules with
  | Some existing => existing
  | None =>
      match getProperty (item_source item) ["system"; "rules"] with
      | JArr rules => List.filter (fun rule => negb (hasKey MODULE_id rule)) rules
      | _ => []
      end
  end.

Definition setMessages (group : DailyMessageGroup) (messages : list DailyMessage)
  : DailyMessageGroup :=
  {| grp_label := grp_label group; grp_order := grp_order group;
     grp_messages := messages |}.

Definition withMessageGroups (ctx : ProcessContext)
    (messageGroups : list (string * DailyMessageGroup)) : ProcessContext :=
  {| ctx_messageGroups := messageGroups;
     ctx_rawMessages := ctx_rawMessages ctx;
     ctx_updatedItems := ctx_updatedItems ctx;
     ctx_addedItems := ctx_addedItems ctx;
     ctx_deletedItems := ctx_deletedItems ctx;
     ctx_itemsRules := ctx_itemsRules ctx;
     ctx_extraFlags := ctx_extraFlags ctx |}.

Definition withRawMessages (ctx : ProcessContext) (rawMessages : list (string * Z))
  : ProcessContext :=
  {| ctx_messageGroups := ctx_messageGroups ctx;
     ctx_rawMessages := rawMessages;
     ctx_updatedItems := ctx_updatedItems ctx;
     ctx_addedItems := ctx_addedItems ctx;
     ctx_deletedItems := ctx_deletedItems ctx;
     ctx_itemsRules := ctx_itemsRules ctx;
     ctx_extraFlags := ctx_extraFlags ctx |}.

Definition withUpdatedItems (ctx : ProcessContext)
    (updatedItems : list (string * list (string * JValue))) : ProcessContext :=
  {| ctx_messageGroups := ctx_messageGroups ctx;
     ctx_rawMessages := ctx_rawMessages ctx;
     ctx_updatedItems := updatedItems;
     ctx_addedItems := ctx_addedItems ctx;
     ctx_deletedItems := ctx_deletedItems ctx;
     ctx_itemsRules := ctx_itemsRules ctx;
     ctx_extraFlags := ctx_extraFlags ctx |}.

Definition withAddedItems (ctx : ProcessContext) (addedItems : list JValue)
  : ProcessContext :=
  {| ctx_messageGroups := ctx_messageGroups ctx;
     ctx_rawMessages := ctx_rawMessages ctx;
     ctx_updatedItems := ctx_updatedItems ctx;
     ctx_addedItems := addedItems;
     ctx_deletedItems := ctx_deletedItems ctx;
     ctx_itemsRules := ctx_itemsRules ctx;
     ctx_extraFlags := ctx_extraFlags ctx |}.

Definition withDeletedItems (ctx : ProcessContext) (deletedItems : list string)
  : ProcessContext :=
  {| ctx_messageGroups := ctx_messageGroups ctx;
     ctx_rawMessages := ctx_rawMessages ctx;
     ctx_updatedItems := ctx_updatedItems ctx;
     ctx_addedItems := ctx_addedItems ctx;
     ctx_deletedItems := deletedItems;
     ctx_itemsRules := ctx_itemsRules ctx;
     ctx_extraFlags := ctx_extraFlags ctx |}.

Definition withItemsRules (ctx : ProcessContext)
    (itemsRules : list (string * list JValue)) : ProcessContext :=
  {| ctx_messageGroups := ctx_messageGroups ctx;
     ctx_rawMessages := ctx_rawMessages ctx;
     ctx_updatedItems := ctx_updatedItems ctx;
     ctx_addedItems := ctx_addedItems ctx;
     ctx_deletedItems := ctx_deletedItems ctx;
     ctx_itemsRules := itemsRules;
     ctx_extraFlags := ctx_extraFlags ctx |}.

Definition withExtraFlags (ctx : ProcessContext) (extraFlags : JValue)
  : ProcessContext :=
  {| ctx_messageGroups := ctx_messageGroups ctx;
     ctx_rawMessages := ctx_rawMessages ctx;
     ctx_updatedItems := ctx_updatedItems ctx;
     ctx_addedItems := ctx_addedItems ctx;
     ctx_deletedItems := ctx_deletedItems ctx;
     ctx_itemsRules := ctx_itemsRules ctx;
     ctx_extraFlags := extraFlags |}.

(** The order in which [Object.values] and [Object.entries] list the
    properties of an object whose properties were created in the order of
    [fields]: the array indices first, ascending, then the other keys in
    the order of their creation. *)
Definition objectOrder {A} (fields : list (string * A)) : list (string * A) :=
  (sortBy (fun a b => (default 0 (arrayIndex b.1) <? default 0 (arrayIndex a.1))%N)
     (List.filter (fun field => bool_decide (is_Some (arrayIndex field.1))) fields)
   ++ List.filter (fun field => negb (bool_decide (is_Some (arrayIndex field.1)))) fields)%list.

(** What the first loop of [#processDailies] gathers: the values to
    persist, and per daily (in order of first appearance) the values of
    its rows. *)
Record Collected := {
  col_flags : gmap string (gmap string DailyRowData);
  col_dailies : list (string * gmap string DailyRowData);
}.

(** How the joined wait on the callbacks ends: every promise fulfils,
    one rejects, or the mapping itself throws. *)
Inductive WaitStatus :=
| Fulfilled
| Rejected
| Thrown.

Section accept_def.
Context `{Host}.

(** The helpers handed to a [process] callback, as they act on the
    accumulators. *)
Definition applyOp (ctx : ProcessContext) (op : ProcessOp) : ProcessContext :=
  match op with
  | MessagesAdd group message =>
      (* messageGroups[group] ??= { order: 0, messages: [] } *)
      if bool_decide (assocGet group (ctx_messageGroups ctx) = None)
         && bool_decide (group ∈ objectPrototypeKeys)
      then
        (* the inherited member has no [messages]: the push throws into the
           callback and nothing is recorded *)
        ctx
      else
        let existing := default (emptyGroup 0) (assocGet group (ctx_messageGroups ctx)) in
        withMessageGroups ctx
          (assocSet group
             (setMessages existing (grp_messages existing ++ [message])%list)
             (ctx_messageGroups ctx))
  | MessagesAddGroup name label order =>
      if bool_decide (assocGet name (ctx_messageGroups ctx) = None)
         && bool_decide (name ∈ objectPrototypeKeys)
      then
        (* [name in messageGroups] holds of the inherited member, which
           takes the label: no group is made; what a label on the
           inherited member does to other objects is left out *)
        ctx
      else
        let group :=
          match assocGet name (ctx_messageGroups ctx) with
          | Some existing =>
              (* label ??= label; every group already has an order *)
              {| grp_label := match grp_label existing with
                              | Some l => Some l
                              | None => label
                              end;
                 grp_order := grp_order existing;
                 grp_messages := grp_messages existing |}
          | None =>
              {| grp_label := label; grp_order := default 0 order;
                 grp_messages := [] |}
          end in
        withMessageGroups ctx (assocSet name group (ctx_messageGroups ctx))
  | MessagesAddRaw message order =>
      withRawMessages ctx (ctx_rawMessages ctx ++ [(message, default 1 order)])%list
  | UpdateItem data =>
      withUpdatedItems ctx (updateItem (ctx_updatedItems ctx) data)
  | AddItem source =>
      withAddedItems ctx (ctx_addedItems ctx ++ [source])%list
  | AddFeat source parent =>
      let source :=
        match parent with
        | Some parent =>
            if isOfType parent "feat" then
              let parentId := item_id parent in
              setFlagProperty
                (setProperty source ["flags"; "pf2e"; "grantedBy"]
                   (JObj [("id", JStr parentId); ("onDelete", JStr "cascade")]))
                ["grantedBy"] (JStr parentId)
            else source
        | None => source
        end in
      withAddedItems ctx (ctx_addedItems ctx ++ [source])%list
  | DeleteItem item =>
      withDeletedItems ctx (ctx_deletedItems ctx ++ [item_id item])%list
  | RemoveRule item signature =>
      let rules := getRules (ctx_itemsRules ctx) item in
      withItemsRules ctx
        (assocSet (item_id item)
           (List.filter (fun rule => negb (signature rule)) rules)
           (ctx_itemsRules ctx))
  | AddRule item source =>
      let rules := getRules (ctx_itemsRules ctx) item in
      withItemsRules ctx
        (assocSet (item_id item)
           (rules ++ [setProperty source [MODULE_id] (JBool true)])%list
           (ctx_itemsRules ctx))
  | SetExtraFlags data =>
      withExtraFlags ctx (mergeObject (ctx_extraFlags ctx) data)
  end.

(** The value read from a row element; alert and notify rows have
    none. *)
Definition rowValue (rowElement : RowElement) : option DailyRowData :=
  match el_type rowElement with
  | TDrop => Some (RowDrop (el_uuid rowElement) (el_value rowElement))
  | TCombo =>
      let isInput := el_input rowElement in
      let selected :=
        if isInput then trim (el_value rowElement) else el_comboSelect rowElement in
      Some (RowCombo selected isInput)
  | TSelect | TInput => Some (RowString (trim (el_value rowElement)))
  | TRandom => Some (RowString (selectRandomOption rowElement))
  | TAlert | TNotify => None
  end.

(** [value] is what some row element marked as saved holds for the row. *)
Definition fromSavedElement (form : list RowElement) (daily row : string)
    (value : DailyRowData) : Prop :=
  exists el, el ∈ form /\ el_daily el = daily /\ el_row el = row /\
             el_save el = true /\ rowValue el = Some value.

(** The body of [for (const rowElement of rowElements)]. [dailies] and
    [flags] are plain objects: for a daily key that [Object.prototype]
    has a member for, [dailies[data.daily] ??= ...] finds the member and
    assigns nothing, and the write to the [rows] of the member throws;
    a row whose slug is [__proto__] is written to no property. *)
Definition collectRow (acc : Collected) (rowElement : RowElement) : Exc Collected :=
  match rowValue rowElement with
  | None => Ok acc
  | Some row =>
      let daily := el_daily rowElement in
      if bool_decide (assocGet daily (col_dailies acc) = None)
         && bool_decide (daily ∈ objectPrototypeKeys)
      then Throw TypeError
      else
        (* dailies[data.daily] ??= { daily, rows: {} } *)
        let rows := default ∅ (assocGet daily (col_dailies acc)) in
        Ok {| col_dailies :=
                assocSet daily (setOwn (el_row rowElement) row rows) (col_dailies acc);
              col_flags :=
                if el_save rowElement then
                  (* flags[data.daily] ??= {} *)
                  <[daily := setOwn (el_row rowElement) row
                               (default ∅ (col_flags acc !! daily))]> (col_flags acc)
                else col_flags acc |}
  end.

(** The loop: it ends with the first element that throws. *)
Definition collectRows (rowElements : list RowElement) : Exc Collected :=
  foldl (fun acc rowElement => acc <- acc ;;; collectRow acc rowElement)
        (Ok {| col_flags := ∅; col_dailies := [] |}) rowElements.

(** [Object.values(dailies).map(...)] and the joined wait; [dailies] is
    given in the order of [Object.values]. The callbacks are called one
    after the other in this order, and the helper calls of a callback
    are taken where the callback is called: that is their place as long
    as they are made before the first [await] of the callback; how
    calls made later fall between those of other callbacks is not
    modelled. A callback that throws is caught and logged; one whose
    promise rejects makes the wait reject once the mapping is over. An
    entry whose daily is not in the catalog throws in the [try] and
    again in the [catch], which ends the mapping. *)
Fixpoint runDailies (catalog : gmap string PreparedDaily)
    (dailies : list (string * gmap string DailyRowData)) (ctx : ProcessContext)
  : ProcessContext * list Effect * WaitStatus :=
  match dailies with
  | [] => (ctx, [], Fulfilled)
  | (key, rows) :: rest =>
      match catalog !! key with
      | None => (ctx, [EError "error.unexpected"; EConsoleError "TypeError"], Thrown)
      | Some daily =>
          let run := daily_process daily rows in
          let ctx := foldl applyOp ctx (run_ops run) in
          let '(ctx, effects, status) := runDailies catalog rest ctx in
          match run_completion run with
          | Returns => (ctx, effects, status)
          | Throws err =>
              (ctx,
               EError "error.unexpected" :: EConsoleError err
                 :: EConsoleError
                      ("The error occured during processing of " +:+ daily_key daily)
                 :: effects,
               status)
          | Rejects _ =>
              (ctx, effects, match status with Thrown => Thrown | _ => Rejected end)
          end
      end
  end.

(** [calls] is made of the calls of [callbacks], those of each callback
    in their order: what callbacks that run side by side can make of
    their calls. *)
Inductive Interleaved {A} : list (list A) -> list A -> Prop :=
| interleaved_done callbacks :
    Forall (fun calls => calls = []) callbacks -> Interleaved callbacks []
| interleaved_call before call calls after rest :
    Interleaved (before ++ calls :: after) rest ->
    Interleaved (before ++ (call :: calls) :: after) (call :: rest).

Definition isSpellSource (source : JValue) : bool :=
  strictEq (getProperty source ["type"]) (JStr "spell").

(** The body of [for (const source of addedItems)]: the source as it
    is left, and whether it was taken for an orphan spell. *)
Definition tagSource (entryIdentifier : string) (source : JValue) : JValue * bool :=
  let source :=
    if negb (truthy (getProperty source ["system"; "temporary"]))
    then setFlagProperty source ["temporary"] (JBool true)
    else source in
  if isSpellSource source
     && negb (truthy (getProperty source ["system"; "localtion"; "value"]))
     && negb (truthy (getFlagProperty source ["identifier"]))
  then (setFlagProperty source ["identifier"] (JStr entryIdentifier), true)
  else (source, false).

(** The spellcasting entry made for orphan spells, when the character
    has a statistic to build it on. *)
Definition orphanEntrySource (actor : CharacterPF2e) (entryIdentifier : string)
  : option JValue :=
  let highestEntry := actor_highestSpellcasting actor in
  let highestSynthetic := actor_highestSynthetic actor in
  let choice : option (option string * Statistic * bool) :=
    match highestEntry, highestSynthetic with
    | Some (tradition, statistic), None => Some (Some tradition, statistic, false)
    | Some (tradition, statistic), Some synthetic =>
        if stat_mod synthetic <=? stat_mod statistic
        then Some (Some tradition, statistic, false)
        else Some (None, synthetic, true)
    | None, Some synthetic => Some (None, synthetic, true)
    | None, None => None
    end in
  match choice with
  | Some (tradition, statistic, isSynthetic) =>
      let source :=
        createSpellcastingEntrySource
          {| entry_name := localize "spellEntry.name" [];
             entry_identifier := entryIdentifier;
             entry_category := "innate";
             entry_tradition := default "arcane" tradition;
             entry_attribute := stat_attribute statistic;
             entry_showSlotlessRanks := false;
             entry_proficiencyRank := default 1 (stat_rank statistic);
             entry_proficiencySlug :=
               if isSynthetic then Some (stat_slug statistic) else None |} in
      Some (setFlagProperty source ["temporary"] (JBool true))
  | None => None
  end.

(** The sources handed to the item store: every added source after
    tagging, and the orphan entry when one is made. *)
Definition finalSources (actor : CharacterPF2e) (addedItems : list JValue)
  : list JValue :=
  let entryIdentifier := randomID in
  let tagged := tagSource entryIdentifier <$> addedItems in
  let hasOrphanSpells := existsb snd tagged in
  let addedItems := fst <$> tagged in
  if hasOrphanSpells then
    match orphanEntrySource actor entryIdentifier with
    | Some source => (addedItems ++ [source])%list
    | None => addedItems
    end
  else addedItems.

(** The documents [createEmbeddedDocuments] returns. *)
Definition createdItems (sources : list JValue) : list Item :=
  imap (fun n source =>
          {| item_id := createdItemId n source; item_source := source |}) sources.

(** The body of the second [for (const item of items)]: the updates a
    created item asks for. A feat granted by a parent registers itself
    with the parent; a spellcasting entry with an identifier takes in
    the created spells that carry the same identifier. *)
Definition linkUpdates (items : list Item) (item : Item) : list UpdateData :=
  if isOfType item "feat" then
    match getItemFlag item "grantedBy" with
    | JStr parentId =>
        if truthyStr parentId then
          let slug := sluggify (item_name item) true in
          [ {| upd_id := parentId;
               upd_fields :=
                 [ ("flags.pf2e.itemGrants." +:+ slug,
                    JObj [("id", JStr (item_id item)); ("onDelete", JStr "detach")]) ]
            |} ]
        else []
    | _ => []
    end
  else if isOfType item "spellcastingEntry" then
    let identifier := getItemFlag item "identifier" in
    if negb (truthy identifier) then []
    else
      (fun spell =>
         {| upd_id := item_id spell;
            upd_fields :=
              [ ("system.location.value", JStr (item_id item));
                ("system.location.heightenedLevel", getItemFlag spell "rank") ] |})
        <$> List.filter
              (fun spell => isOfType spell "spell"
                            && strictEq (getItemFlag spell "identifier") identifier)
              items
  else [].

(** The payload of the flag update:
    [{ ...flags, extra, rested: false, schema, addedItems }]. *)
Definition flagUpdate (flags : gmap string (gmap string DailyRowData))
    (extraFlags : JValue) (addedItemIds : list string) : FlagUpdate :=
  <["addedItems" := FlagAddedItems addedItemIds]>
    (<["schema" := FlagSchema ACTOR_DAILY_SCHEMA]>
       (<["rested" := FlagRested false]>
          (<["extra" := FlagExtra extraFlags]> (FlagRows <$> flags)))).

(** One paragraph of a group of the summary. *)
Definition messageLine (messageOptions : DailyMessage) : string :=
  let label := trim <$> msg_label messageOptions in
  let labelText :=
    match label with
    | Some l => if truthyStr l then " " +:+ l else ""
    | None => ""
    end in
  "<p>"
    +:+ (match msg_uuid messageOptions with
         | Some uuid => if truthyStr uuid then createChatLink uuid label else labelText
         | None => labelText
         end)
    +:+ (match msg_selected messageOptions with
         | Some selected =>
             if truthyStr selected
             then "<i class=" +:+ dq +:+ "fa-solid fa-caret-right" +:+ dq +:+ "></i>"
                    +:+ selected
             else ""
         | None => ""
         end)
    +:+ (if default false (msg_random messageOptions)
         then "<i class=" +:+ dq +:+ "fa-solid fa-dice-d20" +:+ dq +:+ "></i>"
         else "")
    +:+ "</p>".

(** The section of a message group, if it has messages. *)
Definition groupSection (entry : string * DailyMessageGroup) : option ChatGroup :=
  let '(type, group) := entry in
  if bool_decide (grp_messages group = []) then None
  else
    let groupLabel :=
      if from_option truthyStr false (grp_label group)
      then i18n_localize (default "" (grp_label group))
      else default (localize "message.gained" [("type", type)])
                   (localizeIfExist ("message.groups." +:+ type)) in
    Some {| chat_message :=
              "<p><strong>" +:+ groupLabel +:+ "</strong></p>"
                +:+ String.concat "" (messageLine <$> grp_messages group);
            chat_order := Finite (grp_order group) |}.

(** The sections gathered before the preface is added: the raw
    messages, then the groups that have messages, in the order of
    [Object.entries(messageGroups)]. *)
Definition chatSections (messageGroups : list (string * DailyMessageGroup))
    (rawMessages : list (string * Z)) : list ChatGroup :=
  (((fun raw => {| chat_message := "<p>" +:+ raw.1 +:+ "</p>";
                   chat_order := Finite raw.2 |}) <$> rawMessages)
     ++ omap groupSection (objectOrder messageGroups))%list.

Definition chatPreface (sections : list ChatGroup) : ChatGroup :=
  {| chat_message :=
       localize (if bool_decide (sections = []) then "message.noChanges"
                 else "message.changes") [];
     chat_order := Infinity |}.

(** The sections of the summary, in the order they are posted. *)
Definition chatGroups (messageGroups : list (string * DailyMessageGroup))
    (rawMessages : list (string * Z)) : list ChatGroup :=
  let chatGroups := chatSections messageGroups rawMessages in
  sortBy orderAfter (chatPreface chatGroups :: chatGroups).

Definition chatContent (groups : list ChatGroup) : string :=
  "<div class=" +:+ dq +:+ "pf2e-dailies-summary" +:+ dq +:+ ">"
    +:+ String.concat "<hr />" (chat_message <$> groups) +:+ "</div>".

(** [#processDailies]: what it does to the outside, and whether it
    completes ([false] when the first loop throws, the joined wait
    rejects or the mapping throws, which leaves the rest of the function
    unexecuted). *)
Definition processDailies (actor : CharacterPF2e)
    (catalog : gmap string PreparedDaily) (rowElements : list RowElement)
  : list Effect * bool :=
  match collectRows rowElements with
  | Throw _ => ([], false)
  | Ok collected =>
  let '(ctx, effects, status) :=
    runDailies catalog (objectOrder (col_dailies collected)) initialContext in
  match status with
  | Fulfilled =>
      let addedItems := finalSources actor (ctx_addedItems ctx) in
      let items := createdItems addedItems in
      let addedItemIds := item_id <$> items in
      let updatedItems :=
        foldl updateItem (ctx_updatedItems ctx) (items ≫= linkUpdates items) in
      let updatedItems :=
        foldl updateItem updatedItems
          ((fun entry => {| upd_id := entry.1;
                            upd_fields := [("system.rules", JArr entry.2)] |})
             <$> ctx_itemsRules ctx) in
      let deletedItems := ctx_deletedItems ctx in
      (effects
         ++ (if bool_decide (addedItems = []) then [] else [ECreateItems addedItems])
         ++ (if bool_decide (updatedItems = []) then []
             else [EUpdateItems
                     ((fun entry => {| upd_id := entry.1; upd_fields := entry.2 |})
                        <$> updatedItems)])
         ++ (if bool_decide (deletedItems = []) then [] else [EDeleteItems deletedItems])
         ++ [ EUpdateFlag
                (flagUpdate (col_flags collected) (ctx_extraFlags ctx) addedItemIds);
              EChatMessage
                (chatContent
                   (chatGroups (ctx_messageGroups ctx) (ctx_rawMessages ctx))) ],
       true)%list
  | Rejected | Thrown => (effects, false)
  end
  end.

(** [#onAccept]: a blank required row stops it before anything is
    processed. *)
Definition onAccept (actor : CharacterPF2e) (catalog : gmap string PreparedDaily)
    (form : list RowElement) : list Effect * bool :=
  let emptyRows :=
    List.filter (fun el => negb (el_empty el)
                           && String.eqb (trim (el_value el)) "") form in
  if negb (bool_decide (emptyRows = [])) then
    (EClearEmptyMarks :: EWarn "interface.error.empty"
       :: ((fun el => EMarkEmpty (el_row el)) <$> emptyRows),
     true)
  else
    let '(effects, completed) := processDailies actor catalog form in
    (EClearEmptyMarks :: ELock :: effects ++ (if completed then [EClose] else []),
     completed)%list.

End accept_def.


(** ** Drop validation: [#validateDefault] and [#validateSpell] *)

(** A dropped spell, as validation reads it. *)
Record SpellPF2e := {
  spell_rank : Z;
  spell_isCantrip : bool;
  spell_isFocusSpell : bool;
  spell_isRitual : bool;
  spell_traditions : list string;            (* system.traits.traditions *)
  spell_traits : list string;                (* system.traits.value *)
  spell_rarity : string;
  spell_publication : string;
    (* system.publication?.title ?? system.source?.value ?? "" *)
}.

(** The browser filter of a spell drop row, as validation reads it. *)
Record SpellFilters := {
  flt_rank : list string;                    (* checkboxes.rank.selected *)
  flt_category : list string;                (* checkboxes.category.selected *)
  flt_traditions : list string;              (* checkboxes.traditions.selected *)
  flt_rarity : list string;                  (* checkboxes.rarity.selected *)
  flt_source : list string;                  (* checkboxes.source.selected *)
  flt_traits : list (string * bool);         (* multiselects.traits.selected *)
  flt_traitsConjunction : string;            (* multiselects.traits.conjunction *)
}.

(** [t.replace(/^hb_/, "")] *)
Definition stripHb (t : string) : string :=
  match t with
  | String "h" (String "b" (String "_" rest)) => rest
  | _ => t
  end.

(** [array.sort()] on strings: ascending by code units. *)
Definition sortStrings (l : list string) : list string :=
  sortBy (fun a b => String.ltb b a) l.

(** The categories computed for the item, [R.compact]ed. *)
Definition spellCategories (item : SpellPF2e) : list string :=
  let isCantrip := spell_isCantrip item in
  let isFocusSpell := spell_isFocusSpell item in
  let isRitual := spell_isRitual item in
  let isSpell := negb isCantrip && negb isFocusSpell && negb isRitual in
  ((if isSpell then ["spell"] else [])
     ++ (if isCantrip then ["cantrip"] else [])
     ++ (if isFocusSpell then ["focus"] else [])
     ++ (if isRitual then ["ritual"] else []))%list.

(** A call of [#dropDataWarning(type, need, has)], or the plain warning
    of a trait mismatch. *)
Inductive DropWarning :=
| DropDataWarning (type : string) (need : list string) (has : list string)
| WrongTraits.

Section validate_def.
Context `{Host}.

(** The rank check: the warning it ends validation with, if any. *)
Definition checkRank (item : SpellPF2e) (filter : SpellFilters) : option DropWarning :=
  let itemRank := pretty (spell_rank item) in
  let filterRanks := flt_rank filter in
  if negb (bool_decide (filterRanks = [])) && negb (bool_decide (itemRank ∈ filterRanks))
  then Some (DropDataWarning "rank" filterRanks [itemRank])
  else None.

(** The category check: both lists are sorted and compared. *)
Definition checkCategories (item : SpellPF2e) (filter : SpellFilters)
  : option DropWarning :=
  let filterCategories := flt_category filter in
  if negb (bool_decide (filterCategories = [])) then
    let sortedFilterCategories := sortStrings filterCategories in
    let sortedItemCategories := sortStrings (spellCategories item) in
    if negb (bool_decide (sortedFilterCategories = sortedItemCategories)) then
      Some (DropDataWarning "categories"
              ((fun x => default "" (configLabel "spellTraits" x))
                 <$> sortedFilterCategories)
              ((fun x => default (i18n_localize "TYPES.Item.spell")
                                 (configLabel "spellTraits" x))
                 <$> sortedItemCategories))
    else None
  else None.

(** The tradition check: [R.intersection] must not be empty. *)
Definition checkTraditions (item : SpellPF2e) (filter : SpellFilters)
  : option DropWarning :=
  let filterTraditions := flt_traditions filter in
  let itemTraditions := spell_traditions item in
  if negb (bool_decide (filterTraditions = []))
     && bool_decide (list_intersection filterTraditions itemTraditions = [])
  then Some (DropDataWarning "traditions"
               ((fun x => default "" (configLabel "magicTraditions" x))
                  <$> filterTraditions)
               ((fun x => default "" (configLabel "magicTraditions" x))
                  <$> itemTraditions))
  else None.

(** [#validateDefault]: traits, rarity and source. *)
Definition validateDefault (item : SpellPF2e) (filter : SpellFilters)
  : option DropWarning :=
  let itemTraits := stripHb <$> spell_traits item in
  if negb (filterTraits itemTraits (flt_traits filter) (flt_traitsConjunction filter))
  then Some WrongTraits
  else
    let rarities := flt_rarity filter in
    if negb (bool_decide (rarities = []))
       && negb (bool_decide (spell_rarity item ∈ rarities))
    then Some (DropDataWarning "rarity"
                 ((fun x => default "" (configLabel "rarityTraits" x)) <$> rarities)
                 [default "" (configLabel "rarityTraits" (spell_rarity item))])
    else
      let sources := flt_source filter in
      if negb (bool_decide (sources = [])) then
        let pubSource := trim (spell_publication item) in
        let sourceSlug := sluggify pubSource false in
        if negb (bool_decide (sourceSlug ∈ sources))
        then Some (DropDataWarning "source" [""] [pubSource])
        else None
      else None.

(** [#validateSpell]: the first check that fails gives the warning and
    the result [false]. *)
Definition validateSpell (item : SpellPF2e) (filter : SpellFilters)
  : option DropWarning * bool :=
  match checkRank item filter with
  | Some warning => (Some warning, false)
  | None =>
      match checkCategories item filter with
      | Some warning => (Some warning, false)
      | None =>
          match checkTraditions item filter with
          | Some warning => (Some warning, false)
          | None =>
              match validateDefault item filter with
              | Some warning => (Some warning, false)
              | None => (None, true)
              end
          end
      end
  end.

End validate_def.

(** ** Sample data *)

(** A host with the identity for every text function. *)
Definition plainHost : Host :=
  {| localize := fun key _ => key;
     localizeIfExist := fun _ => None;
     i18n_localize := fun key => key;
     createChatLink := fun uuid _ => "@UUID[" +:+ uuid +:+ "]";
     sluggify := fun text _ => text;
     mergeObject := fun original other => other;
     randomID := "fresh-entry-id";
     createdItemId := fun n _ => "item-" +:+ pretty n;
     filterTraits := fun _ _ _ => true;
     selectRandomOption := fun el => el_value el;
     configLabel := fun _ key => Some key |}.

(** A character last prepared under schema 2.0.0. *)
Definition legacyActor : CharacterPF2e :=
  {| actor_flags :=
       Some (<["schema" := FlagSchema "2.0.0"]>
               (<["skills" := FlagRows {[ "trained" := RowString "acrobatics" ]}]> ∅));
     actor_familiar := true;
     actor_hasStaves := false;
     actor_disabledDailies := ∅;
     actor_highestSpellcasting := None;
     actor_highestSynthetic := None |}.

(** The same character once its schema flag reads 3.0.0. *)
Definition currentActor : CharacterPF2e :=
  setFlag legacyActor "schema" (FlagSchema "3.0.0").

(** A focus cantrip of the occult and divine traditions. *)
Definition focusCantrip : SpellPF2e :=
  {| spell_rank := 1; spell_isCantrip := true; spell_isFocusSpell := true;
     spell_isRitual := false; spell_traditions := ["occult"; "divine"];
     spell_traits := ["hb_cantrip"; "concentrate"]; spell_rarity := "common";
     spell_publication := "Player Core" |}.

(** A filter admitting exactly the focus cantrips, of the arcane or the
    occult tradition. *)
Definition focusCantripFilter : SpellFilters :=
  {| flt_rank := []; flt_category := ["focus"; "cantrip"];
     flt_traditions := ["arcane"; "occult"]; flt_rarity := []; flt_source := [];
     flt_traits := []; flt_traitsConjunction := "and" |}.

(** A filter naming the cantrips only. *)
Definition cantripFilter : SpellFilters :=
  {| flt_rank := []; flt_category := ["cantrip"];
     flt_traditions := []; flt_rarity := []; flt_source := [];
     flt_traits := []; flt_traitsConjunction := "and" |}.

(** A spell source that names the entry it belongs to, and one that does
    not. *)
Definition placedSpell : JValue :=
  JObj [ ("type", JStr "spell"); ("name", JStr "Fireball");
         ("system", JObj [("location", JObj [("value", JStr "entry-1")])]) ].

Definition looseSpell : JValue :=
  JObj [ ("type", JStr "spell"); ("name", JStr "Guidance"); ("system", JObj []) ].

Definition selectElement (daily row value : string) : RowElement :=
  {| el_type := TSelect; el_daily := daily; el_row := row; el_save := true;
     el_empty := false; el_input := false; el_uuid := ""; el_value := value;
     el_comboSelect := "" |}.

(** A daily that adds the placed spell. *)
Definition libraryDaily : PreparedDaily :=
  {| daily_key := "library"; daily_label := "Library"; daily_rows := [];
     daily_process := fun _ =>
       {| run_ops := [AddItem placedSpell]; run_completion := Returns |} |}.

(** A daily that adds a language message and deletes nothing. *)
Definition tonguesDaily : PreparedDaily :=
  {| daily_key := "tongues"; daily_label := "Tongues"; daily_rows := [];
     daily_process := fun _ =>
       {| run_ops :=
            [MessagesAdd "languages"
               {| msg_label := Some "Elven"; msg_uuid := None;
                  msg_selected := None; msg_random := None |}];
          run_completion := Returns |} |}.

(** A daily whose [process] fails: as a plain function that throws, or
    as an [async] function that throws. *)
Definition brokenDaily (completion : Completion) : PreparedDaily :=
  {| daily_key := "broken"; daily_label := "Broken"; daily_rows := [];
     daily_process := fun _ => {| run_ops := []; run_completion := completion |} |}.

Definition brokenCatalog (completion : Completion) : gmap string PreparedDaily :=
  <["broken" := brokenDaily completion]> (<["tongues" := tonguesDaily]> ∅).

Definition brokenForm : list RowElement :=
  [selectElement "broken" "pick" "x"; selectElement "tongues" "language" "elven"].

(** A form with a blank required row, and an alert. *)
Definition blankForm : list RowElement :=
  [ selectElement "library" "pick" "fireball";
    {| el_type := TInput; el_daily := "tongues"; el_row := "language"; el_save := true;
       el_empty := false; el_input := false; el_uuid := ""; el_value := "   ";
       el_comboSelect := "" |} ].

(** A form with a saved row, an unsaved one, an alert and a notify row. *)
Definition mixedForm : list RowElement :=
  [ selectElement "library" "pick" "fireball";
    {| el_type := TInput; el_daily := "library"; el_row := "memo"; el_save := false;
       el_empty := true; el_input := false; el_uuid := ""; el_value := "later";
       el_comboSelect := "" |};
    {| el_type := TAlert; el_daily := "library"; el_row := "warning"; el_save := false;
       el_empty := false; el_input := false; el_uuid := ""; el_value := "Check this";
       el_comboSelect := "" |};
    {| el_type := TNotify; el_daily := "library"; el_row := "note"; el_save := true;
       el_empty := true; el_input := false; el_uuid := ""; el_value := "Noted";
       el_comboSelect := "" |} ].

Definition emptyRow (slug : string) (type : DailyRowType) : DailyRow :=
  {| row_slug := slug; row_type := type; row_label := None; row_condition := None;
     row_save := None; row_order := None; row_empty := None; row_options := [];
     row_unique := None; row_filterType := DropFeat; row_note := None;
     row_message := "" |}.

(** A daily with a select, a random and a combo row, none with options. *)
Definition bareDaily : PreparedDaily :=
  {| daily_key := "bare"; daily_label := "Bare";
     daily_rows := [emptyRow "choice" TSelect; emptyRow "luck" TRandom;
                    emptyRow "free" TCombo];
     daily_process := fun _ => {| run_ops := []; run_completion := Returns |} |}.

Definition featMessage : DailyMessage :=
  {| msg_label := Some "Toughness"; msg_uuid := None;
     msg_selected := None; msg_random := None |}.

Definition skillMessage : DailyMessage :=
  {| msg_label := Some "Acrobatics"; msg_uuid := None;
     msg_selected := None; msg_random := None |}.

(** A feat message, a skill message and one raw message with no order
    given. *)
Definition summaryOps : list ProcessOp :=
  [ MessagesAdd "feats" featMessage; MessagesAdd "skills" skillMessage;
    MessagesAddRaw "Rested." None ].

(** A daily whose callback makes these calls, and a form with one row of
    it. *)
Definition summaryDaily : PreparedDaily :=
  {| daily_key := "summary"; daily_label := "Summary"; daily_rows := [];
     daily_process := fun _ => {| run_ops := summaryOps; run_completion := Returns |} |}.

Definition summaryForm : list RowElement := [selectElement "summary" "pick" "x"].

Definition plainActor (flags : option (gmap string FlagEntry)) : CharacterPF2e :=
  {| actor_flags := flags;
     actor_familiar := false;
     actor_hasStaves := false;
     actor_disabledDailies := ∅;
     actor_highestSpellcasting :=
       Some ("occult", {| stat_mod := 9; stat_attribute := "cha";
                          stat_rank := Some 2; stat_slug := "occult" |});
     actor_highestSynthetic := None |}.

(** What the resolver never touches in an option. *)
Definition optionData (o : OptionEl) : string * option string * option string :=
  (opt_value o, opt_dataUnique o, opt_dataSkipUnique o).

(** The resolver's result for an element: the same options, a selected
    index inside them. *)
Definition reselected (selectEl selectEl' : SelectEl) : Prop :=
  optionData <$> sel_options selectEl' = optionData <$> sel_options selectEl /\
  selectWF selectEl'.

(** Three rows over the same three options, two of them stale. *)
Definition sharedGroup : list SelectEl :=
  [mkSelect ["a"; "b"; "c"] 0; mkSelect ["a"; "b"; "c"] 0; mkSelect ["a"; "b"; "c"] 1].

(** Three rows of one unique tag with different option lists: the group
    offers the three values a, b, c. *)
Definition stuckGroup : list SelectEl :=
  [mkSelect ["a"; "b"; "c"] 0; mkSelect ["a"; "b"] 0; mkSelect ["a"; "b"] 0].

(** Two rows over the same two options, the first of them the empty
    value, both with nothing chosen. *)
Definition blankGroup : list SelectEl :=
  [mkSelect [""; "a"] 0; mkSelect [""; "a"] 0].

(** A group whose selections do not collide. *)
Definition settledGroup : list SelectEl :=
  [mkSelect ["a"; "b"; "c"] 2; mkSelect ["a"; "b"] 0; mkSelect ["a"; "b"] 1].

(** ** Further parts of the interface *)

(** *** Paths of an item source *)

(** [setProperty] reaches the end of [key] in [object]: every value it
    has to step through is an object, or missing. *)
Fixpoint writable (object : JValue) (key : list string) : bool :=
  match key with
  | [] => true
  | p :: key' =>
      match object with
      | JObj fields =>
          match assocGet p fields with
          | Some target => writable target key'
          | None => true
          end
      | _ => false
      end
  end.

(** Two paths part ways: after a common start they name different
    segments. *)
Fixpoint diverge (key1 key2 : list string) : bool :=
  match key1, key2 with
  | p1 :: key1', p2 :: key2' =>
      if String.eqb p1 p2 then diverge key1' key2' else true
  | _, _ => false
  end.

(** *** Group markers of a row template *)

(** Reads the options of a row template the way the form nests them: a
    heading opens a group, a group-end marker closes the open one. The
    answer is [true] when no heading comes while a group is open, no
    marker comes while none is open, and nothing is left open. *)
Fixpoint groupsClosed (opened : bool) (options : list TemplateOption) : bool :=
  match options with
  | [] => negb opened
  | TplOption (OptionGroup _) :: rest => negb opened && groupsClosed true rest
  | TplOption (OptionValue _ _ _ _) :: rest => groupsClosed opened rest
  | TplGroupEnd :: rest => opened && groupsClosed false rest
  end.

(** The row option behind an entry of a row template. *)
Definition templateOptionOf (o : TemplateOption) : option DailyRowSelectOption :=
  match o with
  | TplOption option => Some option
  | TplGroupEnd => None
  end.

Definition isGroupHeading (o : DailyRowSelectOption) : bool :=
  match o with
  | OptionGroup _ => true
  | OptionValue _ _ _ _ => false
  end.

(** *** The rendered rows *)

(** Every row template the enabled dailies give rise to, before the
    dailies are split into flat rows and groups. *)
Definition renderedRows `{Host} (actor : CharacterPF2e) (dailies : list PreparedDaily)
  : list RowTemplate :=
  omap (dailyTemplate actor) dailies ≫= dtpl_rows.

(** *** The flag update *)

(** The keys the flag update sets itself, beside the keys of the
    dailies. *)
Definition fixedFlagKeys : list string := ["extra"; "rested"; "schema"; "addedItems"].

(** *** Added sources *)

(** The first step of the loop over the added sources of an accept: the
    mark of a temporary item. *)
Definition markTemporary (source : JValue) : JValue :=
  if negb (truthy (getProperty source ["system"; "temporary"]))
  then setFlagProperty source ["temporary"] (JBool true)
  else source.

(** ** Feat validation: [#validateFeat] *)

(** A dropped feat, as validation reads it. An entry of
    [feat_prerequisites] is the [value] of a prerequisite, [None] when
    the prerequisite or its value is missing. *)
Record FeatPF2e := {
  feat_level : Z;
  feat_category : string;
  feat_prerequisites : list (option string);  (* system.prerequisites.value *)
  feat_traits : list string;                  (* system.traits.value *)
  feat_rarity : string;
  feat_publication : string;
    (* system.publication?.title ?? system.source?.value ?? "" *)
}.

(** The browser filter of a feat drop row, as validation reads it. *)
Record FeatFilters := {
  fflt_levelMin : Z;                          (* sliders.level.values.min *)
  fflt_levelMax : Z;                          (* sliders.level.values.max *)
  fflt_category : list string;                (* checkboxes.category.selected *)
  fflt_skills : list string;                  (* checkboxes.skills.selected *)
  fflt_rarity : list string;                  (* checkboxes.rarity.selected *)
  fflt_source : list string;                  (* checkboxes.source.selected *)
  fflt_traits : list (string * bool);         (* multiselects.traits.selected *)
  fflt_traitsConjunction : string;            (* multiselects.traits.conjunction *)
}.

(** The platform's [Number.prototype.between(a, b)]: the bounds are
    included and are taken in either order. *)
Definition between (n a b : Z) : bool :=
  (Z.min a b <=? n) && (n <=? Z.max a b).

(** [String.prototype.includes(searchString)] *)
Fixpoint includes (s searchString : string) : bool :=
  String.prefix searchString s
  || match s with
     | String _ s' => includes s' searchString
     | EmptyString => false
     end.

(** [Set.prototype.add] on the elements in insertion order. *)
Definition setAdd (set : list string) (x : string) : list string :=
  if bool_decide (x ∈ set) then set else set ++ [x].

(** What [#validateFeat] warns with: a call of [#dropDataWarning] with
    both lists, or the call for the skills, which names the missing
    skills only. *)
Inductive FeatWarning :=
| FeatData (warning : DropWarning)
| FeatSkills (need : list (option string)).

Section validateFeat_def.
Context `{Host}.

(** [#validateDefault] on what it reads of an item and of a filter,
    whichever the kind of the item. *)
Definition validateDefaultOf (traits : list string) (rarity publication : string)
    (selectedTraits : list (string * bool)) (conjunction : string)
    (rarities sources : list string) : option DropWarning :=
  let itemTraits := stripHb <$> traits in
  if negb (filterTraits itemTraits selectedTraits conjunction)
  then Some WrongTraits
  else
    if negb (bool_decide (rarities = []))
       && negb (bool_decide (rarity ∈ rarities))
    then Some (DropDataWarning "rarity"
                 ((fun x => default "" (configLabel "rarityTraits" x)) <$> rarities)
                 [default "" (configLabel "rarityTraits" rarity)])
    else
      if negb (bool_decide (sources = [])) then
        let pubSource := trim publication in
        let sourceSlug := sluggify pubSource false in
        if negb (bool_decide (sourceSlug ∈ sources))
        then Some (DropDataWarning "source" [""] [pubSource])
        else None
      else None.

(** [String.prototype.toLowerCase] *)
Variable toLowerCase : string -> string.

(** Modelled from the spec: [getTranslatedSkills] of the module's
    [utils], which is not part of the interface source: the configured
    skills, each key with its localized name, in the order of
    [Object.entries]. *)
Variable translatedSkills : list (string * string).

(** The level check. *)
Definition checkLevel (item : FeatPF2e) (filter : FeatFilters) : option FeatWarning :=
  if negb (between (feat_level item) (fflt_levelMin filter) (fflt_levelMax filter))
  then Some (FeatData
               (DropDataWarning "level"
                  [pretty (fflt_levelMin filter) +:+ "-" +:+ pretty (fflt_levelMax filter)]
                  [pretty (feat_level item)]))
  else None.

(** The category check. *)
Definition checkFeatCategory (item : FeatPF2e) (filter : FeatFilters)
  : option FeatWarning :=
  let categories := fflt_category filter in
  if negb (bool_decide (categories = []))
     && negb (bool_decide (feat_category item ∈ categories))
  then Some (FeatData
               (DropDataWarning "category"
                  ((fun x => default "" (configLabel "featCategories" x)) <$> categories)
                  [default "" (configLabel "featCategories" (feat_category item))]))
  else None.

(** The prerequisites in lower case; a missing or empty one counts as
    the empty string. *)
Definition prerequisitesArr (item : FeatPF2e) : list string :=
  (fun prerequisite =>
     match prerequisite with
     | Some value => if truthyStr value then toLowerCase value else ""
     | None => ""
     end) <$> feat_prerequisites item.

(** The skills found in the prerequisites: a skill is found when a
    prerequisite contains its key or its localized name. *)
Definition featSkills (item : FeatPF2e) : list string :=
  foldl (fun skills prereq =>
           foldl (fun skills entry =>
                    if includes prereq entry.1 || includes prereq entry.2
                    then setAdd skills entry.1 else skills)
                 skills translatedSkills)
        [] (prerequisitesArr item).

(** The skill check: [R.difference] keeps the selected skills that were
    not found. *)
Definition checkSkills (item : FeatPF2e) (filter : FeatFilters) : option FeatWarning :=
  let filterSkills := fflt_skills filter in
  if negb (bool_decide (filterSkills = [])) then
    let itemSkills := featSkills item in
    let missingSkills := list_difference filterSkills itemSkills in
    if negb (bool_decide (missingSkills = []))
    then Some (FeatSkills ((fun x => assocGet x translatedSkills) <$> missingSkills))
    else None
  else None.

(** [#validateFeat]: the first check that fails gives the warning and
    the result [false]. *)
Definition validateFeat (item : FeatPF2e) (filter : FeatFilters)
  : option FeatWarning * bool :=
  match checkLevel item filter with
  | Some warning => (Some warning, false)
  | None =>
      match checkFeatCategory item filter with
      | Some warning => (Some warning, false)
      | None =>
          match checkSkills item filter with
          | Some warning => (Some warning, false)
          | None =>
              match validateDefaultOf (feat_traits item) (feat_rarity item)
                      (feat_publication item) (fflt_traits filter)
                      (fflt_traitsConjunction filter) (fflt_rarity filter)
                      (fflt_source filter) with
              | Some warning => (Some (FeatData warning), false)
              | None => (None, true)
              end
          end
      end
  end.

End validateFeat_def.

(** ** Drops: [DailyInterface._onDrop] *)

(** What [fromUuid] resolves the dragged uuid to: a feat, a spell, or an
    item of another type. *)
Inductive DroppedItem :=
| DroppedFeat (name uuid : string) (feat : FeatPF2e)
| DroppedSpell (name uuid : string) (spell : SpellPF2e)
| DroppedOther (type name uuid : string).

Definition dropped_type (item : DroppedItem) : string :=
  match item with
  | DroppedFeat _ _ _ => "feat"
  | DroppedSpell _ _ _ => "spell"
  | DroppedOther type _ _ => type
  end.

Definition dropped_name (item : DroppedItem) : string :=
  match item with
  | DroppedFeat name _ _ | DroppedSpell name _ _ | DroppedOther _ name _ => name
  end.

Definition dropped_uuid (item : DroppedItem) : string :=
  match item with
  | DroppedFeat _ uuid _ | DroppedSpell _ uuid _ | DroppedOther _ _ uuid => uuid
  end.

(** What [#compendiumFilterFromElement] returns for the target: the
    daily and the row, and the browser filter of the row's drop type. *)
Inductive CompendiumFilter :=
| CompendiumFeat (daily row : string) (filter : FeatFilters)
| CompendiumSpell (daily row : string) (filter : SpellFilters).

Definition compendium_type (compendium : CompendiumFilter) : string :=
  match compendium with
  | CompendiumFeat _ _ _ => "feat"
  | CompendiumSpell _ _ _ => "spell"
  end.

(** The answer of the row's [onDrop] hook: [false], a string, or
    anything else; a row without the hook counts with the last. The row
    is the one the filter was made for, so it is there to be asked. *)
Inductive DropHook :=
| HookPass
| HookFalse
| HookText (message : string).

(** The warning a drop ends with. *)
Inductive DropNotice :=
| NoticeKey (key : string) (item : option string)
    (* subLocalize("interface.drop.error").warn(key, { item }) *)
| NoticeText (message : string)           (* ui.notifications.warn(result) *)
| NoticeData (warning : DropWarning)      (* #dropDataWarning, wrongTraits *)
| NoticeFeat (warning : FeatWarning).

(** A drop on the form: the input it lands on, the drag data, and what
    the lookups made with them return. *)
Record DropEvent := {
  drop_target : option RowElement;
  drop_dataType : option string;          (* data?.type *)
  drop_dataUuid : option string;          (* data.uuid, when it is a string *)
  drop_item : option DroppedItem;         (* fromUuid(data.uuid) *)
  drop_compendium : option CompendiumFilter;
  drop_hook : DropHook;
}.

(** [target.value = item.name; target.dataset.uuid = item.uuid] *)
Definition setDropped (target : RowElement) (item : DroppedItem) : RowElement :=
  {| el_type := el_type target; el_daily := el_daily target; el_row := el_row target;
     el_save := el_save target; el_empty := el_empty target; el_input := el_input target;
     el_uuid := dropped_uuid item; el_value := dropped_name item;
     el_comboSelect := el_comboSelect target |}.

Section onDrop_def.
Context `{Host}.
Variable toLowerCase : string -> string.
Variable translatedSkills : list (string * string).

(** What follows the type check for an item of the filter's type: the
    hook, then validation. *)
Definition dropChecked (target : RowElement) (item : DroppedItem) (hook : DropHook)
    (validation : option DropNotice * bool) : option RowElement * option DropNotice :=
  match hook with
  | HookFalse => (Some target, Some (NoticeKey "exclude" (Some (dropped_name item))))
  | HookText message => (Some target, Some (NoticeText message))
  | HookPass =>
      if validation.2 then (Some (setDropped target item), None)
      else (Some target, validation.1)
  end.

(** [_onDrop]: the target afterwards, when there is one, and the warning
    shown. The marks a feat the character has already gets on the
    input are not part of it. *)
Definition onDrop (event : DropEvent) : option RowElement * option DropNotice :=
  match drop_target event with
  | None => (None, None)
  | Some target =>
      if negb (bool_decide (drop_dataType event = Some "Item"))
         || negb (bool_decide (is_Some (drop_dataUuid event)))
      then (Some target, Some (NoticeKey "wrongDataType" None))
      else
        match drop_item event, drop_compendium event with
        | Some item, Some compendium =>
            match item, compendium with
            | DroppedFeat _ _ feat, CompendiumFeat _ _ filter =>
                let validation := validateFeat toLowerCase translatedSkills feat filter in
                dropChecked target item (drop_hook event)
                  (NoticeFeat <$> validation.1, validation.2)
            | DroppedSpell _ _ spell, CompendiumSpell _ _ filter =>
                let validation := validateSpell spell filter in
                dropChecked target item (drop_hook event)
                  (NoticeData <$> validation.1, validation.2)
            | _, _ =>
                (* item.type !== compendium.type *)
                (Some target,
                 Some (NoticeData
                         (DropDataWarning "type"
                            [i18n_localize ("TYPES.Item." +:+ compendium_type compendium)]
                            [i18n_localize ("TYPES.Item." +:+ dropped_type item)])))
            end
        | _, _ => (Some target, Some (NoticeKey "wrongDataType" None))
        end
  end.

End onDrop_def.

(** ** Field handlers *)

(** [#onClearField]: the input loses its value and its uuid. *)
Definition onClearField (inputEl : RowElement) : RowElement :=
  {| el_type := el_type inputEl; el_daily := el_daily inputEl; el_row := el_row inputEl;
     el_save := el_save inputEl; el_empty := el_empty inputEl;
     el_input := el_input inputEl; el_uuid := ""; el_value := "";
     el_comboSelect := el_comboSelect inputEl |}.

(** An [<option>] of the select of a combo row. *)
Record ComboOption := {
  copt_value : string;
  copt_text : string;
}.

(** The input of a combo row with a new value, a new [data-input] and a
    new value of the select that shares its [.combo] container. *)
Definition setCombo (inputEl : RowElement) (value : string) (input : bool)
    (selectValue : string) : RowElement :=
  {| el_type := el_type inputEl; el_daily := el_daily inputEl; el_row := el_row inputEl;
     el_save := el_save inputEl; el_empty := el_empty inputEl; el_input := input;
     el_uuid := el_uuid inputEl; el_value := value; el_comboSelect := selectValue |}.

Section combo_def.
Variable toLowerCase : string -> string.


End combo_def.

(** [#onComboSelectChange], once the select shows the option at
    [selectedIndex]: the input takes the text of the option. Without a
    selected option the read of its text throws; [data-input] has been
    set off by then, which the result of a throw does not show. *)
Definition onComboSelectChange (options : list ComboOption) (selectedIndex : Z)
    (inputEl : RowElement) : Exc RowElement :=
  match (if selectedIndex <? 0 then None else options !! Z.to_nat selectedIndex) with
  | Some option => Ok (setCombo inputEl (copt_text option) false (copt_value option))
  | None => Throw TypeError
  end.

(** The tick of a random row, once a second:
    [selectedIndex = (selectedIndex + 1) % options.length]. Without
    options the remainder is not a number and nothing gets selected. *)
Definition randomTick (randomElement : SelectEl) : SelectEl :=
  let length := Z.of_nat (length (sel_options randomElement)) in
  {| sel_options := sel_options randomElement;
     sel_selectedIndex :=
       if length =? 0 then -1
       else Z.rem (sel_selectedIndex randomElement + 1) length |}.

(** ** Filter adapter: [#convertToCompendiumFilter] *)

(** The browser's filter data, as far as the adapter writes it. *)
Record CheckboxData := {
  cb_isExpanded : bool;
  cb_selected : list string;
  cb_options : list (string * bool);          (* options[name].selected *)
}.

Record MultiselectData := {
  ms_conjunction : string;
  ms_selected : list (string * option bool);  (* { value, not } *)
}.

Record SliderData := {
  sl_isExpanded : bool;
  sl_min : Z;                                 (* values.min *)
  sl_max : Z;                                 (* values.max *)
}.

Record BrowserFilter := {
  bf_checkboxes : list (string * CheckboxData);
  bf_multiselects : list (string * MultiselectData);
  bf_sliders : option (list (string * SliderData));
}.

(** A tab of the compendium browser. *)
Record CompendiumTab := {
  tab_isInitialized : bool;
  tab_defaultFilterData : BrowserFilter;
  tab_filterData : BrowserFilter;
  tab_getFilterData : BrowserFilter;          (* await getFilterData() *)
}.

(** The drop filter of a row, as the adapter reads it. The types below
    follow the reads the adapter makes of [dropFilter.search].

    A value the module resolves against the character: a number or an
    expression. *)
Inductive SimplifiableValue :=
| SimpleNumber (n : Z)
| SimpleText (expr : string).

(** [search.rank] of a spell filter. *)
Inductive RankSearch :=
| RankList (ranks : list Z)
| RankText (expr : string)
| RankNumber (n : Z)
| RankUnset.

(** [search.level] of a feat filter. *)
Inductive LevelSearch :=
| LevelSimple (value : SimplifiableValue)
| LevelRange (min max : Z)
| LevelUnset.

(** An entry of a multiselect search: a value, or a value with its
    [not]. *)
Inductive MultiSelection :=
| SelectValue (value : string)
| SelectEntry (value : string) (not : option bool).

(** A multiselect search: an array of entries, or an object with the
    entries and a conjunction. *)
Record MultiselectSearch := {
  mss_conjunction : option string;
  mss_selected : list MultiSelection;
}.

(** The [search] of a drop filter, read by the role of its entries: the
    rank of a spell filter, the level of a feat filter, the entries that
    are lists of strings, and the multiselects. *)
Record DropSearch := {
  search_rank : RankSearch;
  search_level : LevelSearch;
  search_checkboxes : list (string * list string);
  search_multiselects : list (string * MultiselectSearch);
}.

Record DropFilter := {
  df_type : DailyRowDropType;
  df_search : DropSearch;
}.

(** [R.range(1, n + 1)] *)
Definition rangeFromOne (n : Z) : list Z :=
  (fun i => Z.of_nat (S i)) <$> seq 0 (Z.to_nat n).

Section convert_def.

(** Modelled from the spec: [simplifyValue] and [stringNumber] of the
    module's [utils], which are not part of the interface source. The
    first resolves a value that may be an expression against the
    character, to a number or to nothing; the second writes a number as
    a string. *)
Variable simplifyValue : CharacterPF2e -> SimplifiableValue -> option Z.
Variable stringNumber : Z -> string.

(** The filter data the adapter starts from. *)
Definition tabFilter (tab : CompendiumTab) (init : bool) : BrowserFilter :=
  if init then tab_getFilterData tab
  else if tab_isInitialized tab then tab_defaultFilterData tab
  else tab_filterData tab.

(** [search.rank] after the first step: a list of ranks as strings, or
    nothing. *)
Definition convertRank (actor : CharacterPF2e) (rank : RankSearch) : option (list string) :=
  let rank : option (list string) + option Z :=
    match rank with
    | RankList ranks => inl (Some (stringNumber <$> ranks))
    | RankText expr => inr (simplifyValue actor (SimpleText expr))
    | RankNumber n => inr (Some n)
    | RankUnset => inr None
    end in
  match rank with
  | inl ranks => ranks
  | inr (Some n) => Some (stringNumber <$> rangeFromOne n)
  | inr None => None
  end.

(** [search.level] after the second step: a range, or nothing. *)
Definition convertLevel (actor : CharacterPF2e) (level : LevelSearch) : option (Z * Z) :=
  match level with
  | LevelSimple value => Some (0, default 20 (simplifyValue actor value))
  | LevelRange min max => Some (min, max)
  | LevelUnset => None
  end.

(** [dropFilter.search[checkboxName]] *)
Definition searchCheckbox (actor : CharacterPF2e) (dropFilter : DropFilter)
    (checkboxName : string) : option (list string) :=
  if String.eqb checkboxName "rank" then
    match df_type dropFilter with
    | DropSpell => convertRank actor (search_rank (df_search dropFilter))
    | DropFeat => None
    end
  else assocGet checkboxName (search_checkboxes (df_search dropFilter)).

(** [dropFilter.search[sliderName]] *)
Definition searchSlider (actor : CharacterPF2e) (dropFilter : DropFilter)
    (sliderName : string) : option (Z * Z) :=
  if String.eqb sliderName "level" then
    match df_type dropFilter with
    | DropFeat => convertLevel actor (search_level (df_search dropFilter))
    | DropSpell => None
    end
  else None.

(** The body of the loop over the checkboxes. *)
Definition convertCheckbox (actor : CharacterPF2e) (dropFilter : DropFilter)
    (checkboxEntry : string * CheckboxData) : string * CheckboxData :=
  let '(checkboxName, filterCheckbox) := checkboxEntry in
  match searchCheckbox actor dropFilter checkboxName with
  | None => (checkboxName, filterCheckbox)
  | Some searchCheckbox =>
      (checkboxName,
       {| cb_isExpanded := true;
          cb_selected := searchCheckbox;
          cb_options :=
            (fun option => (option.1, option.2 || bool_decide (option.1 ∈ searchCheckbox)))
              <$> cb_options filterCheckbox |})
  end.

(** The body of the loop over the multiselects. *)
Definition convertMultiselect (dropFilter : DropFilter)
    (multiselectEntry : string * MultiselectData) : string * MultiselectData :=
  let '(multiselectName, filterMultiselect) := multiselectEntry in
  match assocGet multiselectName (search_multiselects (df_search dropFilter)) with
  | None => (multiselectName, filterMultiselect)
  | Some multiselect =>
      (multiselectName,
       {| ms_conjunction := default "and" (mss_conjunction multiselect);
          ms_selected :=
            ms_selected filterMultiselect
              ++ ((fun select =>
                     match select with
                     | SelectValue value => (value, None)
                     | SelectEntry value not => (value, not)
                     end) <$> mss_selected multiselect) |})
  end.

(** The body of the loop over the sliders. *)
Definition convertSlider (actor : CharacterPF2e) (dropFilter : DropFilter)
    (sliderEntry : string * SliderData) : string * SliderData :=
  let '(sliderName, filterSlider) := sliderEntry in
  match searchSlider actor dropFilter sliderName with
  | None => (sliderName, filterSlider)
  | Some (min, max) =>
      (sliderName, {| sl_isExpanded := true; sl_min := min; sl_max := max |})
  end.

(** [#convertToCompendiumFilter] *)
Definition convertToCompendiumFilter (actor : CharacterPF2e) (tab : CompendiumTab)
    (dropFilter : DropFilter) (init : bool) : BrowserFilter :=
  let compendiumFilter := tabFilter tab init in
  {| bf_checkboxes := convertCheckbox actor dropFilter <$> bf_checkboxes compendiumFilter;
     bf_multiselects := convertMultiselect dropFilter <$> bf_multiselects compendiumFilter;
     bf_sliders :=
       match bf_sliders compendiumFilter with
       | Some sliders => Some (convertSlider actor dropFilter <$> sliders)
       | None => None
       end |}.

End convert_def.

(** [checkboxes.<name>.selected] of a browser filter, where validation
    reads it. *)
Definition selectedOf (filter : BrowserFilter) (name : string) : option (list string) :=
  cb_selected <$> assocGet name (bf_checkboxes filter).

(** [sliders.level.values] of a browser filter. *)
Definition levelOf (filter : BrowserFilter) : option (Z * Z) :=
  match bf_sliders filter with
  | Some sliders =>
      match assocGet "level" sliders with
      | Some slider => Some (sl_min slider, sl_max slider)
      | None => None
      end
  | None => None
  end.

(** ** The filter of a drop row: [#compendiumFilterFromElement] *)

(** An entry of [#dropFilters]. *)
Record CompendiumEntry := {
  centry_daily : string;
  centry_row : string;
  centry_type : DailyRowDropType;
  centry_filter : BrowserFilter;
}.

(** The key of a row in [#dropFilters]. *)
Definition filterKey (daily row : string) : string := daily +:+ "." +:+ row.

Section compendium_def.
Variable simplifyValue : CharacterPF2e -> SimplifiableValue -> option Z.
Variable stringNumber : Z -> string.

(** [#compendiumFilterFromElement(el, init)]: [#dropFilters] afterwards,
    the entry returned, and what is logged. [rowFilter] is the filter of
    the element's row in the catalog, [None] when the row or its filter
    is missing; it is read only when [#dropFilters] has no entry for the
    row yet, and the read then throws inside the [try]. The daily of
    the element is taken to have been prepared by [getData], as the
    daily of every element of the form has been, so that looking the row
    up does not throw by itself. *)
Definition compendiumFilterFromElement (actor : CharacterPF2e)
    (tabs : DailyRowDropType -> CompendiumTab)
    (dropFilters : gmap string CompendiumEntry) (rowFilter : option DropFilter)
    (el : RowElement) (init : bool)
  : gmap string CompendiumEntry * option CompendiumEntry * list Effect :=
  let filterKey := filterKey (el_daily el) (el_row el) in
  match dropFilters !! filterKey with
  | Some entry => (dropFilters, Some entry, [])
  | None =>
      match rowFilter with
      | Some filter =>
          let entry :=
            {| centry_daily := el_daily el;
               centry_row := el_row el;
               centry_type := df_type filter;
               centry_filter :=
                 convertToCompendiumFilter simplifyValue stringNumber actor
                   (tabs (df_type filter)) filter init |} in
          (<[filterKey := entry]> dropFilters, Some entry, [])
      | None =>
          (dropFilters, None,
           [ EError "error.unexpected"; EConsoleError "TypeError";
             EConsoleError "The error occured when trying to open a drop filter." ])
      end
  end.

End compendium_def.

(** ** Further sample data *)

(** A select row with two groups. *)
Definition groupedOptions : list DailyRowSelectOption :=
  [ OptionGroup "Trained"; OptionValue "acr" "Acrobatics" None None;
    OptionValue "ath" "Athletics" None None;
    OptionGroup "Expert"; OptionValue "ste" "Stealth" None None ].

(** A daily with three rows, one of them an alert, and a daily with one
    input row. *)
Definition alertDaily : PreparedDaily :=
  {| daily_key := "watch"; daily_label := "Watch";
     daily_rows :=
       [ {| row_slug := "warn"; row_type := TAlert; row_label := None;
            row_condition := None; row_save := None; row_order := None;
            row_empty := None; row_options := []; row_unique := None;
            row_filterType := DropFeat; row_note := None;
            row_message := "Check this" |};
         emptyRow "a" TInput; emptyRow "b" TNotify ];
     daily_process := fun _ => {| run_ops := []; run_completion := Returns |} |}.

Definition memoDaily : PreparedDaily :=
  {| daily_key := "memo"; daily_label := "Memo";
     daily_rows := [emptyRow "text" TInput];
     daily_process := fun _ => {| run_ops := []; run_completion := Returns |} |}.

(** The no-break space, U+00A0, in UTF-8. *)
Definition nbsp : string := String "194" (String "160" EmptyString).

(** A form with a required row that holds a space, a no-break space and
    a tab. *)
Definition paddedForm : list RowElement :=
  [ selectElement "library" "pick" "fireball";
    {| el_type := TInput; el_daily := "tongues"; el_row := "language"; el_save := true;
       el_empty := false; el_input := false; el_uuid := "";
       el_value := " " +:+ nbsp +:+ String "009" EmptyString;
       el_comboSelect := "" |} ].

(** A form with a row of a daily whose key every plain object inherits,
    and a form with a row whose slug is [__proto__]. *)
Definition inheritedForm : list RowElement :=
  [selectElement "library" "pick" "fireball"; selectElement "constructor" "pick" "x"].

Definition protoForm : list RowElement :=
  [selectElement "library" "pick" "fireball"; selectElement "library" "__proto__" "x"].

(** The row of the library daily that the forms of the samples fill. *)
Definition pickRow : DailyRow :=
  {| row_slug := "pick"; row_type := TSelect; row_label := None; row_condition := None;
     row_save := None; row_order := None; row_empty := None;
     row_options := [ OptionValue "fireball" "Fireball" None None;
                      OptionValue "guidance" "Guidance" None None ];
     row_unique := None; row_filterType := DropFeat; row_note := None;
     row_message := "" |}.

(** A form that holds an alert and a notify row and nothing else. *)
Definition noticeForm : list RowElement :=
  [ {| el_type := TAlert; el_daily := "library"; el_row := "warning"; el_save := false;
       el_empty := false; el_input := false; el_uuid := ""; el_value := "Check this";
       el_comboSelect := "" |};
    {| el_type := TNotify; el_daily := "library"; el_row := "note"; el_save := true;
       el_empty := true; el_input := false; el_uuid := ""; el_value := "Noted";
       el_comboSelect := "" |} ].

(** An item with a rule of its own and a rule left by the module. *)
Definition ruledItem : Item :=
  {| item_id := "armor-1";
     item_source :=
       JObj [ ("type", JStr "armor");
              ("system",
                JObj [ ("rules",
                         JArr [ JObj [("key", JStr "Resistance")];
                                JObj [ ("key", JStr "FlatModifier");
                                       (MODULE_id, JBool true) ] ]) ]) ] |}.

(** The rule a daily adds to it. *)
Definition addedRule : JValue := JObj [("key", JStr "Strike")].

(** A feat of the character and the source of a feat it grants. *)
Definition parentFeat : Item :=
  {| item_id := "feat-1";
     item_source := JObj [("type", JStr "feat"); ("name", JStr "Combat Flexibility")] |}.

Definition grantedFeat : JValue :=
  JObj [("type", JStr "feat"); ("name", JStr "Power Attack")].

(** The skills of the samples, and lower case for their letters. *)
Definition sampleSkills : list (string * string) :=
  [("acrobatics", "acrobatics"); ("stealth", "discretion")].

Definition lowerAscii (c : ascii) : ascii :=
  let n := nat_of_ascii c in
  if (65 <=? n)%nat && (n <=? 90)%nat then ascii_of_nat (n + 32) else c.

Fixpoint lowerCase (s : string) : string :=
  match s with
  | EmptyString => EmptyString
  | String c s' => String (lowerAscii c) (lowerCase s')
  end.

(** A feat of level 3 that asks for Stealth, and a filter for the feats
    of levels 1 to 4 that ask for it. *)
Definition quietFeat : FeatPF2e :=
  {| feat_level := 3; feat_category := "skill";
     feat_prerequisites := [Some "trained in Stealth"];
     feat_traits := ["general"; "skill"]; feat_rarity := "common";
     feat_publication := "Player Core" |}.

Definition quietFilter : FeatFilters :=
  {| fflt_levelMin := 1; fflt_levelMax := 4; fflt_category := ["skill"];
     fflt_skills := ["stealth"]; fflt_rarity := []; fflt_source := [];
     fflt_traits := []; fflt_traitsConjunction := "and" |}.

(** The input of a drop row, and a drop of the feat on it. *)
Definition dropElement : RowElement :=
  {| el_type := TDrop; el_daily := "flexibility"; el_row := "feat"; el_save := true;
     el_empty := false; el_input := false; el_uuid := ""; el_value := "";
     el_comboSelect := "" |}.

Definition quietDrop : DropEvent :=
  {| drop_target := Some dropElement;
     drop_dataType := Some "Item";
     drop_dataUuid := Some "Compendium.feats.quiet";
     drop_item := Some (DroppedFeat "Quiet Allies" "Compendium.feats.quiet" quietFeat);
     drop_compendium := Some (CompendiumFeat "flexibility" "feat" quietFilter);
     drop_hook := HookPass |}.

(** The input of a combo row and the options of its select. *)
Definition comboElement (value : string) : RowElement :=
  {| el_type := TCombo; el_daily := "tongues"; el_row := "language"; el_save := true;
     el_empty := false; el_input := true; el_uuid := ""; el_value := value;
     el_comboSelect := "" |}.

Definition comboOptions : list ComboOption :=
  [ {| copt_value := "elven"; copt_text := "Elven" |};
    {| copt_value := "dwarven"; copt_text := "Dwarven" |} ].

(** A spell tab with a rank checkbox, and a feat tab with a level
    slider. *)
Definition spellTab : CompendiumTab :=
  let filter :=
    {| bf_checkboxes :=
         [ ("rank", {| cb_isExpanded := false; cb_selected := [];
                       cb_options := [("1", false); ("2", false); ("3", false)] |});
           ("rarity", {| cb_isExpanded := false; cb_selected := [];
                         cb_options := [("common", false); ("rare", true)] |}) ];
       bf_multiselects := [("traits", {| ms_conjunction := "or"; ms_selected := [] |})];
       bf_sliders := None |} in
  {| tab_isInitialized := true; tab_defaultFilterData := filter;
     tab_filterData := filter; tab_getFilterData := filter |}.

Definition featTab : CompendiumTab :=
  let filter :=
    {| bf_checkboxes := [];
       bf_multiselects := [];
       bf_sliders := Some [("level", {| sl_isExpanded := false; sl_min := 0;
                                        sl_max := 20 |})] |} in
  {| tab_isInitialized := true; tab_defaultFilterData := filter;
     tab_filterData := filter; tab_getFilterData := filter |}.

(** The character's level, for the expressions of the samples. *)
Definition sampleSimplify (actor : CharacterPF2e) (value : SimplifiableValue) : option Z :=
  match value with
  | SimpleNumber n => Some n
  | SimpleText "level" => Some 5
  | SimpleText "half" => Some 2
  | SimpleText _ => None
  end.

(** * Properties *)

(** ** The uniqueness resolver *)

Section resolver_facts.
Implicit Types (C : gset string) (opts : list OptionEl) (el : SelectEl).

Lemma optionUniqueValue_lt opts i :
  (i < length opts)%nat -> exists v, optionUniqueValue opts i = Ok v.
Proof.
  intros Hi. unfold optionUniqueValue.
  destruct (lookup_lt_is_Some_2 opts i Hi) as [o ->]. eauto.
Qed.

Lemma optionExists_lt C opts i :
  (i < length opts)%nat -> exists b, optionExists C opts i = Ok b.
Proof.
  intros Hi. unfold optionExists.
  destruct (optionUniqueValue_lt opts i Hi) as [v ->]. simpl. eauto.
Qed.

Lemma probeDown_free C opts i :
  optionExists C opts i = Ok false -> probeDown C opts i = Ok i.
Proof. intros H. destruct i; simpl; rewrite H; reflexivity. Qed.

Lemma probeUp_free C opts gap i :
  optionExists C opts i = Ok false -> probeUp C opts gap i = Ok i.
Proof. intros H. destruct gap; simpl; rewrite H; reflexivity. Qed.

Lemma probeDown_spec C opts i :
  (i < length opts)%nat ->
  exists i1, probeDown C opts i = Ok i1 /\ (i1 <= i)%nat /\
             (optionExists C opts i1 = Ok false \/ i1 = 0%nat).
Proof.
  induction i as [|i IH]; intros Hi.
  - destruct (optionExists_lt C opts 0 Hi) as [b Hb].
    exists 0%nat. simpl. rewrite Hb. simpl. auto with lia.
  - destruct (optionExists_lt C opts (S i) Hi) as [b Hb].
    simpl. rewrite Hb. simpl. destruct b.
    + destruct IH as (i1 & H1 & H2 & H3); [lia|].
      exists i1. auto with lia.
    + exists (S i). auto.
Qed.

Lemma probeUp_spec C opts gap i :
  (i + gap < length opts)%nat ->
  exists i2, probeUp C opts gap i = Ok i2 /\ (i <= i2 <= i + gap)%nat /\
             (optionExists C opts i2 = Ok false \/
              forall j, (i <= j <= i + gap)%nat -> optionExists C opts j = Ok true).
Proof.
  revert i. induction gap as [|gap IH]; intros i Hi.
  - destruct (optionExists_lt C opts i) as [b Hb]; [lia|].
    exists i. simpl. rewrite Hb. simpl. split; [done|]. split; [lia|].
    destruct b; [right|left; done].
    intros j Hj. replace j with i by lia. done.
  - destruct (optionExists_lt C opts i) as [b Hb]; [lia|].
    simpl. rewrite Hb. simpl. destruct b.
    + destruct (IH (S i)) as (i2 & H1 & H2 & H3); [lia|].
      exists i2. split; [done|]. split; [lia|].
      destruct H3 as [H3|H3]; [left; done|right].
      intros j Hj. destruct (decide (j = i)) as [->|]; [done|].
      apply H3. lia.
    + exists i. auto with lia.
Qed.

(** The two probes together visit every index: if the element has an
    option that does not conflict, they stop on one. *)
Lemma probes_find C opts i :
  (i < length opts)%nat ->
  (exists j, optionExists C opts j = Ok false) ->
  exists i1 i2,
    probeDown C opts i = Ok i1 /\
    probeUp C opts (length opts - 1 - i1) i1 = Ok i2 /\
    (i2 < length opts)%nat /\
    optionExists C opts i2 = Ok false.
Proof.
  intros Hi [j Hj].
  assert (Hjlt : (j < length opts)%nat).
  { destruct (decide (j < length opts)%nat) as [|Hge]; [done|].
    unfold optionExists, optionUniqueValue in Hj.
    rewrite lookup_ge_None_2 in Hj by lia. discriminate. }
  destruct (probeDown_spec C opts i Hi) as (i1 & H1 & H2 & H3).
  exists i1. destruct H3 as [H3| ->].
  - exists i1. rewrite probeUp_free by done. auto with lia.
  - destruct (probeUp_spec C opts (length opts - 1 - 0) 0) as (i2 & Hu & Hr & Hf);
      [lia|].
    exists i2. split; [done|]. split; [done|]. split; [lia|].
    destruct Hf as [Hf|Hf]; [done|].
    rewrite Hf in Hj by lia. discriminate.
Qed.

Lemma probes_total C opts i :
  (i < length opts)%nat ->
  exists i1 i2,
    probeDown C opts i = Ok i1 /\
    probeUp C opts (length opts - 1 - i1) i1 = Ok i2 /\
    (i2 < length opts)%nat.
Proof.
  intros Hi.
  destruct (probeDown_spec C opts i Hi) as (i1 & H1 & H2 & _).
  destruct (probeUp_spec C opts (length opts - 1 - i1) i1) as (i2 & Hu & Hr & _);
    [lia|].
  exists i1, i2. auto with lia.
Qed.

(** On a well-formed element the loop body never throws. *)
Lemma resolveSelect_total C el :
  selectWF el -> exists r, resolveSelect C el = Ok r.
Proof.
  intros [Hlo Hhi]. unfold resolveSelect.
  destruct (Z.ltb_spec (sel_selectedIndex el) 0) as [|_]; [lia|].
  destruct (probes_total C (sel_options el) (Z.to_nat (sel_selectedIndex el)))
    as (i1 & i2 & -> & Hu & Hlt); [lia|].
  simpl. rewrite Hu. simpl.
  destruct (optionExists_lt C (sel_options el) i2 Hlt) as [b ->].
  destruct (optionUniqueValue_lt (sel_options el) i2 Hlt) as [v Hv].
  simpl. destruct b; [eauto|]. rewrite Hv. simpl. eauto.
Qed.

Lemma resolveSelects_total C (g : list SelectEl) :
  Forall selectWF g -> exists r, resolveSelects C g = Ok r.
Proof.
  revert C. induction g as [|el g IH]; intros C Hwf; simpl; [eauto|].
  inversion Hwf as [|? ? Hel Hg]; subst.
  destruct (resolveSelect_total C el Hel) as [[C1 el1] ->]. simpl.
  destruct (IH C1 Hg) as [[C2 g2] ->]. simpl. eauto.
Qed.

Lemma resolveSelect_at_free C el i v :
  sel_selectedIndex el = Z.of_nat i ->
  optionExists C (sel_options el) i = Ok false ->
  optionUniqueValue (sel_options el) i = Ok v ->
  resolveSelect C el = Ok (claimAdd v C, el).
Proof.
  intros Hsel Hfree Hv. unfold resolveSelect. rewrite Hsel.
  destruct (Z.ltb_spec (Z.of_nat i) 0) as [|_]; [lia|].
  rewrite Nat2Z.id, (probeDown_free _ _ _ Hfree). simpl.
  rewrite (probeUp_free _ _ _ _ Hfree). simpl.
  rewrite Hfree. simpl. rewrite Hv. simpl.
  rewrite decide_True by done. reflexivity.
Qed.

(** What a successful run of the loop body looks like: either the
    element is left as it was, every probe having failed, or it sits on
    an option that did not conflict and whose value is now claimed. *)
Lemma resolveSelect_inv C el C1 el1 :
  resolveSelect C el = Ok (C1, el1) ->
  (C1 = C /\ el1 = el) \/
  (exists i v,
      optionExists C (sel_options el) i = Ok false /\
      optionUniqueValue (sel_options el) i = Ok v /\
      C1 = claimAdd v C /\
      sel_options el1 = sel_options el /\
      sel_selectedIndex el1 = Z.of_nat i).
Proof.
  unfold resolveSelect.
  destruct (sel_selectedIndex el <? 0); [discriminate|].
  destruct (probeDown _ _ _) as [i1|]; [simpl|discriminate].
  destruct (probeUp _ _ _ _) as [i2|]; [simpl|discriminate].
  destruct (optionExists C (sel_options el) i2) as [b|] eqn:Hb; [simpl|discriminate].
  destruct b.
  - intros [= <- <-]. left. done.
  - destruct (optionUniqueValue (sel_options el) i2) as [v|] eqn:Hv;
      [simpl|discriminate].
    intros [= <- <-]. right. exists i2, v.
    repeat split; try done; case_decide; simpl; done.
Qed.

Lemma resolveSelect_stable C el C1 el1 :
  resolveSelect C el = Ok (C1, el1) -> resolveSelect C el1 = Ok (C1, el1).
Proof.
  intros H. destruct (resolveSelect_inv _ _ _ _ H)
    as [(-> & ->)|(i & v & Hf & Hv & -> & Ho & Hs)]; [done|].
  apply (resolveSelect_at_free C el1 i v); rewrite ?Ho; done.
Qed.

Lemma resolveSelects_stable (g : list SelectEl) C C1 g1 :
  resolveSelects C g = Ok (C1, g1) -> resolveSelects C g1 = Ok (C1, g1).
Proof.
  revert C C1 g1. induction g as [|el g IH]; intros C C1 g1; simpl.
  - intros [= <- <-]. reflexivity.
  - destruct (resolveSelect C el) as [[C' el']|] eqn:Hel; [simpl|discriminate].
    destruct (resolveSelects C' g) as [[C'' g']|] eqn:Hg; [simpl|discriminate].
    intros [= <- <-]. simpl.
    rewrite (resolveSelect_stable _ _ _ _ Hel). simpl.
    rewrite (IH _ _ _ Hg). reflexivity.
Qed.

(** The loop body reads an element only through its selected index and
    the unique-values of its options. *)
Lemma optionExists_ext C opts opts' :
  (forall i, optionUniqueValue opts i = optionUniqueValue opts' i) ->
  forall i, optionExists C opts i = optionExists C opts' i.
Proof. intros H i. unfold optionExists. rewrite H. reflexivity. Qed.

Lemma probeDown_ext C opts opts' :
  (forall i, optionUniqueValue opts i = optionUniqueValue opts' i) ->
  forall i, probeDown C opts i = probeDown C opts' i.
Proof.
  intros H i. induction i as [|i IH]; simpl;
    rewrite (optionExists_ext C opts opts' H); [done|].
  rewrite IH. reflexivity.
Qed.

Lemma probeUp_ext C opts opts' :
  (forall i, optionUniqueValue opts i = optionUniqueValue opts' i) ->
  forall gap i, probeUp C opts gap i = probeUp C opts' gap i.
Proof.
  intros H gap. induction gap as [|gap IH]; intros i; simpl;
    rewrite (optionExists_ext C opts opts' H); [done|].
  rewrite IH. reflexivity.
Qed.

Lemma resolveSelect_ext C el el' C1 :
  sel_selectedIndex el = sel_selectedIndex el' ->
  length (sel_options el) = length (sel_options el') ->
  (forall i, optionUniqueValue (sel_options el) i
             = optionUniqueValue (sel_options el') i) ->
  resolveSelect C el = Ok (C1, el) -> resolveSelect C el' = Ok (C1, el').
Proof.
  intros Hs Hl Hv. unfold resolveSelect.
  rewrite <- Hs, <- Hl.
  destruct (sel_selectedIndex el <? 0); [discriminate|].
  rewrite <- (probeDown_ext C _ _ Hv).
  destruct (probeDown _ _ _) as [i1|]; [simpl|discriminate].
  rewrite <- (probeUp_ext C _ _ Hv).
  destruct (probeUp _ _ _ _) as [i2|]; [simpl|discriminate].
  rewrite <- (optionExists_ext C _ _ Hv).
  destruct (optionExists C (sel_options el) i2) as [[]|]; simpl;
    [intros [= <-]; done| |discriminate].
  rewrite <- Hv.
  destruct (optionUniqueValue (sel_options el) i2) as [v|]; [simpl|discriminate].
  case_decide as Hd.
  - intros [= <-]. reflexivity.
  - intros [= _ Hel]. exfalso. apply Hd. rewrite <- Hel at 1. reflexivity.
Qed.

Lemma optionUniqueValue_refresh D el i :
  optionUniqueValue (sel_options (refreshDisabled D el)) i
  = optionUniqueValue (sel_options el) i.
Proof.
  unfold optionUniqueValue, refreshDisabled. simpl.
  rewrite list_lookup_imap.
  destruct (sel_options el !! i) as [o|]; simpl; [|done].
  destruct (decide (Z.of_nat i = sel_selectedIndex el)); reflexivity.
Qed.

Lemma claimOf_refresh D el : claimOf (refreshDisabled D el) = claimOf el.
Proof.
  unfold claimOf. rewrite optionUniqueValue_refresh. reflexivity.
Qed.

Lemma resolveSelects_refresh D (g : list SelectEl) C C1 :
  resolveSelects C g = Ok (C1, g) ->
  resolveSelects C (refreshDisabled D <$> g) = Ok (C1, refreshDisabled D <$> g).
Proof.
  revert C C1. induction g as [|el g IH]; intros C C1 H; [done|].
  cbn [resolveSelects] in H.
  destruct (resolveSelect C el) as [[C' el']|] eqn:Hel; [|discriminate].
  cbn [bindExc fst snd] in H.
  destruct (resolveSelects C' g) as [[C'' g']|] eqn:Hg; [|discriminate].
  cbn [bindExc fst snd] in H. injection H as <- -> ->.
  rewrite fmap_cons. cbn [resolveSelects].
  rewrite (resolveSelect_ext C el (refreshDisabled D el) C'); try done.
  - cbn [bindExc fst snd]. rewrite (IH _ _ Hg). reflexivity.
  - unfold refreshDisabled. simpl. rewrite length_imap. reflexivity.
  - intros i. symmetry. apply optionUniqueValue_refresh.
Qed.

Lemma refreshDisabled_idem D el :
  refreshDisabled D (refreshDisabled D el) = refreshDisabled D el.
Proof.
  unfold refreshDisabled. simpl. f_equal.
  apply list_eq. intros i. rewrite !list_lookup_imap.
  destruct (sel_options el !! i) as [o|]; simpl; [|done].
  case_decide; [done|]. reflexivity.
Qed.

(** An element whose own claim is still free stays where it is. *)
Lemma resolveSelect_unclaimed C el :
  selectWF el ->
  (forall v, claimOf el = Some v -> v ∉ C) ->
  exists C1, resolveSelect C el = Ok (C1, el) /\
             forall x, x ∈ C1 <-> x ∈ C \/ claimOf el = Some x.
Proof.
  intros [Hlo Hhi] Hfresh.
  destruct (optionUniqueValue_lt (sel_options el)
              (Z.to_nat (sel_selectedIndex el))) as [v Hv]; [lia|].
  exists (claimAdd v C). split.
  - apply (resolveSelect_at_free C el (Z.to_nat (sel_selectedIndex el)) v);
      [lia| |done].
    unfold optionExists. rewrite Hv. simpl. f_equal.
    destruct v as [v|]; [|done].
    destruct (truthyStr v) eqn:Ht; [simpl|done].
    apply bool_decide_eq_false. apply Hfresh.
    unfold claimOf. destruct (Z.ltb_spec (sel_selectedIndex el) 0); [lia|].
    rewrite Hv, Ht. reflexivity.
  - intros x. unfold claimOf, claimAdd.
    destruct (Z.ltb_spec (sel_selectedIndex el) 0); [lia|]. rewrite Hv.
    destruct v as [v|]; [|naive_solver].
    destruct (truthyStr v); [|naive_solver]. set_solver.
Qed.

Lemma resolveSelects_conflictFree_fixed (g : list SelectEl) C :
  Forall selectWF g ->
  (forall v, v ∈ omap claimOf g -> v ∉ C) ->
  conflictFree g ->
  exists C1, resolveSelects C g = Ok (C1, g).
Proof.
  unfold conflictFree. revert C.
  induction g as [|el g IH]; intros C Hwf Hfresh Hnd; simpl; [eauto|].
  inversion Hwf as [|? ? Hel Hg]; subst.
  destruct (resolveSelect_unclaimed C el Hel) as (C1 & -> & HC1).
  { intros v Hv. apply Hfresh. simpl. rewrite Hv. left. }
  simpl. destruct (IH C1 Hg) as [C2 ->]; [| |simpl; eauto].
  - intros v Hv [HC|Hc]%HC1.
    + revert HC. apply Hfresh. simpl. destruct (claimOf el); [right|]; done.
    + simpl in Hnd. rewrite Hc in Hnd. apply NoDup_cons in Hnd. tauto.
  - simpl in Hnd. destruct (claimOf el); [|done].
    apply NoDup_cons in Hnd. tauto.
Qed.

(** An element offering more unique-values than are claimed has an
    option that does not conflict. *)
Lemma offered_free C el :
  (size C < size (offeredValues el))%nat ->
  exists j, optionExists C (sel_options el) j = Ok false.
Proof.
  intros Hsz.
  assert (Hpos : (0 < size (offeredValues el ∖ C))%nat).
  { pose proof (size_union_alt C (offeredValues el)) as Hu.
    assert (Hs : (size (offeredValues el) <= size (C ∪ offeredValues el))%nat)
      by (apply subseteq_size; set_solver).
    lia. }
  apply size_pos_elem_of in Hpos as [v Hv].
  apply elem_of_difference in Hv as [Hv HvC].
  unfold offeredValues in Hv. apply elem_of_list_to_set in Hv.
  apply list_elem_of_omap in Hv as (o & Ho & Hov).
  apply list_elem_of_lookup in Ho as [j Hj].
  exists j. unfold optionExists, optionUniqueValue. rewrite Hj. simpl.
  case_decide; [done|].
  destruct (truthyStr (optionKey o)); [|done].
  injection Hov as <-. rewrite bool_decide_eq_false_2 by done. reflexivity.
Qed.

Lemma resolveSelect_finds C el :
  selectWF el ->
  (exists j, optionExists C (sel_options el) j = Ok false) ->
  exists i v el1,
    resolveSelect C el = Ok (claimAdd v C, el1) /\
    optionExists C (sel_options el) i = Ok false /\
    optionUniqueValue (sel_options el) i = Ok v /\
    sel_options el1 = sel_options el /\
    sel_selectedIndex el1 = Z.of_nat i.
Proof.
  intros [Hlo Hhi] Hfree.
  destruct (probes_find C (sel_options el) (Z.to_nat (sel_selectedIndex el)))
    as (i1 & i2 & H1 & H2 & Hlt & H3); [lia|done|].
  destruct (optionUniqueValue_lt (sel_options el) i2 Hlt) as [v Hv].
  exists i2, v. unfold resolveSelect.
  destruct (Z.ltb_spec (sel_selectedIndex el) 0); [lia|].
  rewrite H1. simpl. rewrite H2. simpl. rewrite H3. simpl. rewrite Hv. simpl.
  eexists. split; [reflexivity|]. repeat split; try done; case_decide; done.
Qed.

Lemma claimOf_at el i v :
  sel_selectedIndex el = Z.of_nat i ->
  optionUniqueValue (sel_options el) i = Ok v ->
  claimOf el = match v with
               | Some s => if truthyStr s then Some s else None
               | None => None
               end.
Proof.
  intros Hs Hv. unfold claimOf. rewrite Hs.
  destruct (Z.ltb_spec (Z.of_nat i) 0); [lia|].
  rewrite Nat2Z.id, Hv. reflexivity.
Qed.

Lemma resolveSelect_claims C el :
  selectWF el ->
  (size C < size (offeredValues el))%nat ->
  exists C1 el1,
    resolveSelect C el = Ok (C1, el1) /\
    C ⊆ C1 /\ (size C1 <= S (size C))%nat /\
    (forall v, claimOf el1 = Some v -> v ∈ C1 /\ v ∉ C).
Proof.
  intros Hwf Hsz.
  destruct (resolveSelect_finds C el Hwf (offered_free C el Hsz))
    as (i & v & el1 & Hr & Hf & Hv & Ho & Hs).
  exists (claimAdd v C), el1. split; [done|].
  rewrite <- Ho in Hv. rewrite (claimOf_at el1 i v Hs Hv).
  rewrite Ho in Hv. unfold optionExists in Hf. rewrite Hv in Hf. simpl in Hf.
  unfold claimAdd. destruct v as [s|]; [|split; [done|split; [lia|done]]].
  destruct (truthyStr s); [|split; [done|split; [lia|done]]].
  injection Hf as Hf. apply bool_decide_eq_false in Hf.
  split; [set_solver|]. split.
  - rewrite size_union by set_solver. rewrite size_singleton. lia.
  - intros ? [= <-]. split; [set_solver|done].
Qed.

Lemma resolveSelects_claims (g : list SelectEl) C :
  Forall selectWF g ->
  Forall (fun el => (size C + length g <= size (offeredValues el))%nat) g ->
  exists C1 g1,
    resolveSelects C g = Ok (C1, g1) /\
    C ⊆ C1 /\
    (forall v, v ∈ omap claimOf g1 -> v ∈ C1 /\ v ∉ C) /\
    conflictFree g1.
Proof.
  unfold conflictFree. revert C.
  induction g as [|el g IH]; intros C Hwf Hoff; simpl.
  - exists C, []. split; [done|]. split; [done|]. simpl.
    split; [intros v Hv; inversion Hv|constructor].
  - inversion Hwf as [|? ? Hel Hg]; subst.
    inversion Hoff as [|? ? Hoel Hog]; subst. simpl in Hoel.
    destruct (resolveSelect_claims C el Hel) as (C1 & el1 & -> & Hsub & Hsz & Hcl);
      [lia|].
    simpl. destruct (IH C1 Hg) as (C2 & g2 & -> & Hsub2 & Hcl2 & Hnd).
    { eapply Forall_impl; [exact Hog|]. simpl. intros; lia. }
    simpl. exists C2, (el1 :: g2). split; [done|]. split; [set_solver|].
    simpl. destruct (claimOf el1) as [v|] eqn:Hc.
    + destruct (Hcl v eq_refl) as [Hv1 Hv2]. split.
      * intros x [->|Hx]%elem_of_cons; [set_solver|].
        destruct (Hcl2 x Hx). set_solver.
      * apply NoDup_cons. split; [|done].
        intros Hin. destruct (Hcl2 v Hin). done.
    + split; [|done]. intros x Hx. destruct (Hcl2 x Hx). set_solver.
Qed.

Lemma conflictFree_refresh D (g : list SelectEl) :
  conflictFree g -> conflictFree (refreshDisabled D <$> g).
Proof.
  unfold conflictFree. intros H.
  assert (Heq : omap claimOf (refreshDisabled D <$> g) = omap claimOf g).
  { clear H. induction g as [|el g IH]; csimpl; [done|].
    rewrite claimOf_refresh, IH. reflexivity. }
  rewrite Heq. exact H.
Qed.

Lemma probeDown_ok_lt C opts i i1 :
  probeDown C opts i = Ok i1 -> (i < length opts)%nat.
Proof.
  intros H. destruct (decide (i < length opts)%nat) as [|Hge]; [done|].
  exfalso. destruct i; simpl in H;
    unfold optionExists, optionUniqueValue in H;
    rewrite lookup_ge_None_2 in H by lia; discriminate.
Qed.

Lemma resolveSelect_ok_wf C el r : resolveSelect C el = Ok r -> selectWF el.
Proof.
  unfold resolveSelect, selectWF.
  destruct (Z.ltb_spec (sel_selectedIndex el) 0); [discriminate|].
  destruct (probeDown _ _ _) as [i1|] eqn:Hd; [|discriminate].
  apply probeDown_ok_lt in Hd. lia.
Qed.

Lemma resolveSelect_reselected C el C1 el1 :
  resolveSelect C el = Ok (C1, el1) -> reselected el el1.
Proof.
  intros H. pose proof (resolveSelect_ok_wf _ _ _ H) as Hwf.
  destruct (resolveSelect_inv _ _ _ _ H)
    as [(-> & ->)|(i & v & Hf & Hv & -> & Ho & Hs)]; [done|].
  split; [rewrite Ho; reflexivity|].
  unfold selectWF. rewrite Ho, Hs. split; [lia|].
  destruct (decide (i < length (sel_options el))%nat); [lia|].
  unfold optionUniqueValue in Hv. rewrite lookup_ge_None_2 in Hv by lia.
  discriminate.
Qed.

Lemma reselected_refresh D el el1 :
  reselected el el1 -> reselected el (refreshDisabled D el1).
Proof.
  intros [Ho Hwf]. split.
  - rewrite <- Ho. unfold refreshDisabled. simpl.
    apply list_eq. intros i. rewrite !list_lookup_fmap, list_lookup_imap.
    destruct (sel_options el1 !! i); simpl; [|done].
    case_decide; reflexivity.
  - unfold selectWF, refreshDisabled in *. simpl. rewrite length_imap. done.
Qed.

Lemma resolveSelects_reselected (g : list SelectEl) C C1 g1 :
  resolveSelects C g = Ok (C1, g1) -> Forall2 reselected g g1.
Proof.
  revert C C1 g1. induction g as [|el g IH]; intros C C1 g1; simpl.
  - intros [= <- <-]. constructor.
  - destruct (resolveSelect C el) as [[C' el']|] eqn:Hel; [simpl|discriminate].
    destruct (resolveSelects C' g) as [[C'' g']|] eqn:Hg; [simpl|discriminate].
    intros [= <- <-]. constructor; [|by eapply IH].
    by eapply resolveSelect_reselected.
Qed.

Lemma onUniqueChange_reselected (g g1 : list SelectEl) :
  onUniqueChange g = Ok g1 -> Forall2 reselected g g1.
Proof.
  unfold onUniqueChange.
  destruct (resolveSelects ∅ g) as [[C g']|] eqn:Hg; [simpl|discriminate].
  intros [= <-]. apply resolveSelects_reselected in Hg.
  apply Forall2_fmap_r. eapply Forall2_impl; [exact Hg|].
  intros ? ? ?. by apply reselected_refresh.
Qed.

Lemma onUniqueChange_fixed (g g1 : list SelectEl) :
  onUniqueChange g = Ok g1 -> onUniqueChange g1 = Ok g1.
Proof.
  unfold onUniqueChange.
  destruct (resolveSelects ∅ g) as [[C g']|] eqn:Hg; [simpl|discriminate].
  intros [= <-].
  apply resolveSelects_stable in Hg.
  rewrite (resolveSelects_refresh C g' ∅ C Hg). simpl. f_equal.
  rewrite <- list_fmap_compose. apply list_fmap_ext.
  intros i el _. simpl. apply refreshDisabled_idem.
Qed.

End resolver_facts.

(** C4 (as stated, refuted): with N = 3 elements and M = 3 distinct
    non-exempt unique-values available in the group, the resolver leaves
    the first and the third element on the same unique-value: the third
    element offers only values the first two already hold, every probe
    fails and the element is left untouched. And with N = 2 elements over
    the same M = 2 values, one of them empty, both elements stay on the
    empty value, which is never claimed. *)
Lemma unique_resolver_shared_value_counterexample :
  ((length stuckGroup <= size (groupValues stuckGroup))%nat /\
   Forall selectWF stuckGroup /\
   exists g, onUniqueChange stuckGroup = Ok g /\
             omap selectedUniqueValue g = ["a"; "b"; "a"] /\
             ~ noSharedUniqueValue g) /\
  ((length blankGroup <= size (groupValues blankGroup))%nat /\
   Forall selectWF blankGroup /\
   exists g, onUniqueChange blankGroup = Ok g /\
             omap selectedUniqueValue g = [""; ""] /\
             ~ noSharedUniqueValue g).
Proof.
  split.
  - split; [vm_compute; lia|]. split.
    { repeat constructor; vm_compute; congruence. }
    eexists. split; [vm_compute; reflexivity|].
    split; [vm_compute; reflexivity|].
    unfold noSharedUniqueValue. intros Hnd.
    apply NoDup_cons in Hnd as [Hnotin _]. apply Hnotin.
    vm_compute. right. left.
  - split; [vm_compute; lia|]. split.
    { repeat constructor; vm_compute; congruence. }
    eexists. split; [vm_compute; reflexivity|].
    split; [vm_compute; reflexivity|].
    unfold noSharedUniqueValue. intros Hnd.
    apply NoDup_cons in Hnd as [Hnotin _]. apply Hnotin.
    vm_compute. left.
Qed.

(** C4 (amended): when each of the N elements of a unique group has one
    of its options selected and offers, among its own options, at least N
    distinct non-empty and non-exempt unique-values, the resolver returns
    and leaves no two elements on options with the same non-empty,
    non-exempt unique-value; every element keeps its options and ends on
    an index inside them. *)
Theorem unique_resolver_conflict_free (g : list SelectEl) :
  Forall selectWF g ->
  Forall (fun el => (length g <= size (offeredValues el))%nat) g ->
  exists g1, onUniqueChange g = Ok g1 /\ conflictFree g1 /\ Forall2 reselected g g1.
Proof.
  intros Hwf Hoff.
  destruct (resolveSelects_claims g ∅ Hwf) as (C & g' & Hr & _ & _ & Hcf).
  { eapply Forall_impl; [exact Hoff|]. intros el Hel. cbn beta in *.
    rewrite size_empty. lia. }
  assert (Hu : onUniqueChange g = Ok (refreshDisabled C <$> g'))
    by (unfold onUniqueChange; rewrite Hr; reflexivity).
  eexists. split; [exact Hu|]. split.
  - by apply conflictFree_refresh.
  - by apply onUniqueChange_reselected.
Qed.

Lemma unique_resolver_conflict_free_witness :
  exists g1, onUniqueChange sharedGroup = Ok g1 /\ conflictFree g1 /\
             Forall2 reselected sharedGroup g1.
Proof.
  apply unique_resolver_conflict_free.
  - repeat constructor; vm_compute; congruence.
  - repeat constructor; vm_compute; lia.
Defined.

(** C5: the resolver is idempotent.  On a group whose elements each have
    one of their options selected it returns, and running it again on its
    own result returns that result unchanged: the same selected indices
    and the same disabled flags.  If the selections of the group were
    conflict-free to begin with, the first run already changes no selected
    index. *)
Theorem unique_resolver_idempotent (g : list SelectEl) :
  Forall selectWF g ->
  exists g1,
    onUniqueChange g = Ok g1 /\
    onUniqueChange g1 = Ok g1 /\
    (conflictFree g -> sel_selectedIndex <$> g1 = sel_selectedIndex <$> g).
Proof.
  intros Hwf.
  destruct (resolveSelects_total ∅ g Hwf) as [[C g'] Hr].
  assert (Hu : onUniqueChange g = Ok (refreshDisabled C <$> g'))
    by (unfold onUniqueChange; rewrite Hr; reflexivity).
  eexists. split; [exact Hu|]. split; [by eapply onUniqueChange_fixed|].
  intros Hcf.
  destruct (resolveSelects_conflictFree_fixed g ∅ Hwf) as [C1 Hfix];
    [set_solver|done|].
  rewrite Hfix in Hr. injection Hr as _ <-.
  rewrite <- list_fmap_compose. apply list_fmap_ext. intros; reflexivity.
Qed.

Lemma unique_resolver_idempotent_witness :
  exists g1,
    onUniqueChange settledGroup = Ok g1 /\
    onUniqueChange g1 = Ok g1 /\
    sel_selectedIndex <$> g1 = sel_selectedIndex <$> settledGroup.
Proof.
  destruct (unique_resolver_idempotent settledGroup) as (g1 & H1 & H2 & H3).
  - repeat constructor; vm_compute; congruence.
  - exists g1. split; [exact H1|]. split; [exact H2|].
    apply H3. unfold conflictFree.
    apply (bool_decide_unpack _). vm_compute. reflexivity.
Defined.

(** ** Sorting *)

Section sortBy_facts.
Context {A : Type} (after : A -> A -> bool).

Lemma insertSorted_Permutation x (l : list A) : insertSorted after x l ≡ₚ x :: l.
Proof.
  induction l as [|y l IH]; simpl; [done|].
  destruct (after x y); [|done].
  rewrite IH. apply Permutation_swap.
Qed.

Lemma sortBy_Permutation (l : list A) : sortBy after l ≡ₚ l.
Proof.
  induction l as [|x l IH]; simpl; [done|].
  rewrite insertSorted_Permutation, IH. done.
Qed.

Lemma sortBy_elem_of x (l : list A) : x ∈ sortBy after l <-> x ∈ l.
Proof. rewrite sortBy_Permutation. done. Qed.

(** [compare] orders the elements: nothing is both before and after
    another, and "not after" is transitive. *)
Hypothesis after_asym : forall x y, after x y = true -> after y x = false.
Hypothesis after_trans :
  forall x y z, after x y = false -> after y z = false -> after x z = false.

Lemma insertSorted_sorted x (l : list A) :
  StronglySorted (fun a b => after a b = false) l ->
  StronglySorted (fun a b => after a b = false) (insertSorted after x l).
Proof.
  induction l as [|y l IH]; intros Hs; simpl.
  - repeat constructor.
  - apply StronglySorted_inv in Hs as [Hl Hy].
    destruct (after x y) eqn:Hxy.
    + constructor; [by apply IH|].
      rewrite insertSorted_Permutation. constructor; [|done].
      by apply after_asym.
    + constructor; [by constructor|].
      constructor; [done|].
      eapply Forall_impl; [exact Hy|]. simpl. intros z Hz.
      by eapply after_trans.
Qed.

Lemma sortBy_sorted (l : list A) :
  StronglySorted (fun a b => after a b = false) (sortBy after l).
Proof.
  induction l as [|x l IH]; simpl; [constructor|].
  by apply insertSorted_sorted.
Qed.

End sortBy_facts.

(** ** The chat summary *)

Lemma StronglySorted_impl {A} (R R' : A -> A -> Prop) (l : list A) :
  (forall a b, R a b -> R' a b) -> StronglySorted R l -> StronglySorted R' l.
Proof.
  intros HR. induction 1 as [|a l Hs IH Ha]; constructor; [done|].
  eapply Forall_impl; [exact Ha|]. auto.
Qed.

Section chat_facts.
Context `{Host}.

Lemma orderAfter_asym a b : orderAfter a b = true -> orderAfter b a = false.
Proof.
  unfold orderAfter. destruct (chat_order a), (chat_order b); try done.
  intros ?%Z.ltb_lt. apply Z.ltb_ge. lia.
Qed.

Lemma orderAfter_trans a b c :
  orderAfter a b = false -> orderAfter b c = false -> orderAfter a c = false.
Proof.
  unfold orderAfter.
  destruct (chat_order a), (chat_order b), (chat_order c); try done.
  intros ?%Z.ltb_ge ?%Z.ltb_ge. apply Z.ltb_ge. lia.
Qed.

Lemma chatGroups_preface_first messageGroups rawMessages :
  chatGroups messageGroups rawMessages
  = chatPreface (chatSections messageGroups rawMessages)
      :: sortBy orderAfter (chatSections messageGroups rawMessages).
Proof.
  unfold chatGroups. simpl.
  generalize (sortBy orderAfter (chatSections messageGroups rawMessages)).
  intros l. destruct l; reflexivity.
Qed.

Lemma runDailies_effects catalog dailies ctx :
  Forall (fun e => match e with EError _ | EConsoleError _ => True | _ => False end)
         (runDailies catalog dailies ctx).1.2.
Proof.
  revert ctx. induction dailies as [|[key rows] rest IH]; intros ctx; simpl.
  - constructor.
  - destruct (catalog !! key) as [daily|]; simpl; [|repeat constructor].
    specialize (IH (foldl applyOp ctx (run_ops (daily_process daily rows)))).
    destruct (runDailies catalog rest _) as [[ctx' effects] status].
    simpl in IH. destruct (run_completion _); simpl; repeat constructor; done.
Qed.

Lemma filter_split_Permutation {A} (f : A -> bool) (l : list A) :
  (List.filter f l ++ List.filter (fun x => negb (f x)) l)%list ≡ₚ l.
Proof.
  induction l as [|x l IH]; simpl; [done|].
  destruct (f x); simpl; [by rewrite IH|].
  rewrite <- Permutation_middle. by rewrite IH.
Qed.

Lemma objectOrder_Permutation {A} (fields : list (string * A)) :
  objectOrder fields ≡ₚ fields.
Proof.
  unfold objectOrder. rewrite sortBy_Permutation. apply filter_split_Permutation.
Qed.

(** The wait is fulfilled only when every daily is in the catalog and no
    callback rejects; the accumulators then hold what the helper calls of
    the callbacks made of them, one callback after the other. *)
Lemma runDailies_recorded catalog dailies ctx ctx' logs :
  runDailies catalog dailies ctx = (ctx', logs, Fulfilled) ->
  exists runs,
    Forall2 (fun entry run =>
               exists daily, catalog !! entry.1 = Some daily /\
                             run = daily_process daily entry.2) dailies runs /\
    Forall (fun run => forall err, run_completion run <> Rejects err) runs /\
    ctx' = foldl applyOp ctx (concat (run_ops <$> runs)).
Proof.
  revert ctx ctx' logs.
  induction dailies as [|[key rows] rest IH]; intros ctx ctx' logs; simpl.
  - intros [= <- _]. exists []. repeat split; constructor.
  - destruct (catalog !! key) as [daily|] eqn:Hdaily; [|discriminate].
    destruct (runDailies catalog rest _) as [[ctx1 effects] status] eqn:Hrest.
    intros Hrun.
    assert (Hstatus : status = Fulfilled /\ ctx1 = ctx' /\
                      forall err, run_completion (daily_process daily rows) <> Rejects err).
    { destruct (run_completion (daily_process daily rows)); simplify_eq; [done|done|].
      by destruct status. }
    destruct Hstatus as (-> & -> & Hnot).
    destruct (IH _ _ _ Hrest) as (runs & Hruns & Hrej & ->).
    exists (daily_process daily rows :: runs). split; [|split].
    + constructor; [|done]. exists daily. done.
    + by constructor.
    + simpl. by rewrite foldl_app.
Qed.

Lemma Interleaved_skip {A} (callbacks : list (list A)) calls :
  Interleaved callbacks calls -> Interleaved ([] :: callbacks) calls.
Proof.
  induction 1 as [callbacks Hall|before call calls0 after rest Hrest IH].
  - constructor. by constructor.
  - apply (interleaved_call ([] :: before)). exact IH.
Qed.

(** One callback after the other is one way to run side by side. *)
Lemma Interleaved_concat {A} (callbacks : list (list A)) :
  Interleaved callbacks (concat callbacks).
Proof.
  induction callbacks as [|calls callbacks IH]; [by repeat constructor|].
  induction calls as [|call calls IHcalls]; simpl.
  - by apply Interleaved_skip.
  - apply (interleaved_call []). exact IHcalls.
Qed.

Lemma Interleaved_singleton {A} (calls made : list A) :
  Interleaved [calls] made -> made = calls.
Proof.
  intros Hmade. remember [calls] as callbacks eqn:Hcallbacks. revert calls Hcallbacks.
  induction Hmade as [callbacks Hall|before call calls0 after rest Hrest IH];
    intros calls Hcallbacks; subst.
  - by apply Forall_inv in Hall.
  - destruct before as [|first before]; simpl in Hcallbacks.
    + injection Hcallbacks as <- ->. f_equal. by apply IH.
    + injection Hcallbacks as _ Hcallbacks. by destruct before.
Qed.

(** An accept that completes: the first loop went through, the wait was
    fulfilled, and between the logs of the callbacks and the flag update
    stand only calls of the item store. *)
Lemma processDailies_completed actor catalog form effects :
  processDailies actor catalog form = (effects, true) ->
  exists collected ctx logs middle,
    collectRows form = Ok collected /\
    runDailies catalog (objectOrder (col_dailies collected)) initialContext
    = (ctx, logs, Fulfilled) /\
    effects
    = (logs ++ middle
         ++ [ EUpdateFlag
                (flagUpdate (col_flags collected) (ctx_extraFlags ctx)
                   (item_id <$> createdItems (finalSources actor (ctx_addedItems ctx))));
              EChatMessage
                (chatContent
                   (chatGroups (ctx_messageGroups ctx) (ctx_rawMessages ctx))) ])%list /\
    Forall (fun e => match e with
                     | ECreateItems _ | EUpdateItems _ | EDeleteItems _ => True
                     | _ => False
                     end) middle.
Proof.
  unfold processDailies.
  destruct (collectRows form) as [collected|err]; [|discriminate].
  destruct (runDailies _ _ _) as [[ctx logs] status] eqn:Hrun.
  destruct status; [|discriminate|discriminate].
  intros [= <-].
  match goal with
  | |- context [(logs ++ ?A ++ ?B ++ ?C ++ [?u; ?m])%list] =>
      exists collected, ctx, logs, (A ++ B ++ C)%list
  end.
  split; [done|]. split; [done|]. split.
  - by rewrite <- !app_assoc.
  - repeat (apply Forall_app; split); repeat case_bool_decide; repeat constructor.
Qed.

End chat_facts.

(** C9: the one chat summary an accept posts, as its last effect, holds
    its sections in descending order of priority, joined by rules, and
    the sections are made of what the callbacks recorded: of the
    accumulators as the helper calls of the callbacks leave them, each
    daily gathered from the form having had its callback called with its
    rows, and the calls of a callback keeping their order among those of
    the others. The preface comes first, with the unbounded priority,
    and reads "changes" exactly when another section exists; the other
    sections are the raw messages and the groups that have messages,
    each with its priority, rearranged so that no section precedes one
    of higher priority. The groups known from the start have the
    priorities 80, 70, 60, 50, 40 and 30, a raw message given no
    priority gets 1; so with a feat message, a skill message and one raw
    message the order is preface, skills, feats, raw. *)
Theorem chat_summary_order `{Host} :
  (forall messageGroups rawMessages,
      let sections := chatSections messageGroups rawMessages in
      exists rest,
        chatGroups messageGroups rawMessages
        = {| chat_message :=
               localize (if bool_decide (sections = []) then "message.noChanges"
                         else "message.changes") [];
             chat_order := Infinity |} :: rest /\
        rest ≡ₚ sections /\
        StronglySorted (fun a b => orderAfter a b = false)
                       (chatGroups messageGroups rawMessages) /\
        StronglySorted (fun a b => match chat_order a, chat_order b with
                                   | Finite x, Finite y => y <= x
                                   | Finite _, Infinity => False
                                   | Infinity, _ => True
                                   end)
                       (chatGroups messageGroups rawMessages)) /\
  (forall messageGroups rawMessages section,
      section ∈ chatSections messageGroups rawMessages <->
      (exists message order,
          (message, order) ∈ rawMessages /\
          section = {| chat_message := "<p>" +:+ message +:+ "</p>";
                       chat_order := Finite order |}) \/
      (exists type group,
          (type, group) ∈ messageGroups /\ grp_messages group <> [] /\
          section
          = {| chat_message :=
                 "<p><strong>"
                   +:+ (if from_option truthyStr false (grp_label group)
                        then i18n_localize (default "" (grp_label group))
                        else default (localize "message.gained" [("type", type)])
                                     (localizeIfExist ("message.groups." +:+ type)))
                   +:+ "</strong></p>"
                   +:+ String.concat "" (messageLine <$> grp_messages group);
               chat_order := Finite (grp_order group) |})) /\
  (fun entry => (entry.1, grp_order entry.2)) <$> ctx_messageGroups initialContext
  = [ ("languages", 80); ("skills", 70); ("resistances", 60);
      ("feats", 50); ("spells", 40); ("scrolls", 30) ] /\
  (forall ctx message, ctx_rawMessages (applyOp ctx (MessagesAddRaw message None))
                       = (ctx_rawMessages ctx ++ [(message, 1)])%list) /\
  (let ctx := foldl applyOp initialContext summaryOps in
   chatGroups (ctx_messageGroups ctx) (ctx_rawMessages ctx)
   = [ {| chat_message := localize "message.changes" []; chat_order := Infinity |};
       {| chat_message :=
            "<p><strong>"
              +:+ default (localize "message.gained" [("type", "skills")])
                          (localizeIfExist "message.groups.skills")
              +:+ "</strong></p>" +:+ "<p> Acrobatics</p>";
          chat_order := Finite 70 |};
       {| chat_message :=
            "<p><strong>"
              +:+ default (localize "message.gained" [("type", "feats")])
                          (localizeIfExist "message.groups.feats")
              +:+ "</strong></p>" +:+ "<p> Toughness</p>";
          chat_order := Finite 50 |};
       {| chat_message := "<p>Rested.</p>"; chat_order := Finite 1 |} ]) /\
  (forall actor catalog form effects,
      processDailies actor catalog form = (effects, true) ->
      exists collected runs calls before,
        collectRows form = Ok collected /\
        Forall2 (fun entry run =>
                   exists daily, catalog !! entry.1 = Some daily /\
                                 run = daily_process daily entry.2)
                (objectOrder (col_dailies collected)) runs /\
        Interleaved (run_ops <$> runs) calls /\
        (let ctx := foldl applyOp initialContext calls in
         effects
         = (before
              ++ [EChatMessage
                    ("<div class=" +:+ dq +:+ "pf2e-dailies-summary" +:+ dq +:+ ">"
                       +:+ String.concat "<hr />"
                             (chat_message
                                <$> chatGroups (ctx_messageGroups ctx)
                                               (ctx_rawMessages ctx))
                       +:+ "</div>")])%list) /\
        Forall (fun e => forall content, e <> EChatMessage content) before).
Proof.
  split; [|split; [|split; [reflexivity|split; [reflexivity|split]]]].
  - intros messageGroups rawMessages sections.
    assert (Hsorted : StronglySorted (fun a b => orderAfter a b = false)
                        (chatGroups messageGroups rawMessages))
      by (apply sortBy_sorted; [apply orderAfter_asym|apply orderAfter_trans]).
    exists (sortBy orderAfter sections). split; [|split; [|split]].
    + apply chatGroups_preface_first.
    + apply sortBy_Permutation.
    + exact Hsorted.
    + eapply StronglySorted_impl; [|exact Hsorted].
      intros a b. unfold orderAfter.
      destruct (chat_order a), (chat_order b); try done.
      intros ?%Z.ltb_ge. lia.
  - intros messageGroups rawMessages section. unfold chatSections.
    rewrite elem_of_app, list_elem_of_fmap, list_elem_of_omap. split.
    + intros [([message order] & -> & Hraw)|([type group] & Hgroup & Hsection)].
      * left. exists message, order. done.
      * right. exists type, group.
        rewrite objectOrder_Permutation in Hgroup. unfold groupSection in Hsection.
        case_bool_decide; [done|]. injection Hsection as <-. done.
    + intros [(message & order & Hraw & ->)|(type & group & Hgroup & Hmessages & ->)].
      * left. exists (message, order). done.
      * right. exists (type, group). rewrite objectOrder_Permutation.
        split; [done|]. unfold groupSection.
        rewrite bool_decide_eq_false_2 by done. done.
  - vm_compute. reflexivity.
  - intros actor catalog form effects Hrun.
    destruct (processDailies_completed _ _ _ _ Hrun)
      as (collected & ctx & logs & middle & Hcollected & Hdailies & -> & Hmiddle).
    destruct (runDailies_recorded _ _ _ _ _ Hdailies) as (runs & Hruns & _ & ->).
    pose proof (runDailies_effects catalog (objectOrder (col_dailies collected))
                  initialContext) as Hlog.
    rewrite Hdailies in Hlog. simpl in Hlog.
    eexists collected, runs, (concat (run_ops <$> runs)),
      (logs ++ middle ++ [EUpdateFlag _])%list.
    split; [done|]. split; [done|]. split; [apply Interleaved_concat|]. split.
    + cbv zeta. rewrite <- !app_assoc. reflexivity.
    + repeat (apply Forall_app; split).
      * eapply Forall_impl; [exact Hlog|]. intros e He content ->. done.
      * eapply Forall_impl; [exact Hmiddle|]. intros e He content ->. done.
      * repeat constructor. done.
Qed.

(** ** The template builder *)

Section getData_facts.
Context `{Host}.

Lemma rowIsOfType_spec row types :
  rowIsOfType row types = true <-> row_type row ∈ types.
Proof. unfold rowIsOfType. apply bool_decide_eq_true. Qed.

Lemma rowTemplate_keys actor daily row t :
  rowTemplate actor daily row = Some t ->
  tpl_daily t = daily_key daily /\ tpl_row t = row_slug row /\
  tpl_type t = row_type row.
Proof.
  unfold rowTemplate. intros Ht.
  repeat (first [ discriminate Ht
                | injection Ht as <-; done
                | match type of Ht with
                  | context [bool_decide ?P] => destruct (bool_decide P)
                  | context [rowIsOfType ?r ?l] => destruct (rowIsOfType r l)
                  | context [match ?x with _ => _ end] => destruct x
                  end ]; simpl in Ht).
Qed.

Lemma flatRow_keys template t :
  flatRow template = Some t ->
  exists t0, t0 ∈ dtpl_rows template /\ tpl_daily t = tpl_daily t0 /\
             tpl_row t = tpl_row t0 /\ tpl_type t = tpl_type t0.
Proof.
  unfold flatRow. destruct (dtpl_rows template) as [|t0 [|]]; try done.
  case_bool_decide; [done|]. intros [= <-]. exists t0. set_solver.
Qed.

Lemma dailyTemplate_rows actor daily template t :
  dailyTemplate actor daily = Some template ->
  t ∈ dtpl_rows template ->
  exists row, row ∈ daily_rows daily /\ rowTemplate actor daily row = Some t.
Proof.
  unfold dailyTemplate. destruct (from_option _ _ _); [done|].
  case_bool_decide; [done|]. intros [= <-]. simpl.
  intros (row & Hrow & Ht)%list_elem_of_omap. eauto.
Qed.

(** Every row of the rendered form comes from a row definition for
    which the builder made a template. *)
Lemma getData_rows actor dailies t :
  t ∈ idata_rows (getData actor dailies) \/
  (exists group, group ∈ idata_groups (getData actor dailies) /\
                 t ∈ dtpl_rows group) ->
  exists daily row t0,
    daily ∈ dailies /\ row ∈ daily_rows daily /\
    rowTemplate actor daily row = Some t0 /\
    tpl_daily t = daily_key daily /\ tpl_row t = row_slug row /\
    tpl_type t = row_type row.
Proof.
  unfold getData. simpl. intros [Ht|(group & Hg & Ht)].
  - apply sortBy_elem_of in Ht.
    apply list_elem_of_omap in Ht as (template & Htpl & Hflat).
    apply list_elem_of_omap in Htpl as (daily & Hd & Hdt).
    apply flatRow_keys in Hflat as (t0 & Ht0 & -> & -> & ->).
    destruct (dailyTemplate_rows _ _ _ _ Hdt Ht0) as (row & Hrow & Hrt).
    exists daily, row, t0. repeat split; try done;
      by apply (rowTemplate_keys _ _ _ _ Hrt).
  - apply sortBy_elem_of in Hg.
    apply list_elem_of_filter in Hg as [_ Hg].
    apply list_elem_of_omap in Hg as (daily & Hd & Hdt).
    destruct (dailyTemplate_rows _ _ _ _ Hdt Ht) as (row & Hrow & Hrt).
    exists daily, row, t. repeat split; try done;
      by apply (rowTemplate_keys _ _ _ _ Hrt).
Qed.

End getData_facts.

(** C10: a select or random row whose option list is empty gets no row
    template, whatever its condition, and so does not appear in the
    rendered form: every row [getData] returns, flat or in a group, stems
    from a row definition that is not such a row. A combo row is never
    dropped for its options: unless its condition is false it has a
    template, even with no option at all. *)
Theorem empty_select_row_omitted `{Host} (actor : CharacterPF2e) :
  (forall daily row,
      row_type row = TSelect \/ row_type row = TRandom ->
      row_options row = [] ->
      rowTemplate actor daily row = None) /\
  (forall dailies t,
      t ∈ idata_rows (getData actor dailies) \/
      (exists group, group ∈ idata_groups (getData actor dailies) /\
                     t ∈ dtpl_rows group) ->
      exists daily row,
        daily ∈ dailies /\ row ∈ daily_rows daily /\
        tpl_daily t = daily_key daily /\ tpl_row t = row_slug row /\
        ~ ((row_type row = TSelect \/ row_type row = TRandom) /\
           row_options row = [])) /\
  (forall daily row,
      row_type row = TCombo ->
      row_condition row <> Some false ->
      is_Some (rowTemplate actor daily row)).
Proof.
  assert (Hskip : forall daily row,
             row_type row = TSelect \/ row_type row = TRandom ->
             row_options row = [] ->
             rowTemplate actor daily row = None).
  { intros daily row Htype Hopts. unfold rowTemplate, rowIsOfType.
    case_bool_decide; [done|]. rewrite Hopts.
    destruct Htype as [-> | ->]; reflexivity. }
  split; [exact Hskip|]. split.
  - intros dailies t Ht.
    destruct (getData_rows actor dailies t Ht)
      as (daily & row & t0 & Hd & Hr & Hrt & Hk1 & Hk2 & _).
    exists daily, row. repeat split; try done.
    intros [Htype Hopts]. rewrite (Hskip daily row Htype Hopts) in Hrt. done.
  - intros daily row Htype Hcond. unfold rowTemplate, rowIsOfType.
    rewrite bool_decide_eq_false_2 by done. rewrite Htype. simpl.
    repeat case_match; eauto.
Qed.

(** ** Accept *)

(** [trim] on white space beyond ASCII: the no-break space, the
    ideographic space U+3000 and U+FEFF go, whether at the start or at
    the end; a letter whose encoding ends in the byte of the no-break
    space stays, and so does white space inside the text. *)
Example trim_samples :
  trim nbsp = "" /\
  trim (" " +:+ nbsp +:+ "Elven" +:+ String "227" (String "128" (String "128" "")))
  = "Elven" /\
  trim (String "239" (String "187" (String "191" "x y"))) = "x y" /\
  trim (String "208" (String "160" " ")) = String "208" (String "160" "") /\
  trim (String "160" "") = "".
Proof. repeat split; reflexivity. Qed.

(** C8: when some row that is not empty-exempt has a blank value, accept
    stops before any processing. It shows the warning and marks the
    labels of exactly the blank required rows, in the order of the form;
    nothing else happens: no item is created, updated or deleted, no flag
    is written and no chat message is posted, whatever the dailies'
    callbacks would have done. *)
Theorem accept_blocked_by_blank_row `{Host} (actor : CharacterPF2e)
    (catalog : gmap string PreparedDaily) (form : list RowElement) :
  (exists el, el ∈ form /\ el_empty el = false /\ trim (el_value el) = "") ->
  exists emptyRows,
    emptyRows <> [] /\
    (forall el, el ∈ emptyRows <->
                el ∈ form /\ el_empty el = false /\ trim (el_value el) = "") /\
    onAccept actor catalog form
    = (EClearEmptyMarks :: EWarn "interface.error.empty"
         :: ((fun el => EMarkEmpty (el_row el)) <$> emptyRows), true) /\
    Forall (fun e => isCommitEffect e = false) (onAccept actor catalog form).1.
Proof.
  intros (el0 & Hin & Hempty & Hblank).
  set (blank := fun el => negb (el_empty el) && String.eqb (trim (el_value el)) "").
  assert (Hspec : forall el, el ∈ List.filter blank form <->
                             el ∈ form /\ el_empty el = false /\ trim (el_value el) = "").
  { intros el. rewrite list_elem_of_In, filter_In, <- list_elem_of_In.
    unfold blank. rewrite andb_true_iff, negb_true_iff, String.eqb_eq. tauto. }
  assert (Hne : List.filter blank form <> []).
  { intros Hnil. assert (Hel : el0 ∈ List.filter blank form) by (apply Hspec; done).
    rewrite Hnil in Hel. inversion Hel. }
  assert (Hacc : onAccept actor catalog form
                 = (EClearEmptyMarks :: EWarn "interface.error.empty"
                      :: ((fun el => EMarkEmpty (el_row el)) <$> List.filter blank form),
                    true)).
  { unfold onAccept. fold blank. rewrite bool_decide_eq_false_2 by done. reflexivity. }
  exists (List.filter blank form). repeat split; try done; try apply Hspec; try done.
  rewrite Hacc. simpl. repeat constructor.
  apply Forall_fmap. apply Forall_forall. intros; reflexivity.
Qed.

Section persist_facts.
Context `{Host}.

Lemma setOwn_lookup {A} key (value : A) (object : gmap string A) k v :
  setOwn key value object !! k = Some v ->
  (k = key /\ v = value /\ key <> "__proto__") \/ object !! k = Some v.
Proof.
  unfold setOwn. destruct (String.eqb key "__proto__") eqn:Hproto; [auto|].
  apply String.eqb_neq in Hproto.
  destruct (decide (k = key)) as [->|Hne].
  - rewrite lookup_insert_eq. intros [= <-]. auto.
  - rewrite lookup_insert_ne by done. auto.
Qed.

Lemma collectRows_snoc form el :
  collectRows (form ++ [el]) = (acc <- collectRows form ;;; collectRow acc el).
Proof. unfold collectRows. by rewrite foldl_snoc. Qed.

(** The first loop, when it goes through: what holds of the empty
    objects and is kept by every pass holds at the end. *)
Lemma collectRows_ind form (P : Collected -> Prop) :
  P {| col_flags := ∅; col_dailies := [] |} ->
  (forall acc el acc', el ∈ form -> P acc -> collectRow acc el = Ok acc' -> P acc') ->
  forall collected, collectRows form = Ok collected -> P collected.
Proof.
  intros Hinit Hstep.
  assert (Hgen : forall l, (forall el, el ∈ l -> el ∈ form) ->
                           forall collected, collectRows l = Ok collected -> P collected).
  { induction l as [|el l IH] using rev_ind; intros Hsub collected.
    - intros [= <-]. exact Hinit.
    - rewrite collectRows_snoc.
      destruct (collectRows l) as [acc|err] eqn:Hl; [|discriminate]. simpl.
      apply Hstep; [set_solver|]. apply IH; [set_solver|done]. }
  by apply Hgen.
Qed.

Lemma collectRow_flags form acc acc' el :
  el ∈ form ->
  collectRow acc el = Ok acc' ->
  (forall daily rows row value,
      col_flags acc !! daily = Some rows -> rows !! row = Some value ->
      fromSavedElement form daily row value) ->
  forall daily rows row value,
    col_flags acc' !! daily = Some rows ->
    rows !! row = Some value ->
    fromSavedElement form daily row value.
Proof.
  intros Hel Hstep Hacc daily rows row value. unfold collectRow in Hstep.
  destruct (rowValue el) as [v|] eqn:Hv; [|injection Hstep as <-; apply Hacc].
  destruct (_ && _); [discriminate|]. injection Hstep as <-. simpl.
  destruct (el_save el) eqn:Hsave; [|apply Hacc].
  destruct (decide (el_daily el = daily)) as [<-|Hd].
  - rewrite lookup_insert_eq. intros [= <-].
    intros [(-> & -> & _)|Hlook]%setOwn_lookup; [exists el; done|].
    destruct (col_flags acc !! el_daily el) as [rows0|] eqn:Hrows0; simpl in Hlook.
    + by eapply Hacc.
    + rewrite lookup_empty in Hlook. done.
  - rewrite lookup_insert_ne by done. apply Hacc.
Qed.

Lemma collectRows_flags form collected daily rows row value :
  collectRows form = Ok collected ->
  col_flags collected !! daily = Some rows ->
  rows !! row = Some value ->
  fromSavedElement form daily row value.
Proof.
  intros Hcollected. revert daily rows row value.
  apply (collectRows_ind form
           (fun acc => forall daily rows row value,
                col_flags acc !! daily = Some rows -> rows !! row = Some value ->
                fromSavedElement form daily row value)); [| |exact Hcollected].
  - simpl. intros ? ? ? ?. rewrite lookup_empty. done.
  - intros acc el acc' Hel Hacc Hstep. by eapply collectRow_flags.
Qed.

Lemma flagUpdate_rows flags extraFlags addedItemIds daily rows :
  flagUpdate flags extraFlags addedItemIds !! daily = Some (FlagRows rows) ->
  flags !! daily = Some rows.
Proof.
  unfold flagUpdate. rewrite !lookup_insert. repeat case_decide; try done.
  rewrite lookup_fmap. destruct (flags !! daily); simpl; [|done].
  intros [= <-]. done.
Qed.

Lemma rowValue_type el value :
  rowValue el = Some value -> el_type el <> TAlert /\ el_type el <> TNotify.
Proof. unfold rowValue. destruct (el_type el); done. Qed.

Lemma processDailies_flagUpdate actor catalog form effects updates :
  processDailies actor catalog form = (effects, true) ->
  EUpdateFlag updates ∈ effects ->
  exists collected extraFlags addedItemIds,
    collectRows form = Ok collected /\
    updates = flagUpdate (col_flags collected) extraFlags addedItemIds.
Proof.
  intros Hrun.
  destruct (processDailies_completed _ _ _ _ Hrun)
    as (collected & ctx & logs & middle & Hcollected & Hdailies & -> & Hmiddle).
  pose proof (runDailies_effects catalog (objectOrder (col_dailies collected))
                initialContext) as Hlog.
  rewrite Hdailies in Hlog. simpl in Hlog.
  rewrite !elem_of_app. intros [Hin|[Hin|Hin]].
  - rewrite Forall_forall in Hlog. destruct (Hlog _ Hin).
  - rewrite Forall_forall in Hmiddle. destruct (Hmiddle _ Hin).
  - apply elem_of_cons in Hin as [[= ->]|Hin]; [eauto 6|set_solver].
Qed.

End persist_facts.

(** C6: the flag update of an accept that completes carries, under a
    daily key and a row slug, only values read from a row element marked
    as saved, of a type other than alert and notify. Hence a row whose
    elements are all unsaved, alert or notify rows gets no value written.
    The saved mark is set at render: it is off for a row with [save]
    false and off for every alert row. *)
Theorem only_saved_rows_persist `{Host} (actor : CharacterPF2e)
    (catalog : gmap string PreparedDaily) (form : list RowElement)
    (effects : list Effect) (updates : FlagUpdate) :
  processDailies actor catalog form = (effects, true) ->
  EUpdateFlag updates ∈ effects ->
  (forall daily rows row value,
      updates !! daily = Some (FlagRows rows) ->
      rows !! row = Some value ->
      exists el, el ∈ form /\ el_daily el = daily /\ el_row el = row /\
                 el_save el = true /\
                 el_type el <> TAlert /\ el_type el <> TNotify /\
                 rowValue el = Some value) /\
  (forall daily row,
      (forall el, el ∈ form -> el_daily el = daily -> el_row el = row ->
                  el_save el = false \/ el_type el = TAlert \/ el_type el = TNotify) ->
      forall rows, updates !! daily = Some (FlagRows rows) -> rows !! row = None) /\
  (forall daily row t,
      rowTemplate actor daily row = Some t ->
      row_save row = Some false \/ row_type row = TAlert ->
      data_save (tpl_data t) = false).
Proof.
  intros Hrun Hin.
  destruct (processDailies_flagUpdate _ _ _ _ _ Hrun Hin)
    as (collected & extra & ids & Hcollected & ->).
  assert (Hwritten : forall daily rows row value,
             flagUpdate (col_flags collected) extra ids !! daily
             = Some (FlagRows rows) ->
             rows !! row = Some value ->
             exists el, el ∈ form /\ el_daily el = daily /\ el_row el = row /\
                        el_save el = true /\
                        el_type el <> TAlert /\ el_type el <> TNotify /\
                        rowValue el = Some value).
  { intros daily rows row value Hd%flagUpdate_rows Hr.
    destruct (collectRows_flags form collected daily rows row value Hcollected Hd Hr)
      as (el & ? & ? & ? & ? & Hv).
    exists el. pose proof (rowValue_type el value Hv). naive_solver. }
  split; [exact Hwritten|]. split.
  - intros daily row Hall rows Hd.
    destruct (rows !! row) as [value|] eqn:Hr; [|done].
    destruct (Hwritten daily rows row value Hd Hr)
      as (el & Hel & Hdaily & Hrow & Hsave & Ha & Hn & _).
    destruct (Hall el Hel Hdaily Hrow) as [?|[?|?]]; congruence.
  - intros daily row t Ht Hoff. unfold rowTemplate in Ht.
    destruct Hoff as [Hsave|Htype].
    + rewrite Hsave in Ht. simpl in Ht.
      repeat (first [ discriminate Ht
                    | injection Ht as <-; done
                    | match type of Ht with
                      | context [bool_decide ?P] => destruct (bool_decide P)
                      | context [rowIsOfType ?r ?l] => destruct (rowIsOfType r l)
                      | context [match ?x with _ => _ end] => destruct x
                      end ]; simpl in Ht).
    + unfold rowIsOfType in Ht. rewrite Htype in Ht. simpl in Ht.
      case_bool_decide; [done|]. injection Ht as <-. done.
Qed.

(** ** The migration gate *)

Section migration_facts.
Context `{Host}.

Lemma applyMigrations_reset actor schema catalog reset messages :
  reset = true \/
  (exists m, m ∈ catalog /\ isNewerVersion (mig_schema m) schema = true /\
             mig_reset m = Some true) ->
  (applyMigrations actor schema catalog reset messages).1 = true.
Proof.
  revert reset messages.
  induction catalog as [|m catalog IH]; intros reset messages Hr; simpl.
  - destruct Hr as [->|(m & Hm & _)]; [done|inversion Hm].
  - destruct (isNewerVersion (mig_schema m) schema) eqn:Hnew; simpl.
    + apply IH. destruct Hr as [->|(m' & Hm' & Hn' & Hr')]; [by left|].
      apply elem_of_cons in Hm' as [->|Hm'].
      * left. rewrite Hr'. rewrite bool_decide_eq_true_2 by done.
        apply orb_true_r.
      * right. eauto.
    + apply IH. destruct Hr as [->|(m' & Hm' & Hn' & Hr')]; [by left|].
      apply elem_of_cons in Hm' as [->|Hm']; [congruence|].
      right. eauto.
Qed.

Lemma applyMigrations_no_reset actor schema catalog messages :
  (forall m, m ∈ catalog -> isNewerVersion (mig_schema m) schema = true ->
             mig_reset m <> Some true) ->
  (applyMigrations actor schema catalog false messages).1 = false.
Proof.
  revert messages. induction catalog as [|m catalog IH]; intros messages Hnone; [done|].
  simpl. destruct (isNewerVersion (mig_schema m) schema) eqn:Hnew; simpl.
  - rewrite bool_decide_eq_false_2 by (apply Hnone; [left|done]).
    apply IH. intros m' Hm'. apply Hnone. by right.
  - apply IH. intros m' Hm'. apply Hnone. by right.
Qed.

Lemma isNewerVersion_current : isNewerVersion ACTOR_DAILY_SCHEMA ACTOR_DAILY_SCHEMA = false.
Proof. reflexivity. Qed.

End migration_facts.

(** C3 (as stated, refuted): a character stored under schema 2.0.0 is
    older than the current schema and matches the reset migration 3.0.0
    of the catalog; after the migration gate its schema flag is not 3.0.0:
    the reset has removed it with the rest of the bucket. *)
Lemma migration_reset_schema_counterexample :
  getSchemaFlag legacyActor = Some "2.0.0" /\
  isNewerVersion ACTOR_DAILY_SCHEMA "2.0.0" = true /\
  (exists m, m ∈ MIGRATIONS /\ isNewerVersion (mig_schema m) "2.0.0" = true /\
             mig_reset m = Some true) /\
  getSchemaFlag (@migration plainHost legacyActor).1 <> Some "3.0.0".
Proof.
  split; [reflexivity|]. split; [reflexivity|]. split.
  - eexists. split; [left|]. split; reflexivity.
  - vm_compute. discriminate.
Qed.

(** C3 (amended): for a character that carries flags of the module,
    whose stored schema is older than the current one and matches a reset
    migration of the catalog, the migration gate ends with the whole flag
    bucket of the module removed, the schema flag included: no schema is
    stamped on a reset. When no matching migration is a reset, the gate
    stamps the schema 3.0.0 and leaves the other flags. For a character
    whose stored schema is already the current one, 3.0.0, the gate
    changes nothing and prompts nothing. *)
Theorem migration_gate `{Host} (catalog : list Migration) (actor : CharacterPF2e) :
  (hasModuleFlag actor = true ->
   isNewerVersion ACTOR_DAILY_SCHEMA (default "" (getSchemaFlag actor)) = true ->
   (exists m, m ∈ catalog /\
              isNewerVersion (mig_schema m) (default "" (getSchemaFlag actor)) = true /\
              mig_reset m = Some true) ->
   actor_flags (migrationWith catalog actor).1 = None /\
   getSchemaFlag (migrationWith catalog actor).1 = None) /\
  (hasModuleFlag actor = true ->
   isNewerVersion ACTOR_DAILY_SCHEMA (default "" (getSchemaFlag actor)) = true ->
   (forall m, m ∈ catalog ->
              isNewerVersion (mig_schema m) (default "" (getSchemaFlag actor)) = true ->
              mig_reset m <> Some true) ->
   actor_flags (migrationWith catalog actor).1
   = Some (<["schema" := FlagSchema "3.0.0"]> (default ∅ (actor_flags actor)))) /\
  (getSchemaFlag actor = Some "3.0.0" ->
   migrationWith catalog actor = (actor, None)).
Proof.
  split; [|split].
  - intros Hflag Hold Hreset. unfold migrationWith.
    rewrite Hflag, Hold. simpl.
    pose proof (applyMigrations_reset actor (default "" (getSchemaFlag actor))
                  catalog false [] (or_intror Hreset)) as Hr.
    destruct (applyMigrations _ _ _ _ _) as [reset messages]. simpl in Hr. subst reset.
    rewrite bool_decide_eq_false_2 by done. simpl. done.
  - intros Hflag Hold Hnone. unfold migrationWith.
    rewrite Hflag, Hold. simpl.
    pose proof (applyMigrations_no_reset actor (default "" (getSchemaFlag actor))
                  catalog [] Hnone) as Hr.
    destruct (applyMigrations _ _ _ _ _) as [reset messages]. simpl in Hr. subst reset.
    case_bool_decide; reflexivity.
  - intros Hschema. unfold migrationWith. rewrite Hschema. simpl.
    destruct (negb (hasModuleFlag actor)); reflexivity.
Qed.

Lemma migration_gate_witness :
  (actor_flags (@migration plainHost legacyActor).1 = None /\
   getSchemaFlag (@migration plainHost legacyActor).1 = None) /\
  getSchemaFlag (@migrationWith plainHost [] legacyActor).1 = Some "3.0.0" /\
  @migration plainHost currentActor = (currentActor, None).
Proof.
  destruct (@migration_gate plainHost MIGRATIONS legacyActor) as (Hreset & _ & _).
  destruct (@migration_gate plainHost [] legacyActor) as (_ & Hstamp & _).
  destruct (@migration_gate plainHost MIGRATIONS currentActor) as (_ & _ & Hsame).
  split; [|split].
  - apply Hreset; [reflexivity|reflexivity|].
    eexists. split; [left|]. split; reflexivity.
  - unfold getSchemaFlag. rewrite Hstamp; [reflexivity..|].
    intros m Hm. inversion Hm.
  - apply Hsame. reflexivity.
Defined.

(** ** Drop validation *)

Section validate_facts.
Context `{Host}.

Lemma sortStrings_elem_of x l : x ∈ sortStrings l <-> x ∈ l.
Proof. apply sortBy_elem_of. Qed.

Lemma checkCategories_pass item filter :
  flt_category filter <> [] ->
  checkCategories item filter = None ->
  sortStrings (flt_category filter) = sortStrings (spellCategories item).
Proof.
  intros Hne. unfold checkCategories.
  rewrite bool_decide_eq_false_2 by done. simpl.
  case_bool_decide; done.
Qed.

Lemma validateSpell_true item filter w :
  validateSpell item filter = (w, true) ->
  checkRank item filter = None /\ checkCategories item filter = None /\
  checkTraditions item filter = None /\ validateDefault item filter = None.
Proof.
  unfold validateSpell.
  destruct (checkRank item filter); [discriminate|].
  destruct (checkCategories item filter); [discriminate|].
  destruct (checkTraditions item filter); [discriminate|].
  destruct (validateDefault item filter); [discriminate|]. done.
Qed.

End validate_facts.

(** C7: with a non-empty category allow-list, spell validation succeeds
    only if the allow-list and the categories computed for the item have
    the same members. The computed categories are taken from spell,
    cantrip, focus and ritual, spell being one of them exactly when the
    item is none of the other three. If the two differ as sets, if only by
    one member while they share others, validation fails, and the check
    on categories answers with the warning on categories, which is the
    warning validation gives once the rank check has passed. The
    tradition check passes as soon as one tradition of the allow-list is
    one of the item's. *)
Theorem spell_category_exact_match `{Host} (item : SpellPF2e) (filter : SpellFilters) :
  flt_category filter <> [] ->
  (forall warning,
      validateSpell item filter = (warning, true) ->
      forall x, x ∈ flt_category filter <-> x ∈ spellCategories item) /\
  (forall x, x ∈ spellCategories item -> x ∈ ["spell"; "cantrip"; "focus"; "ritual"]) /\
  ("spell" ∈ spellCategories item <->
   spell_isCantrip item = false /\ spell_isFocusSpell item = false /\
   spell_isRitual item = false) /\
  (~ (forall x, x ∈ flt_category filter <-> x ∈ spellCategories item) ->
   (validateSpell item filter).2 = false /\
   (exists need has,
       checkCategories item filter = Some (DropDataWarning "categories" need has) /\
       (checkRank item filter = None ->
        validateSpell item filter
        = (Some (DropDataWarning "categories" need has), false)))) /\
  ((exists x, x ∈ flt_traditions filter /\ x ∈ spell_traditions item) ->
   checkTraditions item filter = None).
Proof.
  intros Hne.
  assert (Hpass : checkCategories item filter = None ->
                  forall x, x ∈ flt_category filter <-> x ∈ spellCategories item).
  { intros Hc x. apply (checkCategories_pass _ _ Hne) in Hc.
    rewrite <- (sortStrings_elem_of x (flt_category filter)), Hc.
    apply sortStrings_elem_of. }
  split; [|split; [|split; [|split]]].
  - intros warning Hv. apply validateSpell_true in Hv as (_ & Hc & _). by apply Hpass.
  - intros x. unfold spellCategories.
    destruct (spell_isCantrip item), (spell_isFocusSpell item), (spell_isRitual item);
      simpl; set_solver.
  - unfold spellCategories.
    destruct (spell_isCantrip item), (spell_isFocusSpell item), (spell_isRitual item);
      simpl; (split; [intros Hin|intros (? & ? & ?)]); try done;
      try set_solver.
  - intros Hdiff.
    destruct (checkCategories item filter) as [warning|] eqn:Hc;
      [|exfalso; by apply Hdiff, Hpass].
    assert (Hw : exists need has, warning = DropDataWarning "categories" need has).
    { unfold checkCategories in Hc. repeat case_match; try done.
      injection Hc as <-. eauto. }
    destruct Hw as (need & has & ->). split.
    + unfold validateSpell. rewrite Hc. destruct (checkRank item filter); done.
    + exists need, has. split; [done|]. intros Hr.
      unfold validateSpell. rewrite Hr, Hc. done.
  - intros (x & Hf & Hi). unfold checkTraditions.
    assert (Hx : x ∈ list_intersection (flt_traditions filter) (spell_traditions item))
      by (apply list_elem_of_intersection; done).
    rewrite (bool_decide_eq_false_2 (list_intersection _ _ = [])).
    + rewrite andb_false_r. done.
    + intros Hnil. rewrite Hnil in Hx. inversion Hx.
Qed.

Lemma spell_category_exact_match_witness :
  (@validateSpell plainHost focusCantrip focusCantripFilter = (None, true) /\
   forall x, x ∈ flt_category focusCantripFilter <-> x ∈ spellCategories focusCantrip) /\
  (@validateSpell plainHost focusCantrip cantripFilter).2 = false /\
  @checkTraditions plainHost focusCantrip focusCantripFilter = None.
Proof.
  destruct (@spell_category_exact_match plainHost focusCantrip focusCantripFilter)
    as (Hok & _ & _ & _ & Htrad); [done|].
  destruct (@spell_category_exact_match plainHost focusCantrip cantripFilter)
    as (_ & _ & _ & Hfail & _); [done|].
  split; [split; [reflexivity|exact (Hok None eq_refl)]|]. split.
  - apply Hfail. intros Hsame.
    assert (Hin : "focus" ∈ flt_category cantripFilter)
      by (apply Hsame; vm_compute; set_solver).
    vm_compute in Hin. set_solver.
  - apply Htrad. exists "occult". split; set_solver.
Defined.

(** ** Witnesses of the accept and template properties *)

Lemma empty_select_row_omitted_witness :
  @rowTemplate plainHost (plainActor None) bareDaily (emptyRow "choice" TSelect) = None /\
  @rowTemplate plainHost (plainActor None) bareDaily (emptyRow "luck" TRandom) = None /\
  is_Some (@rowTemplate plainHost (plainActor None) bareDaily (emptyRow "free" TCombo)) /\
  tpl_row <$> idata_rows (@getData plainHost (plainActor None) [bareDaily]) = ["free"].
Proof.
  destruct (@empty_select_row_omitted plainHost (plainActor None))
    as (Hskip & _ & Hcombo).
  split; [apply Hskip; [by left|reflexivity]|].
  split; [apply Hskip; [by right|reflexivity]|].
  split; [apply Hcombo; [reflexivity|discriminate]|].
  reflexivity.
Defined.

Lemma accept_blocked_by_blank_row_witness :
  (exists emptyRows,
      emptyRows <> [] /\
      (forall el, el ∈ emptyRows <->
                  el ∈ paddedForm /\ el_empty el = false /\ trim (el_value el) = "") /\
      @onAccept plainHost (plainActor None) {[ "library" := libraryDaily ]} paddedForm
      = (EClearEmptyMarks :: EWarn "interface.error.empty"
           :: ((fun el => EMarkEmpty (el_row el)) <$> emptyRows), true) /\
      Forall (fun e => isCommitEffect e = false)
        (@onAccept plainHost (plainActor None) {[ "library" := libraryDaily ]}
           paddedForm).1) /\
  @onAccept plainHost (plainActor None) {[ "library" := libraryDaily ]} paddedForm
  = ([EClearEmptyMarks; EWarn "interface.error.empty"; EMarkEmpty "language"], true).
Proof.
  split; [|vm_compute; reflexivity].
  apply (@accept_blocked_by_blank_row plainHost).
  eexists. split; [right; left|]. split; reflexivity.
Defined.

Lemma only_saved_rows_persist_witness :
  let updates :=
    flagUpdate {[ "library" := {[ "pick" := RowString "fireball" ]} ]}
      (JObj []) ["item-0"; "item-1"] in
  (forall daily rows row value,
      updates !! daily = Some (FlagRows rows) ->
      rows !! row = Some value ->
      exists el, el ∈ mixedForm /\ el_daily el = daily /\ el_row el = row /\
                 el_save el = true /\
                 el_type el <> TAlert /\ el_type el <> TNotify /\
                 @rowValue plainHost el = Some value) /\
  (forall rows, updates !! "library" = Some (FlagRows rows) ->
                rows !! "memo" = None /\ rows !! "warning" = None /\
                rows !! "note" = None).
Proof.
  intros updates.
  destruct (@only_saved_rows_persist plainHost (plainActor None)
              {[ "library" := libraryDaily ]} mixedForm
              (@processDailies plainHost (plainActor None)
                 {[ "library" := libraryDaily ]} mixedForm).1
              updates) as (Hwritten & Hnone & _).
  - vm_compute. reflexivity.
  - vm_compute. do 2 right. left.
  - split; [exact Hwritten|].
    intros rows Hrows. repeat split; (eapply Hnone; [|exact Hrows]);
      intros el Hel Hd Hr; unfold mixedForm in Hel;
      rewrite !elem_of_cons, elem_of_nil in Hel;
      destruct Hel as [->|[->|[->|[->|[]]]]]; simpl in *; auto; discriminate.
Defined.

(** ** Orphan spells *)

Section orphan_facts.
Context `{Host}.

Lemma orphanEntrySource_identifier actor entryIdentifier source :
  orphanEntrySource actor entryIdentifier = Some source ->
  getProperty source ["type"] = JStr "spellcastingEntry" /\
  getProperty source ["system"; "prepared"; "value"] = JStr "innate" /\
  getFlagProperty source ["identifier"] = JStr entryIdentifier.
Proof.
  unfold orphanEntrySource.
  destruct (actor_highestSpellcasting actor) as [[tradition statistic]|],
    (actor_highestSynthetic actor) as [synthetic|];
    try destruct (stat_mod synthetic <=? stat_mod statistic);
    intros [= <-]; repeat split.
Qed.

(** However many spells are tagged in a cycle, the sources handed to the
    item store are the added sources, each tagged or left alone, followed
    by at most one synthesized entry, which is innate and carries the
    shared identifier. *)
Lemma finalSources_one_entry actor addedItems :
  exists extra,
    finalSources actor addedItems
    = ((fun source => (tagSource randomID source).1) <$> addedItems) ++ extra /\
    (extra = [] \/
     exists entry,
       extra = [entry] /\
       getProperty entry ["type"] = JStr "spellcastingEntry" /\
       getProperty entry ["system"; "prepared"; "value"] = JStr "innate" /\
       getFlagProperty entry ["identifier"] = JStr randomID).
Proof.
  unfold finalSources. rewrite <- list_fmap_compose.
  destruct (existsb _ _).
  - destruct (orphanEntrySource actor randomID) as [entry|] eqn:Hentry.
    + exists [entry]. split; [reflexivity|]. right. exists entry.
      split; [reflexivity|]. by apply orphanEntrySource_identifier in Hentry.
    + exists []. rewrite app_nil_r. auto.
  - exists []. rewrite app_nil_r. auto.
Qed.

End orphan_facts.

(** C1 (the code at the failing input): a spell added with an explicit
    casting location, [system.location.value] being the entry it was
    placed in, and with no identifier flag. The loop over the added
    sources reads the location under a misspelt path, finds nothing and
    tags the spell with the shared identifier all the same; an innate
    entry is then made for it and the update that follows moves the spell
    out of its entry into the new one. *)
Theorem placed_spell_taken_for_orphan :
  getProperty placedSpell ["system"; "location"; "value"] = JStr "entry-1" /\
  getFlagProperty placedSpell ["identifier"] = JUndefined /\
  (tagSource (@randomID plainHost) placedSpell).2 = true /\
  (exists spell entry,
      @finalSources plainHost (plainActor None) [placedSpell] = [spell; entry] /\
      getFlagProperty spell ["identifier"] = JStr (@randomID plainHost) /\
      getProperty entry ["type"] = JStr "spellcastingEntry" /\
      getFlagProperty entry ["identifier"] = JStr (@randomID plainHost)) /\
  EUpdateItems
    [ {| upd_id := "item-0";
         upd_fields := [ ("system.location.value", JStr "item-1");
                         ("system.location.heightenedLevel", JUndefined) ] |} ]
    ∈ (@processDailies plainHost (plainActor None) {[ "library" := libraryDaily ]}
         [selectElement "library" "pick" "fireball"]).1.
Proof.
  split; [reflexivity|]. split; [reflexivity|]. split; [reflexivity|]. split.
  - eexists _, _. split; [vm_compute; reflexivity|]. repeat split.
  - vm_compute. right. left.
Qed.

(** ** Failing callbacks *)

Section callback_facts.
Context `{Host}.

(** A callback that throws before returning is caught: as long as every
    daily gathered from the form is in the catalog and no callback's
    promise rejects, the joined wait is fulfilled. *)
Lemma runDailies_fulfilled catalog dailies ctx :
  Forall (fun entry =>
            exists daily, catalog !! entry.1 = Some daily /\
                          forall err, run_completion (daily_process daily entry.2)
                                      <> Rejects err) dailies ->
  (runDailies catalog dailies ctx).2 = Fulfilled.
Proof.
  revert ctx. induction dailies as [|[key rows] rest IH]; intros ctx Hall; [done|].
  inversion Hall as [|? ? (daily & Hd & Hc) Hrest]; subst. simpl in *.
  rewrite Hd. specialize (IH (foldl applyOp ctx (run_ops (daily_process daily rows))) Hrest).
  destruct (runDailies catalog rest _) as [[ctx' effects] status].
  simpl in IH. subst status.
  destruct (run_completion (daily_process daily rows)) eqn:Hrun; try done.
  exfalso. by eapply Hc.
Qed.

Lemma runDailies_thrown_logged catalog dailies ctx key rows daily err :
  (key, rows) ∈ dailies ->
  catalog !! key = Some daily ->
  run_completion (daily_process daily rows) = Throws err ->
  (runDailies catalog dailies ctx).2 = Fulfilled ->
  EConsoleError ("The error occured during processing of " +:+ daily_key daily)
    ∈ (runDailies catalog dailies ctx).1.2.
Proof.
  revert ctx. induction dailies as [|[key' rows'] rest IH]; intros ctx Hin Hd Hrun;
    [inversion Hin|].
  simpl. destruct (catalog !! key') as [daily'|] eqn:Hd'; [|done].
  apply elem_of_cons in Hin as [[= <- <-]|Hin].
  - rewrite Hd in Hd'. injection Hd' as <-.
    destruct (runDailies catalog rest _) as [[ctx' effects] status].
    rewrite Hrun. simpl. intros _. set_solver.
  - specialize (IH (foldl applyOp ctx (run_ops (daily_process daily' rows'))) Hin Hd Hrun).
    destruct (runDailies catalog rest _) as [[ctx' effects] status]. simpl in *.
    destruct (run_completion (daily_process daily' rows')); simpl.
    + exact IH.
    + intros Hs. specialize (IH Hs). set_solver.
    + destruct status; done.
Qed.

End callback_facts.

(** C2 (the code at the failing input): two dailies, the first with a
    [process] that fails. When it is an [async] function that throws, its
    promise rejects: the [try] around the call has returned by then, the
    error is not caught and not logged with the daily's key, the joined
    wait rejects, and nothing of the commit is reached: no item call, no
    flag update, no chat summary, and the form is not closed. The same
    failure thrown by a plain function is caught and logged with the key,
    and the commit goes through with the other daily's message. *)
Theorem rejected_callback_stops_commit :
  @onAccept plainHost (plainActor None) (brokenCatalog (Rejects "boom")) brokenForm
  = ([EClearEmptyMarks; ELock], false) /\
  (let thrown :=
     @onAccept plainHost (plainActor None) (brokenCatalog (Throws "boom")) brokenForm in
   thrown.2 = true /\
   EConsoleError "The error occured during processing of broken" ∈ thrown.1 /\
   (exists updates, EUpdateFlag updates ∈ thrown.1) /\
   (exists content, EChatMessage content ∈ thrown.1) /\
   last thrown.1 = Some EClose).
Proof.
  split; [vm_compute; reflexivity|].
  split; [vm_compute; reflexivity|].
  split; [vm_compute; do 4 right; left|].
  split; [eexists; vm_compute; do 5 right; left|].
  split; [eexists; vm_compute; do 6 right; left|].
  vm_compute. reflexivity.
Qed.

Lemma chat_summary_order_witness :
  exists before,
    (@processDailies plainHost (plainActor None) {[ "summary" := summaryDaily ]}
       summaryForm).1
    = (before
         ++ [EChatMessage
               ("<div class=" +:+ dq +:+ "pf2e-dailies-summary" +:+ dq
                  +:+ ">message.changes"
                  +:+ "<hr /><p><strong>message.gained</strong></p><p> Acrobatics</p>"
                  +:+ "<hr /><p><strong>message.gained</strong></p><p> Toughness</p>"
                  +:+ "<hr /><p>Rested.</p></div>")])%list /\
    Forall (fun e => forall content, e <> EChatMessage content) before.
Proof.
  destruct (@chat_summary_order plainHost) as (_ & _ & _ & _ & _ & Hlast).
  destruct (Hlast (plainActor None) {[ "summary" := summaryDaily ]} summaryForm
              (@processDailies plainHost (plainActor None)
                 {[ "summary" := summaryDaily ]} summaryForm).1)
    as (collected & runs & calls & before & Hcollected & Hruns & Hcalls & Hposted
        & Hbefore).
  { vm_compute. reflexivity. }
  exists before. split; [|exact Hbefore].
  cbv zeta in Hposted. rewrite Hposted. do 3 f_equal.
  assert (collected = {| col_flags := {[ "summary" := {[ "pick" := RowString "x" ]} ]};
                         col_dailies := [("summary", {[ "pick" := RowString "x" ]})] |})
    as ->.
  { vm_compute in Hcollected. injection Hcollected as <-. vm_compute. reflexivity. }
  apply Forall2_cons_inv_l in Hruns as (run & runs' & (daily & Hdaily & ->) & Hnil & ->).
  apply Forall2_nil_inv_l in Hnil as ->.
  simpl in Hdaily. rewrite lookup_singleton in Hdaily. injection Hdaily as <-.
  apply Interleaved_singleton in Hcalls as ->.
  vm_compute. reflexivity.
Defined.

(** * Further properties *)

(** ** Objects and paths *)

Lemma assocGet_assocSet_eq {A} k (v : A) fields :
  assocGet k (assocSet k v fields) = Some v.
Proof.
  induction fields as [|[k' v'] fields IH]; simpl.
  - rewrite String.eqb_refl. reflexivity.
  - destruct (String.eqb k k') eqn:Hk; simpl.
    + rewrite String.eqb_refl. reflexivity.
    + rewrite Hk. exact IH.
Qed.

Lemma assocGet_assocSet_ne {A} k k' (v : A) fields :
  k <> k' -> assocGet k' (assocSet k v fields) = assocGet k' fields.
Proof.
  intros Hne. induction fields as [|[k0 v0] fields IH]; simpl.
  - destruct (String.eqb k' k) eqn:Hk; [|reflexivity].
    apply String.eqb_eq in Hk. congruence.
  - destruct (String.eqb k k0) eqn:Hk; simpl.
    + apply String.eqb_eq in Hk. subst k0.
      destruct (String.eqb k' k) eqn:Hk'; [|reflexivity].
      apply String.eqb_eq in Hk'. congruence.
    + destruct (String.eqb k' k0); [reflexivity|exact IH].
Qed.

Lemma assocSet_keys {A} k (v : A) fields :
  fst <$> assocSet k v fields
  = if bool_decide (k ∈ fst <$> fields) then fst <$> fields
    else (fst <$> fields) ++ [k].
Proof.
  induction fields as [|[k' v'] fields IH]; [reflexivity|].
  cbn [assocSet]. destruct (String.eqb k k') eqn:Hk.
  - apply String.eqb_eq in Hk. subst k'. rewrite !fmap_cons. cbn [fst].
    rewrite bool_decide_eq_true_2 by left. reflexivity.
  - apply String.eqb_neq in Hk. rewrite !fmap_cons. cbn [fst]. rewrite IH.
    destruct (bool_decide (k ∈ fst <$> fields)) eqn:Hin.
    + apply bool_decide_eq_true in Hin.
      rewrite bool_decide_eq_true_2 by (by right). reflexivity.
    + apply bool_decide_eq_false in Hin.
      rewrite bool_decide_eq_false_2; [reflexivity|].
      intros [?|?]%elem_of_cons; done.
Qed.

Lemma assocGet_Some_elem {A} k (v : A) fields :
  assocGet k fields = Some v -> (k, v) ∈ fields.
Proof.
  induction fields as [|[k' v'] fields IH]; simpl; [done|].
  destruct (String.eqb k k') eqn:Hk.
  - apply String.eqb_eq in Hk. intros [= ->]. subst. left.
  - intros Hv. right. by apply IH.
Qed.

Lemma assocGet_NoDup_elem {A} k (v : A) fields :
  NoDup (fst <$> fields) -> (k, v) ∈ fields -> assocGet k fields = Some v.
Proof.
  induction fields as [|[k' v'] fields IH]; simpl; intros Hnd Hin; [inversion Hin|].
  apply NoDup_cons in Hnd as [Hnotin Hnd].
  apply elem_of_cons in Hin as [[= <- <-]|Hin].
  - rewrite String.eqb_refl. reflexivity.
  - destruct (String.eqb k k') eqn:Hk; [|by apply IH].
    apply String.eqb_eq in Hk. subst k'. exfalso. apply Hnotin.
    apply list_elem_of_fmap. exists (k, v). done.
Qed.

(** What was written under a path is read back under it. *)
Lemma getProperty_setProperty_eq object key value :
  writable object key = true ->
  getProperty (setProperty object key value) key = value.
Proof.
  revert object. induction key as [|p key IH]; intros object Hw; simpl; [done|].
  destruct object as [| | | | | |fields]; try done. simpl in *.
  rewrite assocGet_assocSet_eq. apply IH.
  destruct (assocGet p fields); simpl; [done|]. by destruct key.
Qed.

(** Writing under a path leaves what is read under a path that parts
    ways with it. *)
Lemma getProperty_setProperty_diverge object key1 key2 value :
  diverge key1 key2 = true ->
  getProperty (setProperty object key1 value) key2 = getProperty object key2.
Proof.
  revert object key2. induction key1 as [|p1 key1 IH]; intros object key2 Hd; [done|].
  destruct key2 as [|p2 key2]; [done|]. simpl in Hd.
  destruct object as [| | | | | |fields]; try done. simpl.
  destruct (String.eqb p1 p2) eqn:Hp.
  - apply String.eqb_eq in Hp. subst p2. rewrite assocGet_assocSet_eq.
    rewrite (IH _ _ Hd). destruct (assocGet p1 fields); simpl; [done|].
    destruct key2; [by destruct key1|done].
  - apply String.eqb_neq in Hp. rewrite assocGet_assocSet_ne by done. done.
Qed.

Lemma writable_setProperty_diverge object key1 key2 value :
  diverge key1 key2 = true ->
  writable object key2 = true ->
  writable (setProperty object key1 value) key2 = true.
Proof.
  revert object key2. induction key1 as [|p1 key1 IH]; intros object key2 Hd; [done|].
  destruct key2 as [|p2 key2]; [done|]. simpl in Hd.
  destruct object as [| | | | | |fields]; try done. simpl.
  destruct (String.eqb p1 p2) eqn:Hp.
  - apply String.eqb_eq in Hp. subst p2. rewrite assocGet_assocSet_eq.
    intros Hw. apply (IH _ _ Hd).
    destruct (assocGet p1 fields); simpl; [done|].
    destruct key2; [by destruct key1|done].
  - apply String.eqb_neq in Hp. rewrite assocGet_assocSet_ne by done. done.
Qed.

(** ** Group markers *)

Section options_facts.
Context `{Host}.

Lemma templateOptions_closed options openedGroups :
  (forall g, OptionGroup g ∈ options -> g <> "") ->
  openedGroups = [] \/ (exists g, openedGroups = [g] /\ g <> "") ->
  groupsClosed (negb (bool_decide (openedGroups = [])))
               (templateOptions options openedGroups) = true.
Proof.
  revert openedGroups.
  induction options as [|o options IH]; intros openedGroups Hnames Hopen.
  - destruct Hopen as [->|(g & -> & _)]; reflexivity.
  - assert (Hrest : forall g, OptionGroup g ∈ options -> g <> "")
      by (intros g Hg; apply Hnames; by right).
    destruct o as [group|value label unique skipUnique].
    + assert (Hgroup : group <> "") by (apply Hnames; left).
      specialize (IH [group] Hrest (or_intror (ex_intro _ group (conj eq_refl Hgroup)))).
      destruct Hopen as [->|(g & -> & Hg)]; simpl in *.
      * exact IH.
      * unfold truthyStr. apply String.eqb_neq in Hg. rewrite Hg. simpl. exact IH.
    + simpl. by apply IH.
Qed.

Lemma templateOptions_strip options openedGroups :
  omap templateOptionOf (templateOptions options openedGroups)
  = (fun o => match o with
              | OptionGroup group => OptionGroup (i18n_localize group)
              | OptionValue value label unique skipUnique =>
                  OptionValue value (i18n_localize label) unique skipUnique
              end) <$> options.
Proof.
  revert openedGroups. induction options as [|o options IH]; intros openedGroups.
  - simpl. induction openedGroups as [|g gs IHg]; [done|]. exact IHg.
  - destruct o as [group|value label unique skipUnique]; simpl.
    + destruct (from_option truthyStr false (last openedGroups)); simpl;
        rewrite IH; done.
    + rewrite IH. done.
Qed.

(** A group-end marker stands right before a heading or at the very
    end. *)
Lemma templateOptions_marker options openedGroups i :
  (length openedGroups <= 1)%nat ->
  templateOptions options openedGroups !! i = Some TplGroupEnd ->
  templateOptions options openedGroups !! S i = None \/
  exists group, templateOptions options openedGroups !! S i
                = Some (TplOption (OptionGroup group)).
Proof.
  revert openedGroups i.
  induction options as [|o options IH]; intros openedGroups i Hlen Hi.
  - left. destruct openedGroups as [|g [|g' gs]]; simpl in *; [done| |lia].
    by destruct i.
  - destruct o as [group|value label unique skipUnique]; cbn [templateOptions] in *.
    + assert (Hrest : (length (removelast openedGroups ++ [group]) <= 1)%nat).
      { destruct openedGroups as [|g [|g' gs]]; simpl in *; lia. }
      destruct (from_option truthyStr false (last openedGroups)); simpl in *.
      * destruct i as [|[|i]]; simpl in *; [right; eauto|done|].
        by apply IH.
      * destruct i as [|i]; simpl in *; [done|]. by apply IH.
    + destruct i as [|i]; simpl in *; [done|]. by apply IH.
Qed.

End options_facts.

(** X1: the options of a row template are the row's options, in their
    order, each with its value and marks as they were and with its label
    or heading localized, with group-end markers put in between. A
    marker stands only right before a heading or at the very end. When
    no heading has an empty name the markers nest properly: a group is
    closed before the next heading and after the last option, and no
    marker comes without an open group. *)
Theorem template_groups_closed `{Host} (options : list DailyRowSelectOption) :
  omap templateOptionOf (templateOptions options [])
  = (fun o => match o with
              | OptionGroup group => OptionGroup (i18n_localize group)
              | OptionValue value label unique skipUnique =>
                  OptionValue value (i18n_localize label) unique skipUnique
              end) <$> options /\
  (forall i, templateOptions options [] !! i = Some TplGroupEnd ->
             templateOptions options [] !! S i = None \/
             exists group, templateOptions options [] !! S i
                           = Some (TplOption (OptionGroup group))) /\
  ((forall g, OptionGroup g ∈ options -> g <> "") ->
   groupsClosed false (templateOptions options []) = true) /\
  isGroupHeading <$> omap templateOptionOf (templateOptions options [])
  = isGroupHeading <$> options /\
  length (omap templateOptionOf (templateOptions options [])) = length options.
Proof.
  split; [apply templateOptions_strip|]. split; [|split; [|split]].
  - intros i. apply templateOptions_marker. simpl. lia.
  - intros Hnames. apply (templateOptions_closed options []); auto.
  - rewrite templateOptions_strip, <- list_fmap_compose.
    apply list_fmap_ext. intros i [] _; reflexivity.
  - rewrite templateOptions_strip. apply length_fmap.
Qed.

Lemma template_groups_closed_witness :
  @templateOptions plainHost groupedOptions []
  = [ TplOption (OptionGroup "Trained");
      TplOption (OptionValue "acr" "Acrobatics" None None);
      TplOption (OptionValue "ath" "Athletics" None None);
      TplGroupEnd;
      TplOption (OptionGroup "Expert");
      TplOption (OptionValue "ste" "Stealth" None None);
      TplGroupEnd ] /\
  omap templateOptionOf (@templateOptions plainHost groupedOptions []) = groupedOptions /\
  groupsClosed false (@templateOptions plainHost groupedOptions []) = true.
Proof.
  split; [reflexivity|].
  destruct (@template_groups_closed plainHost groupedOptions)
    as (Hoptions & _ & Hclosed & _).
  split; [rewrite Hoptions; reflexivity|].
  apply Hclosed. intros g Hg. unfold groupedOptions in Hg.
  rewrite !elem_of_cons, elem_of_nil in Hg.
  destruct Hg as [Hg|[Hg|[Hg|[Hg|[Hg|[]]]]]]; inversion Hg; discriminate.
Defined.

(** ** Flat rows and groups *)

Section layout_facts.
Context `{Host}.

Lemma flatRow_Some template t :
  flatRow template = Some t ->
  exists row, dtpl_rows template = [row] /\ tpl_type row <> TAlert /\
              t = setTemplateLabel row (dtpl_label template).
Proof.
  unfold flatRow. destruct (dtpl_rows template) as [|row [|]]; try done.
  case_bool_decide; [done|]. intros [= <-]. eauto.
Qed.

Lemma flatRow_None template :
  flatRow template = None ->
  dtpl_rows template <> [] ->
  (2 <= length (dtpl_rows template))%nat \/
  exists row, dtpl_rows template = [row] /\ tpl_type row = TAlert.
Proof.
  unfold flatRow. destruct (dtpl_rows template) as [|row [|]]; try done.
  - case_bool_decide; [|done]. intros _ _. right. eauto.
  - intros _ _. left. simpl. lia.
Qed.

Lemma dailyTemplate_Some actor daily template :
  dailyTemplate actor daily = Some template ->
  actor_disabledDailies actor !! daily_key daily <> Some true /\
  dtpl_label template = daily_label daily /\
  dtpl_rows template = omap (rowTemplate actor daily) (daily_rows daily) /\
  dtpl_rows template <> [].
Proof.
  unfold dailyTemplate.
  destruct (actor_disabledDailies actor !! daily_key daily) as [[]|]; simpl; try done;
    case_bool_decide; try done; intros [= <-]; done.
Qed.

(** Splitting the templates into flat rows and groups loses no row and
    makes none up. *)
Lemma split_length (templates : list DailyTemplate) :
  (length (omap flatRow templates)
   + length (filter (fun t => flatRow t = None /\ dtpl_rows t <> []) templates
               ≫= dtpl_rows))%nat
  = length (templates ≫= dtpl_rows).
Proof.
  induction templates as [|t templates IH]; [reflexivity|].
  rewrite bind_cons, length_app, <- IH. cbn [omap list_omap].
  rewrite filter_cons.
  destruct (flatRow t) as [row|] eqn:Hflat.
  - apply flatRow_Some in Hflat as (row0 & Hrows & _). rewrite Hrows.
    rewrite decide_False by (intros [? _]; done). simpl. lia.
  - destruct (decide (dtpl_rows t = [])) as [Hnil|Hne].
    + rewrite decide_False by (intros [_ ?]; done). rewrite Hnil. simpl. lia.
    + rewrite decide_True by done. rewrite bind_cons, length_app. lia.
Qed.

(** The flat rows and the groups, read off the dailies. *)
Lemma flat_rows_of actor (dailies : list PreparedDaily) :
  omap flatRow (omap (dailyTemplate actor) dailies)
  = omap (fun daily =>
            match (if from_option id false
                        (actor_disabledDailies actor !! daily_key daily) then []
                   else omap (rowTemplate actor daily) (daily_rows daily)) with
            | [row] =>
                if bool_decide (tpl_type row = TAlert) then None
                else Some (setTemplateLabel row (daily_label daily))
            | _ => None
            end) dailies.
Proof.
  induction dailies as [|daily dailies IH]; [reflexivity|].
  cbn [omap list_omap]. unfold dailyTemplate at 1.
  destruct (from_option id false (actor_disabledDailies actor !! daily_key daily));
    [exact IH|].
  destruct (omap (rowTemplate actor daily) (daily_rows daily)) as [|row [|row' rows]];
    cbn; [exact IH| |by rewrite IH].
  destruct (bool_decide (tpl_type row = TAlert)); by rewrite IH.
Qed.

Lemma groups_of actor (dailies : list PreparedDaily) :
  filter (fun t => flatRow t = None /\ dtpl_rows t <> []) (omap (dailyTemplate actor) dailies)
  = omap (fun daily =>
            match (if from_option id false
                        (actor_disabledDailies actor !! daily_key daily) then []
                   else omap (rowTemplate actor daily) (daily_rows daily)) with
            | [] => None
            | [row] =>
                if bool_decide (tpl_type row = TAlert)
                then Some {| dtpl_label := daily_label daily; dtpl_rows := [row] |}
                else None
            | rows => Some {| dtpl_label := daily_label daily; dtpl_rows := rows |}
            end) dailies.
Proof.
  induction dailies as [|daily dailies IH]; [reflexivity|].
  cbn [omap list_omap]. unfold dailyTemplate at 1.
  destruct (from_option id false (actor_disabledDailies actor !! daily_key daily));
    [exact IH|].
  destruct (omap (rowTemplate actor daily) (daily_rows daily)) as [|row [|row' rows]];
    cbn [bool_decide decide_rel]; [exact IH| |].
  - rewrite bool_decide_eq_false_2 by done. rewrite filter_cons.
    destruct (decide (tpl_type row = TAlert)) as [Halert|Halert].
    + rewrite decide_True.
      2: { split; [|done]. unfold flatRow. cbn. by rewrite bool_decide_eq_true_2. }
      rewrite bool_decide_eq_true_2 by done. by rewrite IH.
    + rewrite decide_False.
      2: { intros [Hflat _]. unfold flatRow in Hflat. cbn in Hflat.
           by rewrite bool_decide_eq_false_2 in Hflat. }
      rewrite bool_decide_eq_false_2 by done. exact IH.
  - rewrite bool_decide_eq_false_2 by done. rewrite filter_cons.
    rewrite decide_True by done. by rewrite IH.
Qed.

Lemma getData_rows_of actor (dailies : list PreparedDaily) :
  idata_rows (getData actor dailies)
  ≡ₚ omap (fun daily =>
             match (if from_option id false
                         (actor_disabledDailies actor !! daily_key daily) then []
                    else omap (rowTemplate actor daily) (daily_rows daily)) with
             | [row] =>
                 if bool_decide (tpl_type row = TAlert) then None
                 else Some (setTemplateLabel row (daily_label daily))
             | _ => None
             end) dailies.
Proof. unfold getData. cbn [idata_rows]. rewrite sortBy_Permutation. by rewrite flat_rows_of. Qed.

Lemma getData_groups_of actor (dailies : list PreparedDaily) :
  idata_groups (getData actor dailies)
  ≡ₚ omap (fun daily =>
             match (if from_option id false
                         (actor_disabledDailies actor !! daily_key daily) then []
                    else omap (rowTemplate actor daily) (daily_rows daily)) with
             | [] => None
             | [row] =>
                 if bool_decide (tpl_type row = TAlert)
                 then Some {| dtpl_label := daily_label daily; dtpl_rows := [row] |}
                 else None
             | rows => Some {| dtpl_label := daily_label daily; dtpl_rows := rows |}
             end) dailies.
Proof. unfold getData. cbn [idata_groups]. rewrite sortBy_Permutation. by rewrite groups_of. Qed.

Lemma existsb_Permutation {A} (f : A -> bool) (l l' : list A) :
  l ≡ₚ l' -> existsb f l = existsb f l'.
Proof.
  intros Hperm. apply eq_true_iff_eq. rewrite !existsb_exists.
  split; intros (x & Hx & Hf); exists x; split; try done;
    apply list_elem_of_In; apply list_elem_of_In in Hx.
  - by rewrite <- Hperm.
  - by rewrite Hperm.
Qed.

Lemma nil_Permutation_decide {A} (l l' : list A)
    `{!Decision (l = [])} `{!Decision (l' = [])} :
  l ≡ₚ l' -> bool_decide (l = []) = bool_decide (l' = []).
Proof.
  intros Hperm. apply bool_decide_ext. split; intros ->.
  - symmetry. by apply Permutation_nil_l.
  - by apply Permutation_nil_r.
Qed.

(** The order of the dailies decides the order of what is shown and
    nothing else. *)
Lemma getData_Permutation actor (dailies dailies' : list PreparedDaily) :
  dailies' ≡ₚ dailies ->
  idata_rows (getData actor dailies') ≡ₚ idata_rows (getData actor dailies) /\
  idata_groups (getData actor dailies') ≡ₚ idata_groups (getData actor dailies) /\
  idata_hasDailies (getData actor dailies') = idata_hasDailies (getData actor dailies) /\
  idata_hasAlert (getData actor dailies') = idata_hasAlert (getData actor dailies) /\
  idata_canAccept (getData actor dailies') = idata_canAccept (getData actor dailies).
Proof.
  intros Hperm.
  assert (Hrows : idata_rows (getData actor dailies')
                  ≡ₚ idata_rows (getData actor dailies))
    by (by rewrite !getData_rows_of, Hperm).
  assert (Hgroups : idata_groups (getData actor dailies')
                    ≡ₚ idata_groups (getData actor dailies))
    by (by rewrite !getData_groups_of, Hperm).
  assert (Halert : idata_hasAlert (getData actor dailies')
                   = idata_hasAlert (getData actor dailies)).
  { unfold getData. simpl. apply existsb_Permutation. by rewrite Hperm. }
  assert (Hdailies : idata_hasDailies (getData actor dailies')
                     = idata_hasDailies (getData actor dailies)).
  { unfold getData in *. simpl in *.
    by rewrite (nil_Permutation_decide _ _ Hrows), (nil_Permutation_decide _ _ Hgroups). }
  repeat split; try done.
  unfold getData in *. simpl in *. by rewrite Hdailies, Halert.
Qed.

End layout_facts.

(** X2: the flat rows [getData] returns are in descending display order
    and the groups in ascending number of rows. *)
Theorem getData_sorted `{Host} (actor : CharacterPF2e) (dailies : list PreparedDaily) :
  StronglySorted (fun a b => tpl_order b <= tpl_order a)
                 (idata_rows (getData actor dailies)) /\
  StronglySorted (fun a b => (length (dtpl_rows a) <= length (dtpl_rows b))%nat)
                 (idata_groups (getData actor dailies)).
Proof.
  unfold getData. simpl. split.
  - eapply StronglySorted_impl; [|apply sortBy_sorted].
    + intros a b Hab. simpl in Hab. by apply Z.ltb_ge.
    + intros a b ?%Z.ltb_lt. apply Z.ltb_ge. lia.
    + intros a b c ?%Z.ltb_ge ?%Z.ltb_ge. apply Z.ltb_ge. lia.
  - eapply StronglySorted_impl; [|apply sortBy_sorted].
    + intros a b Hab. simpl in Hab. by apply Nat.ltb_ge.
    + intros a b ?%Nat.ltb_lt. apply Nat.ltb_ge. lia.
    + intros a b c ?%Nat.ltb_ge ?%Nat.ltb_ge. apply Nat.ltb_ge. lia.
Qed.

(** X3: what [getData] shows is made of the row templates of the
    enabled dailies, each daily once. A daily is shown flat exactly when
    it gives a single row that is no alert, and the row then carries the
    daily's label; a daily that gives several rows, or a single alert,
    is shown as a group with its label and all its rows; a disabled daily
    and one that gives no row are not shown. So every group has at least
    two rows or is a single alert, and the flat rows and the rows of the
    groups are as many as the row templates of the enabled dailies. The
    order in which the dailies complete changes what is shown in nothing
    but the order of what is shown. *)
Theorem getData_layout `{Host} (actor : CharacterPF2e) (dailies : list PreparedDaily) :
  let shown := fun daily =>
    if from_option id false (actor_disabledDailies actor !! daily_key daily) then []
    else omap (rowTemplate actor daily) (daily_rows daily) in
  idata_rows (getData actor dailies)
  ≡ₚ omap (fun daily =>
             match shown daily with
             | [row] =>
                 if bool_decide (tpl_type row = TAlert) then None
                 else Some (setTemplateLabel row (daily_label daily))
             | _ => None
             end) dailies /\
  idata_groups (getData actor dailies)
  ≡ₚ omap (fun daily =>
             match shown daily with
             | [] => None
             | [row] =>
                 if bool_decide (tpl_type row = TAlert)
                 then Some {| dtpl_label := daily_label daily; dtpl_rows := [row] |}
                 else None
             | rows => Some {| dtpl_label := daily_label daily; dtpl_rows := rows |}
             end) dailies /\
  (forall dailies',
      dailies' ≡ₚ dailies ->
      idata_rows (getData actor dailies') ≡ₚ idata_rows (getData actor dailies) /\
      idata_groups (getData actor dailies') ≡ₚ idata_groups (getData actor dailies) /\
      idata_hasDailies (getData actor dailies') = idata_hasDailies (getData actor dailies) /\
      idata_hasAlert (getData actor dailies') = idata_hasAlert (getData actor dailies) /\
      idata_canAccept (getData actor dailies')
      = idata_canAccept (getData actor dailies)) /\
  (forall t, t ∈ idata_rows (getData actor dailies) ->
             tpl_type t <> TAlert /\
             exists daily row,
               daily ∈ dailies /\
               omap (rowTemplate actor daily) (daily_rows daily) = [row] /\
               t = setTemplateLabel row (daily_label daily)) /\
  (forall group, group ∈ idata_groups (getData actor dailies) ->
                 (2 <= length (dtpl_rows group))%nat \/
                 exists row, dtpl_rows group = [row] /\ tpl_type row = TAlert) /\
  (length (idata_rows (getData actor dailies))
   + length (idata_groups (getData actor dailies) ≫= dtpl_rows))%nat
  = length (renderedRows actor dailies).
Proof.
  intros shown.
  split; [apply getData_rows_of|]. split; [apply getData_groups_of|].
  split; [intros dailies' Hperm; by apply getData_Permutation|].
  unfold getData. simpl. split; [|split].
  - intros t Ht. apply sortBy_elem_of in Ht.
    apply list_elem_of_omap in Ht as (template & Htpl & Hflat).
    apply list_elem_of_omap in Htpl as (daily & Hd & Hdt).
    apply flatRow_Some in Hflat as (row & Hrows & Halert & ->).
    apply dailyTemplate_Some in Hdt as (_ & Hlabel & Hr & _).
    split; [done|]. exists daily, row. rewrite <- Hr, Hlabel. done.
  - intros group Hg. apply sortBy_elem_of in Hg.
    apply list_elem_of_filter in Hg as [[Hflat Hne] _].
    by apply flatRow_None.
  - rewrite (Permutation_length (sortBy_Permutation _ (omap flatRow _))).
    assert (Hperm : forall l : list DailyTemplate,
               sortBy (fun a b => (length (dtpl_rows b) <? length (dtpl_rows a))%nat) l
               ≫= dtpl_rows ≡ₚ l ≫= dtpl_rows)
      by (intros l; by rewrite sortBy_Permutation).
    rewrite (Permutation_length (Hperm _)). apply split_length.
Qed.

Lemma getData_layout_witness :
  (exists row, tpl_row row = "text" /\ tpl_label row = "Memo" /\
               idata_rows (@getData plainHost (plainActor None) [alertDaily; memoDaily])
               ≡ₚ [row]) /\
  (exists warn a b,
      tpl_row <$> [warn; a; b] = ["warn"; "a"; "b"] /\
      idata_groups (@getData plainHost (plainActor None) [alertDaily; memoDaily])
      ≡ₚ [ {| dtpl_label := "Watch"; dtpl_rows := [warn; a; b] |} ]) /\
  idata_rows (@getData plainHost (plainActor None) [memoDaily; alertDaily])
  ≡ₚ idata_rows (@getData plainHost (plainActor None) [alertDaily; memoDaily]).
Proof.
  pose proof (@getData_layout plainHost (plainActor None) [alertDaily; memoDaily])
    as Hlayout.
  cbv zeta in Hlayout. destruct Hlayout as (Hrows & Hgroups & Hperm & _).
  split; [|split].
  - eexists. split; [|split]; [| |rewrite Hrows; vm_compute; reflexivity]; reflexivity.
  - eexists _, _, _. split; [|rewrite Hgroups; vm_compute; reflexivity]. reflexivity.
  - apply (Hperm [memoDaily; alertDaily]). apply Permutation_swap.
Defined.

(** X4: an alert row is always shown in a group, and as soon as one is
    shown the form cannot be accepted; without an alert it can be
    accepted exactly when it shows something. A disabled daily shows
    nothing. *)
Theorem getData_alert_blocks `{Host} (actor : CharacterPF2e)
    (dailies : list PreparedDaily) :
  let data := getData actor dailies in
  (idata_hasAlert data = true <->
   exists group t, group ∈ idata_groups data /\ t ∈ dtpl_rows group /\
                   tpl_type t = TAlert) /\
  (idata_canAccept data = true <->
   (idata_rows data <> [] \/ idata_groups data <> []) /\
   idata_hasAlert data = false) /\
  (forall t, t ∈ idata_rows data \/
             (exists group, group ∈ idata_groups data /\ t ∈ dtpl_rows group) ->
             exists daily, daily ∈ dailies /\ tpl_daily t = daily_key daily /\
                           actor_disabledDailies actor !! daily_key daily <> Some true).
Proof.
  unfold getData. simpl. split; [|split].
  - rewrite existsb_exists. split.
    + intros (template & Hin & Halert). apply existsb_exists in Halert as (t & Ht & Hty).
      apply bool_decide_eq_true in Hty. apply list_elem_of_In in Hin, Ht.
      exists template, t. split; [|done].
      apply sortBy_elem_of. apply list_elem_of_filter. split; [|done]. split.
      * destruct (flatRow template) as [t'|] eqn:Hflat; [|done].
        apply flatRow_Some in Hflat as (row & Hrows & Hna & _).
        rewrite Hrows in Ht. apply list_elem_of_singleton in Ht. congruence.
      * intros Hnil. rewrite Hnil in Ht. inversion Ht.
    + intros (group & t & Hg & Ht & Hty). apply sortBy_elem_of in Hg.
      apply list_elem_of_filter in Hg as [_ Hg]. exists group.
      split; [by apply list_elem_of_In|]. apply existsb_exists. exists t.
      split; [by apply list_elem_of_In|]. by apply bool_decide_eq_true.
  - rewrite andb_true_iff, orb_true_iff, !negb_true_iff, !bool_decide_eq_false. tauto.
  - intros t [Ht|(group & Hg & Ht)].
    + apply sortBy_elem_of in Ht.
      apply list_elem_of_omap in Ht as (template & Htpl & Hflat).
      apply list_elem_of_omap in Htpl as (daily & Hd & Hdt).
      apply flatRow_Some in Hflat as (row & Hrows & _ & ->).
      pose proof (dailyTemplate_rows actor daily template row Hdt) as Hrow.
      destruct Hrow as (r & _ & Hrt); [rewrite Hrows; left|].
      apply dailyTemplate_Some in Hdt as (Hen & _).
      exists daily. split; [done|]. split; [|done].
      simpl. by apply (rowTemplate_keys _ _ _ _ Hrt).
    + apply sortBy_elem_of in Hg. apply list_elem_of_filter in Hg as [_ Hg].
      apply list_elem_of_omap in Hg as (daily & Hd & Hdt).
      destruct (dailyTemplate_rows actor daily group t Hdt Ht) as (r & _ & Hrt).
      apply dailyTemplate_Some in Hdt as (Hen & _).
      exists daily. split; [done|]. split; [|done].
      by apply (rowTemplate_keys _ _ _ _ Hrt).
Qed.

Lemma getData_alert_blocks_witness :
  (exists group t,
      group ∈ idata_groups (@getData plainHost (plainActor None) [alertDaily; memoDaily]) /\
      t ∈ dtpl_rows group /\ tpl_type t = TAlert) /\
  idata_canAccept (@getData plainHost (plainActor None) [alertDaily; memoDaily]) = false.
Proof.
  pose proof (@getData_alert_blocks plainHost (plainActor None) [alertDaily; memoDaily])
    as Hall.
  cbv zeta in Hall. destruct Hall as (Halert & Haccept & _). split.
  - apply Halert. reflexivity.
  - destruct (idata_canAccept _) eqn:Hcan; [|reflexivity].
    destruct (proj1 Haccept eq_refl) as [_ Hno]. discriminate Hno.
Defined.

(** X5: what the character has stored never shows in a row that is not
    saved: the template of a row with [save] false, and of an alert row,
    is the same whatever the stored flags are. *)
Theorem unsaved_row_ignores_flags `{Host} (actor actor' : CharacterPF2e)
    (daily : PreparedDaily) (row : DailyRow) :
  row_save row = Some false \/ row_type row = TAlert \/ row_type row = TNotify ->
  rowTemplate actor daily row = rowTemplate actor' daily row.
Proof.
  intros [Hsave|[Htype|Htype]]; unfold rowTemplate, rowIsOfType.
  - rewrite Hsave. reflexivity.
  - rewrite Htype. reflexivity.
  - rewrite Htype. reflexivity.
Qed.

Lemma unsaved_row_ignores_flags_witness :
  @rowTemplate plainHost legacyActor alertDaily (emptyRow "b" TNotify)
  = @rowTemplate plainHost (plainActor None) alertDaily (emptyRow "b" TNotify).
Proof.
  apply (@unsaved_row_ignores_flags plainHost). right. right. reflexivity.
Defined.

(** ** The migration gate, run again *)

Lemma migrationWith_cases `{Host} (catalog : list Migration) (actor : CharacterPF2e) :
  migrationWith catalog actor = (actor, None) \/
  (hasModuleFlag actor = true /\
   exists content, migrationWith catalog actor = (unsetMofuleFlag actor, Some content)) \/
  (hasModuleFlag actor = true /\
   isNewerVersion ACTOR_DAILY_SCHEMA (default "" (getSchemaFlag actor)) = true /\
   exists prompt,
     migrationWith catalog actor
     = (setFlag actor "schema" (FlagSchema ACTOR_DAILY_SCHEMA), prompt)).
Proof.
  unfold migrationWith.
  destruct (hasModuleFlag actor) eqn:Hflag; simpl; [|by left].
  destruct (isNewerVersion ACTOR_DAILY_SCHEMA (default "" (getSchemaFlag actor)))
    eqn:Hnewer; simpl; [|by left].
  destruct (applyMigrations actor _ catalog false []) as [reset messages].
  destruct reset.
  - right. left. split; [done|]. rewrite bool_decide_eq_false_2 by done. eauto.
  - right. right. split; [done|]. split; [done|]. case_bool_decide; eauto.
Qed.

(** X6: the migration gate settles in one run: run again on the character
    it leaves, it changes nothing and prompts nothing. A run that prompts
    its dialog has changed the character's flags, and a run that removes
    the flags always prompts. *)
Theorem migration_settles `{Host} (catalog : list Migration) (actor : CharacterPF2e) :
  migrationWith catalog (migrationWith catalog actor).1
  = ((migrationWith catalog actor).1, None) /\
  ((migrationWith catalog actor).2 <> None ->
   actor_flags (migrationWith catalog actor).1 <> actor_flags actor) /\
  (actor_flags actor <> None ->
   actor_flags (migrationWith catalog actor).1 = None ->
   is_Some (migrationWith catalog actor).2).
Proof.
  destruct (migrationWith_cases catalog actor)
    as [Hsame|[(Hflag & content & Hreset)|(Hflag & Hnewer & prompt & Hstamp)]].
  - rewrite Hsame. simpl. split; [exact Hsame|]. split; done.
  - rewrite Hreset. simpl. split; [|split].
    + reflexivity.
    + intros _ Heq. apply bool_decide_eq_true in Hflag as [flags Hflags].
      rewrite Hflags in Heq. done.
    + eauto.
  - rewrite Hstamp. simpl. split; [|split].
    + unfold migrationWith, hasModuleFlag, getSchemaFlag, setFlag. simpl.
      rewrite lookup_insert_eq. simpl. reflexivity.
    + intros _ Heq. unfold getSchemaFlag in Hnewer. rewrite <- Heq in Hnewer.
      simpl in Hnewer. rewrite lookup_insert_eq in Hnewer. simpl in Hnewer.
      discriminate.
    + intros _ Hnone. discriminate.
Qed.

Lemma migration_settles_witness :
  @migration plainHost (@migration plainHost legacyActor).1
  = ((@migration plainHost legacyActor).1, None) /\
  actor_flags (@migration plainHost legacyActor).1 <> actor_flags legacyActor /\
  is_Some (@migration plainHost legacyActor).2.
Proof.
  destruct (@migration_settles plainHost MIGRATIONS legacyActor)
    as (Hsettled & Hchanged & Hprompt).
  split; [exact Hsettled|]. split.
  - apply Hchanged. discriminate.
  - apply Hprompt; [discriminate|reflexivity].
Defined.

(** ** What an accept commits *)

Section commit_facts.
Context `{Host}.

Lemma assocGet_None_keys {A} k (fields : list (string * A)) :
  assocGet k fields = None <-> k ∉ fst <$> fields.
Proof.
  induction fields as [|[k' v'] fields IH]; simpl.
  - split; [intros _ Hin; inversion Hin|done].
  - rewrite not_elem_of_cons. destruct (String.eqb k k') eqn:Hk.
    + apply String.eqb_eq in Hk. subst k'. split; [done|]. intros [Hne _]. done.
    + apply String.eqb_neq in Hk. rewrite IH. tauto.
Qed.

Lemma elem_of_assocSet {A} k (v : A) fields x :
  x ∈ assocSet k v fields -> x = (k, v) \/ x ∈ fields.
Proof.
  induction fields as [|[k' v'] fields IH]; simpl.
  - intros ->%list_elem_of_singleton. by left.
  - destruct (String.eqb k k').
    + intros [->|Hx]%elem_of_cons; [by left|]. right. by right.
    + intros [->|Hx]%elem_of_cons; [right; left|].
      destruct (IH Hx) as [->|Hin]; [by left|]. right. by right.
Qed.

Lemma assocSet_elem {A} k (v : A) fields : (k, v) ∈ assocSet k v fields.
Proof.
  induction fields as [|[k' v'] fields IH]; simpl; [left|].
  destruct (String.eqb k k'); [left|by right].
Qed.

Lemma assocSet_NoDup {A} k (v : A) fields :
  NoDup (fst <$> fields) -> NoDup (fst <$> assocSet k v fields).
Proof.
  intros Hnd. rewrite assocSet_keys. case_bool_decide; [done|].
  apply NoDup_app. split; [done|]. split; [|apply NoDup_singleton].
  intros x Hx ->%list_elem_of_singleton. done.
Qed.

Lemma assocSet_keys_elem {A} k (v : A) fields k' :
  k' ∈ fst <$> assocSet k v fields <-> k' = k \/ k' ∈ fst <$> fields.
Proof.
  rewrite assocSet_keys. case_bool_decide as Hin.
  - split; [by right|]. intros [->|]; done.
  - rewrite elem_of_app, list_elem_of_singleton. tauto.
Qed.

Lemma setOwn_lookup_eq {A} key (value : A) (object : gmap string A) :
  key <> "__proto__" -> setOwn key value object !! key = Some value.
Proof.
  intros Hne%String.eqb_neq. unfold setOwn. rewrite Hne. apply lookup_insert_eq.
Qed.

Lemma setOwn_lookup_ne {A} key (value : A) (object : gmap string A) k :
  k <> key -> setOwn key value object !! k = object !! k.
Proof.
  intros Hne. unfold setOwn. destruct (String.eqb key "__proto__"); [done|].
  by rewrite lookup_insert_ne.
Qed.

Lemma setOwn_lookup_proto {A} key (value : A) (object : gmap string A) :
  object !! "__proto__" = None -> setOwn key value object !! "__proto__" = None.
Proof.
  intros Hnone. unfold setOwn. destruct (String.eqb key "__proto__") eqn:Hkey; [done|].
  apply String.eqb_neq in Hkey. by rewrite lookup_insert_ne.
Qed.

(** A pass of the first loop that goes through. *)
Lemma collectRow_Ok acc el acc' :
  collectRow acc el = Ok acc' ->
  match rowValue el with
  | None => acc' = acc
  | Some row =>
      (el_daily el ∈ fst <$> col_dailies acc \/ el_daily el ∉ objectPrototypeKeys) /\
      acc'
      = {| col_dailies :=
             assocSet (el_daily el)
               (setOwn (el_row el) row
                  (default ∅ (assocGet (el_daily el) (col_dailies acc))))
               (col_dailies acc);
           col_flags :=
             if el_save el then
               <[el_daily el := setOwn (el_row el) row
                                  (default ∅ (col_flags acc !! el_daily el))]>
                 (col_flags acc)
             else col_flags acc |}
  end.
Proof.
  unfold collectRow. destruct (rowValue el) as [row|]; [|by intros [= <-]].
  cbv zeta. case_bool_decide as Hget; simpl.
  - case_bool_decide as Hproto; [discriminate|]. intros [= <-]. split; [by right|done].
  - intros [= <-]. split; [|done]. left.
    destruct (decide (el_daily el ∈ fst <$> col_dailies acc)) as [|Hnotin]; [done|].
    exfalso. apply Hget. by apply assocGet_None_keys.
Qed.

(** A pass that throws. *)
Lemma collectRow_Throw acc el err :
  collectRow acc el = Throw err ->
  is_Some (rowValue el) /\ el_daily el ∉ fst <$> col_dailies acc /\
  el_daily el ∈ objectPrototypeKeys.
Proof.
  unfold collectRow. destruct (rowValue el) as [row|]; [|discriminate].
  cbv zeta. case_bool_decide as Hget; simpl; [|discriminate].
  case_bool_decide as Hproto; [|discriminate]. intros _.
  split; [eauto|]. split; [by apply assocGet_None_keys|done].
Qed.

Lemma collectRows_valueless form :
  Forall (fun el => rowValue el = None) form ->
  collectRows form = Ok {| col_flags := ∅; col_dailies := [] |}.
Proof.
  induction form as [|el form IH] using rev_ind; intros Hall; [reflexivity|].
  apply Forall_app in Hall as [Hform Hel]. apply Forall_inv in Hel.
  rewrite collectRows_snoc, (IH Hform). simpl. unfold collectRow. rewrite Hel.
  reflexivity.
Qed.

(** The callbacks get one entry per daily, made of the values of the
    daily's own elements; no entry and no row is one that a plain object
    cannot hold. *)
Lemma collectRows_dailies form collected :
  collectRows form = Ok collected ->
  NoDup (fst <$> col_dailies collected) /\
  (forall daily, daily ∈ fst <$> col_dailies collected ->
                 daily ∉ objectPrototypeKeys /\
                 exists el, el ∈ form /\ el_daily el = daily /\ is_Some (rowValue el)) /\
  (forall daily rows row value,
      (daily, rows) ∈ col_dailies collected ->
      rows !! row = Some value ->
      row <> "__proto__" /\
      exists el, el ∈ form /\ el_daily el = daily /\ el_row el = row /\
                 rowValue el = Some value) /\
  (forall daily, is_Some (col_flags collected !! daily) ->
                 daily ∈ fst <$> col_dailies collected) /\
  (forall daily rows, col_flags collected !! daily = Some rows ->
                      rows !! "__proto__" = None).
Proof.
  apply (collectRows_ind form
           (fun acc =>
              NoDup (fst <$> col_dailies acc) /\
              (forall daily, daily ∈ fst <$> col_dailies acc ->
                             daily ∉ objectPrototypeKeys /\
                             exists el, el ∈ form /\ el_daily el = daily /\
                                        is_Some (rowValue el)) /\
              (forall daily rows row value,
                  (daily, rows) ∈ col_dailies acc ->
                  rows !! row = Some value ->
                  row <> "__proto__" /\
                  exists el, el ∈ form /\ el_daily el = daily /\ el_row el = row /\
                             rowValue el = Some value) /\
              (forall daily, is_Some (col_flags acc !! daily) ->
                             daily ∈ fst <$> col_dailies acc) /\
              (forall daily rows, col_flags acc !! daily = Some rows ->
                                  rows !! "__proto__" = None))).
  - simpl. split; [constructor|]. split; [|split; [|split]].
    + intros daily Hin. inversion Hin.
    + intros daily rows row value Hin. inversion Hin.
    + intros daily [x Hx]. rewrite lookup_empty in Hx. done.
    + intros daily rows. rewrite lookup_empty. done.
  - intros acc el acc' Hel (IHnd & IHkeys & IHrows & IHflags & IHproto) Hstep.
    apply collectRow_Ok in Hstep.
    destruct (rowValue el) as [value|] eqn:Hvalue; [|by subst acc'].
    destruct Hstep as (Hkey & ->). cbn [col_dailies col_flags].
    split; [by apply assocSet_NoDup|]. split; [|split; [|split]].
    + intros daily [->|Hin]%assocSet_keys_elem; [|by apply IHkeys].
      split.
      * destruct Hkey as [Hin|Hnot]; [by apply IHkeys|done].
      * exists el. rewrite Hvalue. eauto.
    + intros daily rows row v Hin Hrow.
      apply elem_of_assocSet in Hin as [[= -> ->]|Hin]; [|by eapply IHrows].
      apply setOwn_lookup in Hrow as [(-> & -> & Hproto)|Hrow].
      * split; [done|]. exists el. done.
      * destruct (assocGet (el_daily el) (col_dailies acc)) as [rows0|] eqn:Hget;
          simpl in Hrow; [|by rewrite lookup_empty in Hrow].
        apply assocGet_Some_elem in Hget. by eapply IHrows.
    + intros daily Hsome. apply assocSet_keys_elem.
      destruct (el_save el); [|right; by apply IHflags].
      destruct (decide (daily = el_daily el)) as [->|Hne]; [by left|].
      rewrite lookup_insert_ne in Hsome by done. right. by apply IHflags.
    + intros daily rows. destruct (el_save el); [|apply IHproto].
      destruct (decide (el_daily el = daily)) as [<-|Hne].
      * rewrite lookup_insert_eq. intros [= <-]. apply setOwn_lookup_proto.
        destruct (col_flags acc !! el_daily el) as [rows0|] eqn:Hrows0; simpl.
        -- by eapply IHproto.
        -- apply lookup_empty.
      * rewrite lookup_insert_ne by done. apply IHproto.
Qed.

(** Every element with a value has its daily among the entries. *)
Lemma collectRows_keys form collected el :
  collectRows form = Ok collected ->
  el ∈ form ->
  is_Some (rowValue el) ->
  el_daily el ∈ fst <$> col_dailies collected.
Proof.
  revert collected.
  induction form as [|el0 form IH] using rev_ind; intros collected Hcollected Hin Hsome;
    [inversion Hin|].
  rewrite collectRows_snoc in Hcollected.
  destruct (collectRows form) as [acc|err]; [|discriminate]. simpl in Hcollected.
  apply collectRow_Ok in Hcollected.
  apply elem_of_app in Hin as [Hin| ->%list_elem_of_singleton].
  - specialize (IH acc eq_refl Hin Hsome).
    destruct (rowValue el0); [|by subst collected].
    destruct Hcollected as (_ & ->). cbn [col_dailies].
    apply assocSet_keys_elem. by right.
  - destruct Hsome as [value Hvalue]. rewrite Hvalue in Hcollected.
    destruct Hcollected as (_ & ->). cbn [col_dailies].
    apply assocSet_keys_elem. by left.
Qed.

(** The loop throws exactly when an element with a value belongs to a
    daily whose key a plain object inherits. *)
Lemma collectRows_Throw form :
  (exists err, collectRows form = Throw err) <->
  exists el, el ∈ form /\ is_Some (rowValue el) /\ el_daily el ∈ objectPrototypeKeys.
Proof.
  split.
  - induction form as [|el0 form IH] using rev_ind; intros [err Herr]; [discriminate|].
    rewrite collectRows_snoc in Herr.
    destruct (collectRows form) as [acc|err0] eqn:Hform.
    + simpl in Herr. apply collectRow_Throw in Herr as (Hsome & _ & Hproto).
      exists el0. set_solver.
    + destruct IH as (el & Hel & Hrest); [eauto|]. exists el. set_solver.
  - intros (el & Hel & Hsome & Hproto).
    destruct (collectRows form) as [collected|err] eqn:Hform; [|eauto].
    pose proof (collectRows_keys _ _ _ Hform Hel Hsome) as Hkey.
    destruct (collectRows_dailies _ _ Hform) as (_ & Hkeys & _).
    destruct (Hkeys _ Hkey) as [Hnot _]. done.
Qed.

(** A saved element's daily is among the persisted ones, and its value
    is recorded, unless a later element of the same daily and row takes
    its place or the row's slug is one that writes no property. *)
Lemma collectRows_saved form collected el value :
  collectRows form = Ok collected ->
  el ∈ form ->
  el_save el = true ->
  rowValue el = Some value ->
  (forall el', el' ∈ form -> el_daily el' = el_daily el -> el_row el' = el_row el ->
               el' = el) ->
  exists rows, col_flags collected !! el_daily el = Some rows /\
               (el_row el <> "__proto__" -> rows !! el_row el = Some value).
Proof.
  revert collected.
  induction form as [|el0 form IH] using rev_ind;
    intros collected Hcollected Hin Hsave Hvalue Honly; [inversion Hin|].
  rewrite collectRows_snoc in Hcollected.
  destruct (collectRows form) as [acc|err]; [|discriminate]. simpl in Hcollected.
  apply collectRow_Ok in Hcollected.
  destruct (decide (el_daily el0 = el_daily el /\ el_row el0 = el_row el))
    as [[Hd Hr]|Hne].
  - assert (el0 = el) as -> by (apply Honly; [set_solver|done..]).
    rewrite Hvalue in Hcollected. destruct Hcollected as (_ & ->).
    rewrite Hsave. cbn [col_flags]. eexists. rewrite lookup_insert_eq.
    split; [reflexivity|]. intros Hproto. by apply setOwn_lookup_eq.
  - apply elem_of_app in Hin as [Hin|Hin].
    2: { apply list_elem_of_singleton in Hin. subst el0. by destruct Hne. }
    destruct (IH acc eq_refl Hin Hsave Hvalue) as (rows & Hrows & Hrow).
    { intros el' Hel'. apply Honly. set_solver. }
    destruct (rowValue el0) as [value0|]; [|subst collected; eauto].
    destruct Hcollected as (_ & ->).
    cbn [col_flags]. destruct (el_save el0); [|eauto].
    destruct (decide (el_daily el0 = el_daily el)) as [Hd|Hd].
    + rewrite Hd, lookup_insert_eq, Hrows. simpl. eexists. split; [reflexivity|].
      intros Hproto. rewrite setOwn_lookup_ne; [by apply Hrow|].
      intros Hr. by apply Hne.
    + rewrite lookup_insert_ne by done. eauto.
Qed.

Lemma flagUpdate_daily flags extraFlags addedItemIds daily :
  daily ∉ fixedFlagKeys ->
  flagUpdate flags extraFlags addedItemIds !! daily = FlagRows <$> flags !! daily.
Proof.
  intros Hfixed. unfold flagUpdate, fixedFlagKeys in *.
  rewrite !lookup_insert_ne by set_solver. apply lookup_fmap.
Qed.

Lemma flagUpdate_fixed flags extraFlags addedItemIds :
  let updates := flagUpdate flags extraFlags addedItemIds in
  updates !! "extra" = Some (FlagExtra extraFlags) /\
  updates !! "rested" = Some (FlagRested false) /\
  updates !! "schema" = Some (FlagSchema ACTOR_DAILY_SCHEMA) /\
  updates !! "addedItems" = Some (FlagAddedItems addedItemIds).
Proof.
  unfold flagUpdate. repeat split.
  - rewrite !lookup_insert_ne by done. by rewrite lookup_insert_eq.
  - rewrite !lookup_insert_ne by done. by rewrite lookup_insert_eq.
  - rewrite !lookup_insert_ne by done. by rewrite lookup_insert_eq.
  - by rewrite lookup_insert_eq.
Qed.

End commit_facts.

(** X7: an accept that completes acts on the outside in a fixed order:
    the logs of the callbacks that threw, then at most one creation, one
    update and one deletion of items, each only when there is something
    to create, update or delete, then the flag update and last the chat
    message. The flag update always carries the module's own four keys:
    the current schema, [rested] off, the free-form data, and the ids of
    exactly the items created in this accept; no daily can set them. *)
Theorem commit_order `{Host} (actor : CharacterPF2e)
    (catalog : gmap string PreparedDaily) (form : list RowElement)
    (effects : list Effect) :
  processDailies actor catalog form = (effects, true) ->
  exists logs sources updates deleted flags extraFlags content,
    effects
    = (logs
         ++ (if bool_decide (sources = []) then [] else [ECreateItems sources])
         ++ (if bool_decide (updates = []) then [] else [EUpdateItems updates])
         ++ (if bool_decide (deleted = []) then [] else [EDeleteItems deleted])
         ++ [EUpdateFlag flags; EChatMessage content])%list /\
    Forall (fun e => isCommitEffect e = false) logs /\
    flags !! "schema" = Some (FlagSchema "3.0.0") /\
    flags !! "rested" = Some (FlagRested false) /\
    flags !! "extra" = Some (FlagExtra extraFlags) /\
    flags !! "addedItems" = Some (FlagAddedItems (item_id <$> createdItems sources)) /\
    length (createdItems sources) = length sources.
Proof.
  unfold processDailies.
  destruct (collectRows form) as [collected|err]; [|discriminate].
  pose proof (runDailies_effects catalog (objectOrder (col_dailies collected))
                initialContext) as Hlogs.
  destruct (runDailies catalog _ initialContext) as [[ctx logs] status].
  destruct status; [|done..]. intros [= <-].
  set (sources := finalSources actor (ctx_addedItems ctx)).
  set (updatedItems :=
         foldl updateItem
           (foldl updateItem (ctx_updatedItems ctx)
              (createdItems sources ≫= linkUpdates (createdItems sources)))
           ((fun entry => {| upd_id := entry.1;
                             upd_fields := [("system.rules", JArr entry.2)] |})
              <$> ctx_itemsRules ctx)).
  exists logs, sources,
    ((fun entry => {| upd_id := entry.1; upd_fields := entry.2 |}) <$> updatedItems),
    (ctx_deletedItems ctx),
    (flagUpdate (col_flags collected) (ctx_extraFlags ctx)
       (item_id <$> createdItems sources)),
    (ctx_extraFlags ctx),
    (chatContent (chatGroups (ctx_messageGroups ctx) (ctx_rawMessages ctx))).
  split.
  - assert (bool_decide
              ((fun entry => {| upd_id := entry.1; upd_fields := entry.2 |})
                 <$> updatedItems = [])
            = bool_decide (updatedItems = [])) as -> by (by destruct updatedItems).
    reflexivity.
  - split.
    { simpl in Hlogs. eapply Forall_impl; [exact Hlogs|]. by intros []. }
    pose proof (flagUpdate_fixed (col_flags collected) (ctx_extraFlags ctx)
                  (item_id <$> createdItems sources))
      as (Hextra & Hrested & Hschema & Hadded).
    repeat split; try done. unfold createdItems. apply length_imap.
Qed.

Lemma commit_order_witness :
  exists logs sources updates deleted flags extraFlags content,
    (@processDailies plainHost (plainActor None) (brokenCatalog (Throws "boom"))
       brokenForm).1
    = (logs
         ++ (if bool_decide (sources = []) then [] else [ECreateItems sources])
         ++ (if bool_decide (updates = []) then [] else [EUpdateItems updates])
         ++ (if bool_decide (deleted = []) then [] else [EDeleteItems deleted])
         ++ [EUpdateFlag flags; EChatMessage content])%list /\
    Forall (fun e => isCommitEffect e = false) logs /\
    flags !! "schema" = Some (FlagSchema "3.0.0") /\
    flags !! "rested" = Some (FlagRested false) /\
    flags !! "extra" = Some (FlagExtra extraFlags) /\
    flags !! "addedItems"
    = Some (FlagAddedItems (item_id <$> @createdItems plainHost sources)) /\
    length (@createdItems plainHost sources) = length sources.
Proof.
  apply (@commit_order plainHost (plainActor None) (brokenCatalog (Throws "boom"))
           brokenForm).
  vm_compute. reflexivity.
Defined.

(** X8: a form whose rows are all alerts and notifications has no value
    to read. Accepting it runs no callback and touches no item, and still
    rewrites the flags, to the four fixed keys alone, and posts the
    summary, which says that nothing changed. *)
Theorem valueless_form_still_commits `{Host} (actor : CharacterPF2e)
    (catalog : gmap string PreparedDaily) (form : list RowElement) :
  Forall (fun el => el_type el = TAlert \/ el_type el = TNotify) form ->
  processDailies actor catalog form
  = ([ EUpdateFlag (flagUpdate ∅ (JObj []) []);
       EChatMessage
         (chatContent [ {| chat_message := localize "message.noChanges" [];
                           chat_order := Infinity |} ]) ], true).
Proof.
  intros Hall. unfold processDailies. rewrite collectRows_valueless.
  - reflexivity.
  - eapply Forall_impl; [exact Hall|]. intros el [Ht|Ht]; unfold rowValue; by rewrite Ht.
Qed.

Lemma valueless_form_still_commits_witness :
  @processDailies plainHost (plainActor None) {[ "library" := libraryDaily ]} noticeForm
  = ([ EUpdateFlag (flagUpdate ∅ (JObj []) []);
       EChatMessage
         (chatContent [ {| chat_message := "message.noChanges";
                           chat_order := Infinity |} ]) ], true).
Proof.
  apply (@valueless_form_still_commits plainHost).
  unfold noticeForm. constructor; [left; reflexivity|].
  constructor; [right; reflexivity|]. constructor.
Defined.

(** X9: the first loop of an accept gathers one entry per daily, however
    many rows the daily has. It throws, and the accept ends there with
    nothing done, exactly when an element that has a value to read
    belongs to a daily whose key names a member that every plain object
    inherits ([constructor], [toString], [__proto__] and the like).
    When it goes through, a daily is gathered exactly when one of its
    elements has a value to read, the values gathered for it are those
    of its own elements, none of them under the slug [__proto__], and
    every daily that has something persisted is among the gathered ones.
    An accept completes only when each gathered daily is in the catalog
    and its callback, called with the values gathered for the daily,
    returns a promise that does not reject. *)
Theorem callbacks_get_own_rows `{Host} (form : list RowElement) :
  ((exists err, collectRows form = Throw err) <->
   exists el, el ∈ form /\ el_type el <> TAlert /\ el_type el <> TNotify /\
              el_daily el ∈ objectPrototypeKeys) /\
  (forall actor catalog err,
      collectRows form = Throw err -> processDailies actor catalog form = ([], false)) /\
  (forall collected,
      collectRows form = Ok collected ->
      NoDup (fst <$> col_dailies collected) /\
      (forall daily, daily ∈ fst <$> col_dailies collected <->
                     exists el, el ∈ form /\ el_daily el = daily /\
                                el_type el <> TAlert /\ el_type el <> TNotify) /\
      (forall daily rows row value,
          (daily, rows) ∈ col_dailies collected ->
          rows !! row = Some value ->
          row <> "__proto__" /\
          exists el, el ∈ form /\ el_daily el = daily /\ el_row el = row /\
                     rowValue el = Some value) /\
      (forall daily, is_Some (col_flags collected !! daily) ->
                     daily ∈ fst <$> col_dailies collected)) /\
  (forall actor catalog effects,
      processDailies actor catalog form = (effects, true) ->
      exists collected,
        collectRows form = Ok collected /\
        forall daily rows,
          (daily, rows) ∈ col_dailies collected ->
          exists prepared,
            catalog !! daily = Some prepared /\
            forall err, run_completion (daily_process prepared rows) <> Rejects err).
Proof.
  assert (Hvalue : forall el, is_Some (rowValue el) <->
                              el_type el <> TAlert /\ el_type el <> TNotify).
  { intros el. split.
    - intros [value Hv]. by apply rowValue_type in Hv.
    - intros [Ha Hn]. unfold rowValue. destruct (el_type el); eauto; done. }
  split; [|split; [|split]].
  - rewrite collectRows_Throw. split.
    + intros (el & Hel & Hsome & Hproto). exists el. apply Hvalue in Hsome. tauto.
    + intros (el & Hel & Ha & Hn & Hproto). exists el. rewrite Hvalue. tauto.
  - intros actor catalog err Herr. unfold processDailies. by rewrite Herr.
  - intros collected Hcollected.
    destruct (collectRows_dailies form collected Hcollected)
      as (Hnd & Hkeys & Hrows & Hflags & _).
    split; [done|]. split; [|split; done].
    intros daily. split.
    + intros Hin. destruct (Hkeys daily Hin) as (_ & el & Hel & Hd & Hsome).
      exists el. apply Hvalue in Hsome. tauto.
    + intros (el & Hel & <- & Ha & Hn).
      apply (collectRows_keys form collected el Hcollected Hel). by apply Hvalue.
  - intros actor catalog effects Hrun.
    destruct (processDailies_completed _ _ _ _ Hrun)
      as (collected & ctx & logs & middle & Hcollected & Hdailies & _).
    exists collected. split; [done|]. intros daily rows Hin.
    destruct (runDailies_recorded _ _ _ _ _ Hdailies) as (runs & Hruns & Hrej & _).
    rewrite <- (objectOrder_Permutation (col_dailies collected)) in Hin.
    apply list_elem_of_lookup in Hin as [i Hi].
    destruct (Forall2_lookup_l _ _ _ _ _ Hruns Hi)
      as (run & Hrun_i & prepared & Hprepared & ->).
    exists prepared. split; [done|].
    rewrite Forall_forall in Hrej. apply Hrej. by eapply list_elem_of_lookup_2.
Qed.

Lemma callbacks_get_own_rows_witness :
  (exists collected,
      @collectRows plainHost mixedForm = Ok collected /\
      col_dailies collected
      = [("library", {[ "pick" := RowString "fireball"; "memo" := RowString "later" ]})]) /\
  @collectRows plainHost inheritedForm = Throw TypeError /\
  @processDailies plainHost (plainActor None) {[ "library" := libraryDaily ]}
    inheritedForm = ([], false).
Proof.
  split; [eexists; split; vm_compute; reflexivity|].
  destruct (@callbacks_get_own_rows plainHost inheritedForm) as (Hthrow & Hstop & _).
  assert (Herr : exists err, @collectRows plainHost inheritedForm = Throw err).
  { apply Hthrow. exists (selectElement "constructor" "pick" "x").
    split; [right; left|]. split; [discriminate|]. split; [discriminate|].
    unfold objectPrototypeKeys. left. }
  destruct Herr as [[] Herr]. split; [exact Herr|].
  exact (Hstop (plainActor None) {[ "library" := libraryDaily ]} TypeError Herr).
Defined.

(** X10: every saved value on the form of an accept that completes
    reaches the flag update: the value of an element marked as saved,
    which is the only element of its daily and row, is in the payload
    under the daily and the row. There are two exceptions. A daily whose
    key is one of the four keys the update sets itself has its rows
    replaced by the fixed value. A row whose slug is [__proto__] is
    written to no property, so that the payload holds the daily without
    the row. A daily whose key names a member that every plain object
    inherits is no exception: an accept with a value for it does not
    complete. *)
Theorem saved_rows_all_persist `{Host} (actor : CharacterPF2e)
    (catalog : gmap string PreparedDaily) (form : list RowElement)
    (effects : list Effect) (el : RowElement) (value : DailyRowData) :
  processDailies actor catalog form = (effects, true) ->
  el ∈ form ->
  el_save el = true ->
  rowValue el = Some value ->
  (forall el', el' ∈ form -> el_daily el' = el_daily el -> el_row el' = el_row el ->
               el' = el) ->
  el_daily el ∉ objectPrototypeKeys /\
  exists updates,
    EUpdateFlag updates ∈ effects /\
    (el_daily el ∉ fixedFlagKeys ->
     exists rows, updates !! el_daily el = Some (FlagRows rows) /\
                  rows !! "__proto__" = None /\
                  (el_row el <> "__proto__" -> rows !! el_row el = Some value)) /\
    (el_daily el ∈ fixedFlagKeys ->
     forall rows, updates !! el_daily el <> Some (FlagRows rows)).
Proof.
  intros Hrun Hin Hsave Hvalue Honly.
  destruct (processDailies_completed _ _ _ _ Hrun)
    as (collected & ctx & logs & middle & Hcollected & Hdailies & -> & Hmiddle).
  destruct (collectRows_saved form collected el value Hcollected Hin Hsave Hvalue Honly)
    as (rows & Hrows & Hrow).
  destruct (collectRows_dailies form collected Hcollected)
    as (_ & Hkeys & _ & _ & Hproto).
  split.
  { apply Hkeys. apply (collectRows_keys form collected el Hcollected Hin).
    rewrite Hvalue. eauto. }
  eexists. split; [|split].
  - rewrite !elem_of_app. do 2 right. left.
  - intros Hfixed. exists rows. rewrite flagUpdate_daily by done.
    rewrite Hrows. split; [done|]. split; [by eapply Hproto|done].
  - intros Hfixed rows'.
    match goal with
    | |- flagUpdate ?f ?e ?a !! _ <> _ =>
        pose proof (flagUpdate_fixed f e a) as (Hextra & Hrested & Hschema & Hadded)
    end.
    unfold fixedFlagKeys in Hfixed.
    rewrite !elem_of_cons, elem_of_nil in Hfixed.
    destruct Hfixed as [->|[->|[->|[->|[]]]]]; congruence.
Qed.

Lemma saved_rows_all_persist_witness :
  (exists updates,
      EUpdateFlag updates
        ∈ (@processDailies plainHost (plainActor None) {[ "library" := libraryDaily ]}
             mixedForm).1 /\
      (exists rows, updates !! "library" = Some (FlagRows rows) /\
                    rows !! "pick" = Some (RowString "fireball"))) /\
  EUpdateFlag (flagUpdate {[ "library" := {[ "pick" := RowString "fireball" ]} ]}
                 (JObj []) ["item-0"; "item-1"])
    ∈ (@processDailies plainHost (plainActor None) {[ "library" := libraryDaily ]}
         protoForm).1.
Proof.
  split; [|vm_compute; do 2 right; left].
  destruct (@saved_rows_all_persist plainHost (plainActor None)
              {[ "library" := libraryDaily ]} mixedForm
              (@processDailies plainHost (plainActor None)
                 {[ "library" := libraryDaily ]} mixedForm).1
              (selectElement "library" "pick" "fireball") (RowString "fireball"))
    as (_ & updates & Hin & Hrows & _).
  - vm_compute. reflexivity.
  - left.
  - reflexivity.
  - reflexivity.
  - intros el' Hel' Hd Hr. unfold mixedForm in Hel'.
    rewrite !elem_of_cons, elem_of_nil in Hel'.
    destruct Hel' as [->|[->|[->|[->|[]]]]]; [reflexivity|discriminate..].
  - exists updates. split; [exact Hin|].
    destruct Hrows as (rows & Hrows & _ & Hrow).
    { unfold fixedFlagKeys. simpl. set_solver. }
    exists rows. split; [exact Hrows|]. apply Hrow. discriminate.
Defined.

(** ** Rule elements *)

Section rule_facts.
Context `{Host}.

Lemma addRule_fold ctx item sources :
  getRules (ctx_itemsRules (foldl applyOp ctx (AddRule item <$> sources))) item
  = getRules (ctx_itemsRules ctx) item
      ++ ((fun source => setProperty source [MODULE_id] (JBool true)) <$> sources).
Proof.
  revert ctx. induction sources as [|source sources IH]; intros ctx.
  - simpl. by rewrite app_nil_r.
  - rewrite fmap_cons. cbn [foldl]. rewrite IH. cbn [applyOp ctx_itemsRules withItemsRules].
    unfold getRules at 1. rewrite assocGet_assocSet_eq.
    rewrite fmap_cons, <- app_assoc. reflexivity.
Qed.

Lemma filter_marked sources :
  Forall (fun source => exists fields, source = JObj fields) sources ->
  List.filter (fun rule => negb (hasKey MODULE_id rule))
    ((fun source => setProperty source [MODULE_id] (JBool true)) <$> sources) = [].
Proof.
  induction 1 as [|source sources [fields ->] _ IH]; [reflexivity|].
  rewrite fmap_cons. cbn [List.filter setProperty hasKey].
  rewrite assocGet_assocSet_eq. rewrite bool_decide_eq_true_2 by eauto. exact IH.
Qed.

Lemma filter_filter {A} (f : A -> bool) (l : list A) :
  List.filter f (List.filter f l) = List.filter f l.
Proof.
  induction l as [|x l IH]; [reflexivity|]. simpl.
  destruct (f x) eqn:Hx; simpl; [rewrite Hx; by f_equal|exact IH].
Qed.

End rule_facts.

(** X11: rules the module adds do not pile up from one accept to the
    next. Every rule added through [addRule] is marked with the module's
    id and goes after the item's rules; when the item is next touched,
    in a cycle that starts from the rules written by this one, the marked
    rules are dropped and the rules to start from are the same as
    before. *)
Theorem added_rules_do_not_accumulate `{Host} (ctx : ProcessContext)
    (item item' : Item) (sources : list JValue) :
  Forall (fun source => exists fields, source = JObj fields) sources ->
  assocGet (item_id item) (ctx_itemsRules ctx) = None ->
  getProperty (item_source item') ["system"; "rules"]
  = JArr (getRules (ctx_itemsRules (foldl applyOp ctx (AddRule item <$> sources))) item) ->
  getRules (ctx_itemsRules (foldl applyOp ctx (AddRule item <$> sources))) item
  = getRules [] item
      ++ ((fun source => setProperty source [MODULE_id] (JBool true)) <$> sources) /\
  Forall (fun rule => hasKey MODULE_id rule = false) (getRules [] item) /\
  getRules [] item' = getRules [] item.
Proof.
  intros Hobjects Hfirst Hwritten.
  assert (Hbase : getRules (ctx_itemsRules ctx) item = getRules [] item)
    by (unfold getRules; rewrite Hfirst; reflexivity).
  rewrite addRule_fold, Hbase in Hwritten. rewrite addRule_fold, Hbase.
  split; [reflexivity|].
  assert (Hclean : List.filter (fun rule => negb (hasKey MODULE_id rule))
                     (getRules [] item) = getRules [] item).
  { unfold getRules. cbn [assocGet].
    destruct (getProperty (item_source item) ["system"; "rules"]); try reflexivity.
    apply filter_filter. }
  split.
  - rewrite <- Hclean. apply Forall_forall. intros rule Hin.
    apply list_elem_of_In, filter_In in Hin as [_ Hrule]. by apply negb_true_iff.
  - unfold getRules at 1. cbn [assocGet]. rewrite Hwritten.
    rewrite List.filter_app, filter_marked by done. rewrite app_nil_r. exact Hclean.
Qed.

Lemma added_rules_do_not_accumulate_witness :
  getRules
    (ctx_itemsRules (foldl (@applyOp plainHost) initialContext
                       (AddRule ruledItem <$> [addedRule]))) ruledItem
  = [ JObj [("key", JStr "Resistance")];
      JObj [("key", JStr "Strike"); (MODULE_id, JBool true)] ] /\
  getRules []
    {| item_id := "armor-1";
       item_source :=
         JObj [ ("system",
                  JObj [ ("rules",
                           JArr [ JObj [("key", JStr "Resistance")];
                                  JObj [ ("key", JStr "Strike");
                                         (MODULE_id, JBool true) ] ]) ]) ] |}
  = [ JObj [("key", JStr "Resistance")] ].
Proof.
  destruct (@added_rules_do_not_accumulate plainHost initialContext ruledItem
              {| item_id := "armor-1";
                 item_source :=
                   JObj [ ("system",
                            JObj [ ("rules",
                                     JArr [ JObj [("key", JStr "Resistance")];
                                            JObj [ ("key", JStr "Strike");
                                                   (MODULE_id, JBool true) ] ]) ]) ] |}
              [addedRule])
    as (Hwritten & _ & Hnext).
  - constructor; [|constructor]. by eexists.
  - reflexivity.
  - reflexivity.
  - split; [exact Hwritten|exact Hnext].
Defined.

(** ** Granted feats *)

Section source_facts.
Context `{Host}.

Lemma diverge_app key1 key2 rest :
  diverge key1 key2 = true -> diverge (key1 ++ rest) key2 = true.
Proof.
  revert key2. induction key1 as [|p1 key1 IH]; intros [|p2 key2]; simpl; try done.
  destruct (String.eqb p1 p2); [apply IH|done].
Qed.

Lemma strictEq_JStr value s : strictEq value (JStr s) = true <-> value = JStr s.
Proof.
  destruct value; simpl; try (split; [discriminate|discriminate]).
  rewrite String.eqb_eq. split; [by intros ->|by intros [= ->]].
Qed.

Lemma tagSource_unfold entryIdentifier source :
  tagSource entryIdentifier source
  = if isSpellSource (markTemporary source)
       && negb (truthy (getProperty (markTemporary source)
                          ["system"; "localtion"; "value"]))
       && negb (truthy (getFlagProperty (markTemporary source) ["identifier"]))
    then (setFlagProperty (markTemporary source) ["identifier"] (JStr entryIdentifier),
          true)
    else (markTemporary source, false).
Proof. reflexivity. Qed.

Lemma markTemporary_other source key :
  diverge (flagPath ["temporary"]) key = true ->
  getProperty (markTemporary source) key = getProperty source key.
Proof.
  intros Hd. unfold markTemporary. destruct (negb _); [|reflexivity].
  by apply getProperty_setProperty_diverge.
Qed.

Lemma markTemporary_writable source key :
  diverge (flagPath ["temporary"]) key = true ->
  writable source key = true -> writable (markTemporary source) key = true.
Proof.
  intros Hd Hw. unfold markTemporary. destruct (negb _); [|done].
  by apply writable_setProperty_diverge.
Qed.

Lemma markTemporary_marked source :
  writable source (flagPath ["temporary"]) = true ->
  truthy (getProperty (markTemporary source) ["system"; "temporary"]) = true \/
  getFlagProperty (markTemporary source) ["temporary"] = JBool true.
Proof.
  intros Hw. unfold markTemporary.
  destruct (truthy (getProperty source ["system"; "temporary"])) eqn:Ht; simpl.
  - by left.
  - right. by apply getProperty_setProperty_eq.
Qed.

Lemma tagSource_other entryIdentifier source key :
  diverge ["flags"; MODULE_id] key = true ->
  getProperty (tagSource entryIdentifier source).1 key = getProperty source key.
Proof.
  intros Hd. rewrite tagSource_unfold.
  destruct (_ && _); cbn [fst].
  - unfold setFlagProperty. rewrite getProperty_setProperty_diverge
      by (apply (diverge_app ["flags"; MODULE_id] key ["identifier"]); done).
    apply markTemporary_other.
    by apply (diverge_app ["flags"; MODULE_id] key ["temporary"]).
  - apply markTemporary_other.
    by apply (diverge_app ["flags"; MODULE_id] key ["temporary"]).
Qed.

Lemma tagSource_marked entryIdentifier source :
  writable source (flagPath ["temporary"]) = true ->
  truthy (getProperty (tagSource entryIdentifier source).1 ["system"; "temporary"]) = true \/
  getFlagProperty (tagSource entryIdentifier source).1 ["temporary"] = JBool true.
Proof.
  intros Hw. rewrite tagSource_unfold.
  destruct (markTemporary_marked source Hw) as [Hm|Hm]; destruct (_ && _); cbn [fst];
    auto.
  - left. unfold setFlagProperty. by rewrite getProperty_setProperty_diverge.
  - right. unfold getFlagProperty, setFlagProperty.
    by rewrite getProperty_setProperty_diverge.
Qed.

Lemma tagSource_orphan entryIdentifier source :
  (tagSource entryIdentifier source).2 = true ->
  writable source (flagPath ["identifier"]) = true ->
  getProperty (tagSource entryIdentifier source).1 ["type"] = JStr "spell" /\
  getFlagProperty (tagSource entryIdentifier source).1 ["identifier"]
  = JStr entryIdentifier.
Proof.
  rewrite tagSource_unfold.
  destruct (isSpellSource (markTemporary source)) eqn:Hspell; cbn [andb fst snd];
    [|done].
  destruct (negb _ && negb _); cbn [fst snd]; [|done]. intros _ Hw.
  apply strictEq_JStr in Hspell. split.
  - unfold setFlagProperty. by rewrite getProperty_setProperty_diverge.
  - apply getProperty_setProperty_eq. by apply markTemporary_writable.
Qed.

Lemma tagSource_not_orphan entryIdentifier source :
  getProperty source ["type"] <> JStr "spell" \/
  truthy (getFlagProperty source ["identifier"]) = true ->
  (tagSource entryIdentifier source).2 = false /\
  getFlagProperty (tagSource entryIdentifier source).1 ["identifier"]
  = getFlagProperty source ["identifier"].
Proof.
  intros Hnot. rewrite tagSource_unfold.
  assert (Hid : getFlagProperty (markTemporary source) ["identifier"]
                = getFlagProperty source ["identifier"])
    by (by apply markTemporary_other).
  assert (Hcond : isSpellSource (markTemporary source)
                  && negb (truthy (getProperty (markTemporary source)
                                     ["system"; "localtion"; "value"]))
                  && negb (truthy (getFlagProperty (markTemporary source)
                                     ["identifier"])) = false).
  { destruct Hnot as [Htype|Hident].
    - assert (isSpellSource (markTemporary source) = false) as ->; [|done].
      apply not_true_is_false. intros Hs. apply strictEq_JStr in Hs.
      rewrite markTemporary_other in Hs by done. done.
    - rewrite Hid, Hident. cbn [negb]. by rewrite andb_false_r. }
  rewrite Hcond. cbn [fst snd]. done.
Qed.

Lemma createdItems_lookup sources i source :
  sources !! i = Some source ->
  createdItems sources !! i
  = Some {| item_id := createdItemId i source; item_source := source |}.
Proof. intros Hs. unfold createdItems. rewrite list_lookup_imap, Hs. reflexivity. Qed.

Lemma finalSources_plain actor addedItems :
  Forall (fun source => (tagSource randomID source).2 = false) addedItems \/
  (actor_highestSpellcasting actor = None /\ actor_highestSynthetic actor = None) ->
  finalSources actor addedItems
  = (fun source => (tagSource randomID source).1) <$> addedItems.
Proof.
  intros Hplain. unfold finalSources. rewrite <- list_fmap_compose.
  destruct (existsb snd (tagSource randomID <$> addedItems)) eqn:Hex; [|reflexivity].
  destruct Hplain as [Hnone|[Hentry Hsynthetic]].
  - apply existsb_exists in Hex as ([source' tagged] & Hin & Htag).
    apply list_elem_of_In, list_elem_of_fmap in Hin as (source & Heq & Hin).
    rewrite Forall_forall in Hnone. specialize (Hnone source Hin).
    rewrite <- Heq in Hnone. simpl in *. congruence.
  - unfold orphanEntrySource. rewrite Hentry, Hsynthetic. reflexivity.
Qed.

Lemma finalSources_entry actor addedItems source entry :
  source ∈ addedItems ->
  (tagSource randomID source).2 = true ->
  orphanEntrySource actor randomID = Some entry ->
  finalSources actor addedItems
  = ((fun source => (tagSource randomID source).1) <$> addedItems) ++ [entry].
Proof.
  intros Hin Htag Hentry. unfold finalSources. rewrite <- list_fmap_compose.
  assert (existsb snd (tagSource randomID <$> addedItems) = true) as ->.
  { apply existsb_exists. exists (tagSource randomID source).
    split; [|done]. apply list_elem_of_In, list_elem_of_fmap. eauto. }
  rewrite Hentry. reflexivity.
Qed.

End source_facts.

(** X12: a feat added through [addFeat] with a parent that is a feat is
    tied to the parent both ways. Its source names the parent under the
    system's [grantedBy], to be removed with it, and once the feat is
    created the parent receives an update that lists the new feat among
    its grants, under the slug of the feat's name, to be detached with
    it. *)
Theorem granted_feat_linked `{Host} (ctx : ProcessContext) (source : JValue)
    (parent : Item) (entryIdentifier id : string) (items : list Item) :
  isOfType parent "feat" = true ->
  item_id parent <> "" ->
  getProperty source ["type"] = JStr "feat" ->
  writable source ["flags"; "pf2e"; "grantedBy"] = true ->
  writable source (flagPath ["grantedBy"]) = true ->
  exists added,
    ctx_addedItems (applyOp ctx (AddFeat source (Some parent)))
    = ctx_addedItems ctx ++ [added] /\
    getProperty added ["flags"; "pf2e"; "grantedBy"]
    = JObj [("id", JStr (item_id parent)); ("onDelete", JStr "cascade")] /\
    getProperty added ["name"] = getProperty source ["name"] /\
    linkUpdates items
      {| item_id := id; item_source := (tagSource entryIdentifier added).1 |}
    = [ {| upd_id := item_id parent;
           upd_fields :=
             [ ("flags.pf2e.itemGrants."
                  +:+ sluggify match getProperty source ["name"] with
                               | JStr name => name
                               | _ => ""
                               end true,
                JObj [("id", JStr id); ("onDelete", JStr "detach")]) ] |} ].
Proof.
  intros Hparent Hid Htype Hwsys Hwflag.
  cbn [applyOp ctx_addedItems withAddedItems]. rewrite Hparent.
  eexists. split; [reflexivity|].
  set (granted := setProperty source ["flags"; "pf2e"; "grantedBy"]
                    (JObj [("id", JStr (item_id parent)); ("onDelete", JStr "cascade")])).
  assert (Hname : forall key, diverge ["flags"] key = true ->
                  getProperty (setFlagProperty granted ["grantedBy"]
                                 (JStr (item_id parent))) key
                  = getProperty source key).
  { intros key Hd. unfold setFlagProperty, granted.
    rewrite !getProperty_setProperty_diverge; [done|..].
    - by apply (diverge_app ["flags"] key ["pf2e"; "grantedBy"]).
    - by apply (diverge_app ["flags"] key [MODULE_id; "grantedBy"]). }
  split; [|split].
  - unfold setFlagProperty. rewrite getProperty_setProperty_diverge by done.
    by apply getProperty_setProperty_eq.
  - by apply Hname.
  - unfold linkUpdates, isOfType, item_type, item_name, getItemFlag. cbn [item_source item_id].
    rewrite !tagSource_other by done. rewrite !Hname by done. rewrite Htype.
    cbn [String.eqb Ascii.eqb Bool.eqb]. 
    assert (Hflag : getFlagProperty
                      (tagSource entryIdentifier
                         (setFlagProperty granted ["grantedBy"] (JStr (item_id parent)))).1
                      ["grantedBy"] = JStr (item_id parent)).
    { rewrite tagSource_unfold. destruct (_ && _); cbn [fst].
      - unfold getFlagProperty, setFlagProperty at 1.
        rewrite getProperty_setProperty_diverge by done.
        unfold markTemporary. destruct (negb _).
        + unfold setFlagProperty at 1. rewrite getProperty_setProperty_diverge by done.
          apply getProperty_setProperty_eq. by apply writable_setProperty_diverge.
        + apply getProperty_setProperty_eq. by apply writable_setProperty_diverge.
      - unfold getFlagProperty, markTemporary. destruct (negb _).
        + unfold setFlagProperty at 1. rewrite getProperty_setProperty_diverge by done.
          apply getProperty_setProperty_eq. by apply writable_setProperty_diverge.
        + apply getProperty_setProperty_eq. by apply writable_setProperty_diverge. }
    rewrite Hflag. unfold truthyStr.
    apply String.eqb_neq in Hid. rewrite Hid. reflexivity.
Qed.

Lemma granted_feat_linked_witness :
  exists added,
    ctx_addedItems (@applyOp plainHost initialContext (AddFeat grantedFeat (Some parentFeat)))
    = [added] /\
    getProperty added ["flags"; "pf2e"; "grantedBy"]
    = JObj [("id", JStr "feat-1"); ("onDelete", JStr "cascade")] /\
    @linkUpdates plainHost []
      {| item_id := "item-0"; item_source := (tagSource "fresh" added).1 |}
    = [ {| upd_id := "feat-1";
           upd_fields :=
             [ ("flags.pf2e.itemGrants.Power Attack",
                JObj [("id", JStr "item-0"); ("onDelete", JStr "detach")]) ] |} ].
Proof.
  destruct (@granted_feat_linked plainHost initialContext grantedFeat parentFeat
              "fresh" "item-0" [])
    as (added & Hadded & Hgranted & _ & Hlink); try reflexivity.
  - discriminate.
  - exists added. split; [exact Hadded|]. split; [exact Hgranted|exact Hlink].
Defined.

(** X13: whatever is handed to the item store in an accept is marked as
    temporary, by the system's own [system.temporary] or by the module's
    flag, the spellcasting entry made for orphan spells included; and
    marking and tagging write under the module's flags only: every other
    path of an added source reads as before. *)
Theorem created_sources_marked_temporary `{Host} (actor : CharacterPF2e)
    (addedItems : list JValue) :
  Forall (fun source => writable source (flagPath ["temporary"]) = true) addedItems ->
  Forall (fun source =>
            truthy (getProperty source ["system"; "temporary"]) = true \/
            getFlagProperty source ["temporary"] = JBool true)
         (finalSources actor addedItems) /\
  (forall i source key,
      addedItems !! i = Some source ->
      diverge ["flags"; MODULE_id] key = true ->
      exists tagged, finalSources actor addedItems !! i = Some tagged /\
                     getProperty tagged key = getProperty source key).
Proof.
  intros Hwritable.
  destruct (finalSources_one_entry actor addedItems) as (extra & Hfinal & Hextra).
  split.
  - unfold finalSources. rewrite <- list_fmap_compose.
    assert (Htagged :
      Forall (fun source =>
                truthy (getProperty source ["system"; "temporary"]) = true \/
                getFlagProperty source ["temporary"] = JBool true)
             (fst ∘ tagSource randomID <$> addedItems)).
    { apply Forall_fmap. eapply Forall_impl; [exact Hwritable|].
      intros source Hw. by apply tagSource_marked. }
    destruct (existsb _ _); [|done].
    destruct (orphanEntrySource actor randomID) as [entry|] eqn:Hentry; [|done].
    apply Forall_app. split; [done|]. constructor; [|constructor].
    right. unfold orphanEntrySource in Hentry.
    destruct (actor_highestSpellcasting actor) as [[tradition statistic]|],
      (actor_highestSynthetic actor) as [synthetic|];
      try destruct (stat_mod synthetic <=? stat_mod statistic);
      try discriminate; injection Hentry as <-; reflexivity.
  - intros i source key Hi Hd. exists (tagSource randomID source).1.
    split; [|by apply tagSource_other].
    rewrite Hfinal. rewrite lookup_app_l.
    + by rewrite list_lookup_fmap, Hi.
    + rewrite length_fmap. by eapply lookup_lt_Some.
Qed.

Lemma created_sources_marked_temporary_witness :
  Forall (fun source =>
            truthy (getProperty source ["system"; "temporary"]) = true \/
            getFlagProperty source ["temporary"] = JBool true)
         (@finalSources plainHost (plainActor None) [looseSpell; grantedFeat]).
Proof.
  apply (@created_sources_marked_temporary plainHost (plainActor None)
           [looseSpell; grantedFeat]).
  repeat constructor.
Defined.

(** X14: when a spell is taken for an orphan and the character has a
    statistic to cast with, the entry made for the orphans is created
    last, and the updates that follow its creation place the spell in
    it: the spell's location becomes the id of the new entry. *)
Theorem orphan_spells_relocated `{Host} (actor : CharacterPF2e)
    (addedItems : list JValue) (i : nat) (source entry : JValue) :
  randomID <> "" ->
  addedItems !! i = Some source ->
  (tagSource randomID source).2 = true ->
  writable source (flagPath ["identifier"]) = true ->
  orphanEntrySource actor randomID = Some entry ->
  let items := createdItems (finalSources actor addedItems) in
  exists spell entryItem,
    items !! i = Some spell /\
    last items = Some entryItem /\
    item_source entryItem = entry /\
    {| upd_id := item_id spell;
       upd_fields := [ ("system.location.value", JStr (item_id entryItem));
                       ("system.location.heightenedLevel", getItemFlag spell "rank") ] |}
      ∈ linkUpdates items entryItem.
Proof.
  intros Hid Hi Htag Hw Hentry items.
  assert (Hfinal : finalSources actor addedItems
                   = ((fun source => (tagSource randomID source).1) <$> addedItems)
                       ++ [entry]).
  { eapply finalSources_entry; [|exact Htag|exact Hentry]. by eapply list_elem_of_lookup_2. }
  set (spell := {| item_id := createdItemId i (tagSource randomID source).1;
                   item_source := (tagSource randomID source).1 |}).
  set (entryItem := {| item_id := createdItemId (length addedItems) entry;
                       item_source := entry |}).
  assert (Hspell : items !! i = Some spell).
  { apply createdItems_lookup. rewrite Hfinal, lookup_app_l.
    - by rewrite list_lookup_fmap, Hi.
    - rewrite length_fmap. by eapply lookup_lt_Some. }
  assert (Hlast : last items = Some entryItem).
  { unfold items, createdItems. rewrite Hfinal, imap_app. cbn [imap].
    rewrite last_snoc. unfold compose. rewrite length_fmap, Nat.add_0_r. reflexivity. }
  exists spell, entryItem. split; [done|]. split; [done|]. split; [reflexivity|].
  destruct (orphanEntrySource_identifier _ _ _ Hentry) as (Htype & _ & Hident).
  destruct (tagSource_orphan _ _ Htag Hw) as (Hstype & Hsident).
  unfold linkUpdates, isOfType, item_type, getItemFlag. cbn [item_source entryItem].
  rewrite Htype. cbn [String.eqb Ascii.eqb Bool.eqb]. rewrite Hident.
  cbn [truthy]. unfold truthyStr. apply String.eqb_neq in Hid. rewrite Hid. cbn [negb].
  apply list_elem_of_fmap. exists spell. split; [reflexivity|].
  apply list_elem_of_In, filter_In. split.
  - apply list_elem_of_In. by eapply list_elem_of_lookup_2.
  - cbn [item_source spell]. rewrite Hstype, Hsident. cbn [strictEq].
    by rewrite !String.eqb_refl.
Qed.

Lemma orphan_spells_relocated_witness :
  exists spell entryItem,
    @createdItems plainHost (@finalSources plainHost (plainActor None) [looseSpell]) !! 0%nat
    = Some spell /\
    last (@createdItems plainHost (@finalSources plainHost (plainActor None) [looseSpell]))
    = Some entryItem /\
    {| upd_id := item_id spell;
       upd_fields := [ ("system.location.value", JStr (item_id entryItem));
                       ("system.location.heightenedLevel", getItemFlag spell "rank") ] |}
      ∈ @linkUpdates plainHost
          (@createdItems plainHost (@finalSources plainHost (plainActor None) [looseSpell]))
          entryItem.
Proof.
  destruct (@orphan_spells_relocated plainHost (plainActor None) [looseSpell] 0 looseSpell
              (default JNull (@orphanEntrySource plainHost (plainActor None)
                                (@randomID plainHost))))
    as (spell & entryItem & Hspell & Hlast & _ & Hupdate); try reflexivity.
  - discriminate.
  - exists spell, entryItem. split; [exact Hspell|]. split; [exact Hlast|exact Hupdate].
Defined.

(** X15: no entry is made when there is nothing to put in it or nothing
    to build it on: if no added source is taken for an orphan, or the
    character has neither a spellcasting entry nor a synthetic statistic,
    the item store gets the added sources and nothing more. A source
    that is not a spell, or that carries an identifier, is never taken
    for an orphan and keeps its identifier. *)
Theorem no_entry_without_orphans `{Host} (actor : CharacterPF2e)
    (addedItems : list JValue) :
  (Forall (fun source => getProperty source ["type"] <> JStr "spell" \/
                         truthy (getFlagProperty source ["identifier"]) = true)
          addedItems \/
   (actor_highestSpellcasting actor = None /\ actor_highestSynthetic actor = None)) ->
  finalSources actor addedItems
  = (fun source => (tagSource randomID source).1) <$> addedItems /\
  (forall source,
      getProperty source ["type"] <> JStr "spell" \/
      truthy (getFlagProperty source ["identifier"]) = true ->
      (tagSource randomID source).2 = false /\
      getFlagProperty (tagSource randomID source).1 ["identifier"]
      = getFlagProperty source ["identifier"]).
Proof.
  intros Hplain. split.
  - apply finalSources_plain. destruct Hplain as [Hnone|Hstat]; [left|by right].
    eapply Forall_impl; [exact Hnone|]. intros source Hs.
    by apply tagSource_not_orphan.
  - intros source. apply tagSource_not_orphan.
Qed.

Lemma no_entry_without_orphans_witness :
  length (@finalSources plainHost (plainActor None) [grantedFeat]) = 1%nat.
Proof.
  destruct (@no_entry_without_orphans plainHost (plainActor None) [grantedFeat])
    as [Hfinal _].
  - left. constructor; [|constructor]. left. discriminate.
  - rewrite Hfinal. reflexivity.
Defined.

(** ** The accumulators of an accept *)

Section accumulator_facts.
Context `{Host}.

Lemma applyOp_lists ctx op :
  ctx_addedItems ctx `prefix_of` ctx_addedItems (applyOp ctx op) /\
  ctx_deletedItems ctx `prefix_of` ctx_deletedItems (applyOp ctx op) /\
  ctx_rawMessages ctx `prefix_of` ctx_rawMessages (applyOp ctx op).
Proof.
  destruct op; cbn [applyOp]; try destruct (_ && _); cbn; repeat split;
    try reflexivity; by eexists.
Qed.

Lemma applyOp_groups ctx op name group :
  assocGet name (ctx_messageGroups ctx) = Some group ->
  exists group',
    assocGet name (ctx_messageGroups (applyOp ctx op)) = Some group' /\
    grp_order group' = grp_order group /\
    grp_messages group `prefix_of` grp_messages group' /\
    (forall label, grp_label group = Some label -> grp_label group' = Some label).
Proof.
  intros Hget.
  destruct op as [g message|g label order| | | | | | | |];
    try (exists group; cbn; repeat split; done).
  - cbn [applyOp].
    destruct (decide (g = name)) as [->|Hne].
    + rewrite Hget, (bool_decide_eq_false_2 (Some group = None)) by done.
      cbn [andb ctx_messageGroups withMessageGroups].
      rewrite assocGet_assocSet_eq. cbn [default]. eexists. split; [reflexivity|].
      cbn. repeat split; [by eexists|done].
    + destruct (_ && _); [exists group; repeat split; done|].
      cbn [ctx_messageGroups withMessageGroups].
      rewrite assocGet_assocSet_ne by done. exists group. repeat split; done.
  - cbn [applyOp].
    destruct (decide (g = name)) as [->|Hne].
    + rewrite Hget, (bool_decide_eq_false_2 (Some group = None)) by done.
      cbn [andb ctx_messageGroups withMessageGroups].
      rewrite assocGet_assocSet_eq. eexists. split; [reflexivity|].
      cbn. repeat split; [done|]. intros l Hl. by rewrite Hl.
    + destruct (_ && _); [exists group; repeat split; done|].
      cbn [ctx_messageGroups withMessageGroups].
      rewrite assocGet_assocSet_ne by done. exists group. repeat split; done.
Qed.

End accumulator_facts.

(** X16: what the callbacks of an accept record is never taken back by
    a later call of a helper: the added sources, the deleted ids and the
    raw messages only grow at their end, and a message group that exists
    keeps its priority, its label once it has one, and the messages it
    has, new ones going after them. The six default groups therefore
    keep their priorities whatever the dailies do. *)
Theorem accumulators_only_grow `{Host} (ctx : ProcessContext) (ops : list ProcessOp) :
  ctx_addedItems ctx `prefix_of` ctx_addedItems (foldl applyOp ctx ops) /\
  ctx_deletedItems ctx `prefix_of` ctx_deletedItems (foldl applyOp ctx ops) /\
  ctx_rawMessages ctx `prefix_of` ctx_rawMessages (foldl applyOp ctx ops) /\
  (forall name group,
      assocGet name (ctx_messageGroups ctx) = Some group ->
      exists group',
        assocGet name (ctx_messageGroups (foldl applyOp ctx ops)) = Some group' /\
        grp_order group' = grp_order group /\
        grp_messages group `prefix_of` grp_messages group' /\
        (forall label, grp_label group = Some label -> grp_label group' = Some label)).
Proof.
  revert ctx. induction ops as [|op ops IH]; intros ctx.
  - cbn. repeat split; try reflexivity. intros name group Hget. exists group. done.
  - cbn [foldl].
    destruct (applyOp_lists ctx op) as (Ha & Hd & Hr).
    destruct (IH (applyOp ctx op)) as (Ha' & Hd' & Hr' & Hg').
    split; [by etrans|]. split; [by etrans|]. split; [by etrans|].
    intros name group Hget.
    destruct (applyOp_groups ctx op name group Hget) as (g1 & Hg1 & Ho1 & Hm1 & Hl1).
    destruct (Hg' name g1 Hg1) as (g2 & Hg2 & Ho2 & Hm2 & Hl2).
    exists g2. split; [done|]. split; [congruence|]. split; [by etrans|]. auto.
Qed.

Lemma accumulators_only_grow_witness :
  exists group,
    assocGet "languages"
      (ctx_messageGroups (foldl (@applyOp plainHost) initialContext summaryOps))
    = Some group /\
    grp_order group = 80.
Proof.
  destruct (@accumulators_only_grow plainHost initialContext summaryOps)
    as (_ & _ & _ & Hgroups).
  destruct (Hgroups "languages" (emptyGroup 80) eq_refl) as (group & Hget & Horder & _).
  by exists group.
Defined.

(** ** Feat validation *)

Section feat_facts.
Context `{Host}.
Variable toLowerCase : string -> string.
Variable translatedSkills : list (string * string).

Lemma between_spec n a b :
  between n a b = true <-> Z.min a b <= n <= Z.max a b.
Proof. unfold between. rewrite andb_true_iff, !Z.leb_le. done. Qed.

Lemma setAdd_elem_of set x y : y ∈ setAdd set x <-> y ∈ set \/ y = x.
Proof.
  unfold setAdd. case_bool_decide as Hin.
  - split; [by left|]. intros [?| ->]; done.
  - rewrite elem_of_app, list_elem_of_singleton. done.
Qed.

Lemma skills_of_prereq prereq (entries : list (string * string)) skills skill :
  skill ∈ foldl (fun skills entry =>
                   if includes prereq entry.1 || includes prereq entry.2
                   then setAdd skills entry.1 else skills) skills entries <->
  skill ∈ skills \/
  exists name, (skill, name) ∈ entries /\
               (includes prereq skill = true \/ includes prereq name = true).
Proof.
  revert skills. induction entries as [|[key value] entries IH]; intros skills.
  - cbn. split; [by left|]. intros [?|(name & Hin & _)]; [done|inversion Hin].
  - cbn [foldl]. rewrite IH. cbn [fst snd]. split.
    + intros [Hin|(name & Hin & Hfound)].
      * destruct (includes prereq key || includes prereq value) eqn:Hfound.
        -- apply setAdd_elem_of in Hin as [Hin| ->]; [by left|].
           right. exists value. split; [left|]. by apply orb_true_iff.
        -- by left.
      * right. exists name. split; [by right|done].
    + intros [Hin|(name & Hin & Hfound)].
      * left. destruct (_ || _); [|done]. apply setAdd_elem_of. by left.
      * apply elem_of_cons in Hin as [[= <- <-]|Hin].
        -- left. apply orb_true_iff in Hfound. rewrite Hfound.
           apply setAdd_elem_of. by right.
        -- right. eauto.
Qed.

Lemma skills_of_prereqs (prereqs : list string) skills skill :
  skill ∈ foldl (fun skills prereq =>
                   foldl (fun skills entry =>
                            if includes prereq entry.1 || includes prereq entry.2
                            then setAdd skills entry.1 else skills)
                         skills translatedSkills) skills prereqs <->
  skill ∈ skills \/
  exists prereq name, prereq ∈ prereqs /\ (skill, name) ∈ translatedSkills /\
                      (includes prereq skill = true \/ includes prereq name = true).
Proof.
  revert skills. induction prereqs as [|prereq prereqs IH]; intros skills.
  - cbn. split; [by left|]. intros [?|(prereq & name & Hin & _)]; [done|inversion Hin].
  - cbn [foldl]. rewrite IH, skills_of_prereq. split.
    + intros [[Hin|(name & Hin & Hfound)]|(prereq' & name & Hp & Hin & Hfound)].
      * by left.
      * right. exists prereq, name. split; [left|done].
      * right. exists prereq', name. split; [by right|done].
    + intros [Hin|(prereq' & name & Hp & Hin & Hfound)].
      * left. by left.
      * apply elem_of_cons in Hp as [->|Hp].
        -- left. right. eauto.
        -- right. eauto.
Qed.

Lemma featSkills_spec item skill :
  skill ∈ featSkills toLowerCase translatedSkills item <->
  exists prereq name,
    prereq ∈ prerequisitesArr toLowerCase item /\ (skill, name) ∈ translatedSkills /\
    (includes prereq skill = true \/ includes prereq name = true).
Proof.
  unfold featSkills. rewrite skills_of_prereqs. split; [|by right].
  intros [Hin|Hfound]; [inversion Hin|done].
Qed.

Lemma checkLevel_None item filter :
  checkLevel item filter = None <->
  Z.min (fflt_levelMin filter) (fflt_levelMax filter) <= feat_level item
  <= Z.max (fflt_levelMin filter) (fflt_levelMax filter).
Proof.
  unfold checkLevel. rewrite <- between_spec.
  destruct (between _ _ _); cbn; split; done.
Qed.

Lemma checkFeatCategory_None item filter :
  checkFeatCategory item filter = None <->
  fflt_category filter = [] \/ feat_category item ∈ fflt_category filter.
Proof.
  unfold checkFeatCategory.
  do 2 case_bool_decide; cbn; split; try done; try tauto; intros [?|?]; done.
Qed.

Lemma checkSkills_None item filter :
  checkSkills toLowerCase translatedSkills item filter = None <->
  forall skill, skill ∈ fflt_skills filter ->
                skill ∈ featSkills toLowerCase translatedSkills item.
Proof.
  unfold checkSkills. case_bool_decide as Hnil; cbn.
  - split; [|done]. intros _ skill Hin. rewrite Hnil in Hin. inversion Hin.
  - case_bool_decide as Hmissing; cbn.
    + split; [|done]. intros _ skill Hin.
      destruct (decide (skill ∈ featSkills toLowerCase translatedSkills item)); [done|].
      assert (skill ∈ list_difference (fflt_skills filter)
                        (featSkills toLowerCase translatedSkills item))
        by (by apply list_elem_of_difference).
      rewrite Hmissing in *. set_solver.
    + split; [done|]. intros Hall. exfalso. apply Hmissing.
      destruct (list_difference _ _) as [|skill rest] eqn:Hdiff; [done|].
      assert (Hin : skill ∈ list_difference (fflt_skills filter)
                              (featSkills toLowerCase translatedSkills item))
        by (rewrite Hdiff; left).
      apply list_elem_of_difference in Hin as [Hin Hnot]. by apply Hall in Hin.
Qed.

Lemma validateFeat_true item filter :
  (validateFeat toLowerCase translatedSkills item filter).2 = true <->
  checkLevel item filter = None /\ checkFeatCategory item filter = None /\
  checkSkills toLowerCase translatedSkills item filter = None /\
  validateDefaultOf (feat_traits item) (feat_rarity item) (feat_publication item)
    (fflt_traits filter) (fflt_traitsConjunction filter) (fflt_rarity filter)
    (fflt_source filter) = None.
Proof.
  unfold validateFeat.
  repeat case_match; cbn; split; try done; intros (? & ? & ? & ?); congruence.
Qed.

Lemma validateFeat_warns item filter :
  (validateFeat toLowerCase translatedSkills item filter).2 = false <->
  is_Some (validateFeat toLowerCase translatedSkills item filter).1.
Proof.
  unfold validateFeat.
  repeat case_match; cbn; split; try done; try (intros _; eauto); intros [? ?]; done.
Qed.

Lemma validateSpell_warns item filter :
  (validateSpell item filter).2 = false <-> is_Some (validateSpell item filter).1.
Proof.
  unfold validateSpell.
  repeat case_match; cbn; split; try done; try (intros _; eauto); intros [? ?]; done.
Qed.

Lemma validateDefault_of item filter :
  validateDefault item filter
  = validateDefaultOf (spell_traits item) (spell_rarity item) (spell_publication item)
      (flt_traits filter) (flt_traitsConjunction filter) (flt_rarity filter)
      (flt_source filter).
Proof. reflexivity. Qed.

End feat_facts.

(** X17: a dropped feat passes validation exactly when its level lies
    between the two bounds of the filter, taken in either order and both
    included, its category is among the selected ones if any is
    selected, every selected skill is found in one of its prerequisites,
    by its key or by its localized name as a part of the prerequisite in
    lower case, and the checks shared with spells pass. *)
Theorem feat_accepted_iff `{Host} (toLowerCase : string -> string)
    (translatedSkills : list (string * string)) (item : FeatPF2e)
    (filter : FeatFilters) :
  (validateFeat toLowerCase translatedSkills item filter).2 = true <->
  Z.min (fflt_levelMin filter) (fflt_levelMax filter) <= feat_level item
  <= Z.max (fflt_levelMin filter) (fflt_levelMax filter) /\
  (fflt_category filter = [] \/ feat_category item ∈ fflt_category filter) /\
  (forall skill,
      skill ∈ fflt_skills filter ->
      exists prereq name,
        prereq ∈ prerequisitesArr toLowerCase item /\
        (skill, name) ∈ translatedSkills /\
        (includes prereq skill = true \/ includes prereq name = true)) /\
  validateDefaultOf (feat_traits item) (feat_rarity item) (feat_publication item)
    (fflt_traits filter) (fflt_traitsConjunction filter) (fflt_rarity filter)
    (fflt_source filter) = None.
Proof.
  rewrite validateFeat_true, checkLevel_None, checkFeatCategory_None, checkSkills_None.
  split.
  - intros (Hl & Hc & Hs & Hd). repeat split; try done; try apply Hl.
    intros skill Hin. by apply featSkills_spec, Hs.
  - intros (Hl & Hc & Hs & Hd). repeat split; try done; try apply Hl.
    intros skill Hin. by apply featSkills_spec, Hs.
Qed.

Lemma feat_accepted_iff_witness :
  (@validateFeat plainHost lowerCase sampleSkills quietFeat quietFilter).2 = true.
Proof.
  apply (@feat_accepted_iff plainHost lowerCase sampleSkills quietFeat quietFilter).
  split; [cbn; lia|]. split; [right; left|]. split; [|reflexivity].
  intros skill Hin. apply list_elem_of_singleton in Hin as ->.
  exists "trained in stealth", "discretion".
  split; [left|]. split; [right; left|]. left. reflexivity.
Defined.

(** X18: validation never refuses in silence and never warns about what
    it accepts: for a spell and for a feat alike, the result is [false]
    exactly when a warning is given. The checks that spells and feats
    share are the same function of the item's traits, rarity and
    publication. *)
Theorem validation_warns_iff_refused `{Host} (toLowerCase : string -> string)
    (translatedSkills : list (string * string)) :
  (forall item filter,
      (validateSpell item filter).2 = false <-> is_Some (validateSpell item filter).1) /\
  (forall item filter,
      (validateFeat toLowerCase translatedSkills item filter).2 = false <->
      is_Some (validateFeat toLowerCase translatedSkills item filter).1) /\
  (forall item filter,
      validateDefault item filter
      = validateDefaultOf (spell_traits item) (spell_rarity item)
          (spell_publication item) (flt_traits filter) (flt_traitsConjunction filter)
          (flt_rarity filter) (flt_source filter)).
Proof.
  split; [|split].
  - intros item filter. apply validateSpell_warns.
  - intros item filter. apply validateFeat_warns.
  - intros item filter. reflexivity.
Qed.

(** ** Drops *)

Section drop_facts.
Context `{Host}.
Variable toLowerCase : string -> string.
Variable translatedSkills : list (string * string).

Lemma dropChecked_cases target item hook (validation : option DropNotice * bool) :
  (validation.2 = false -> is_Some validation.1) ->
  (exists notice, dropChecked target item hook validation = (Some target, Some notice)) \/
  (hook = HookPass /\ validation.2 = true /\
   dropChecked target item hook validation = (Some (setDropped target item), None)).
Proof.
  intros Hwarn. unfold dropChecked. destruct hook; [|left; eauto..].
  destruct validation.2 eqn:Hvalid.
  - right. done.
  - left. destruct (Hwarn eq_refl) as [notice ->]. eauto.
Qed.

(** The validation the drop of an item on a row with this filter goes
    through, when the item is of the filter's type. *)
Lemma onDrop_cases event target :
  drop_target event = Some target ->
  (exists notice,
      onDrop toLowerCase translatedSkills event = (Some target, Some notice)) \/
  (exists item compendium,
      drop_dataType event = Some "Item" /\ is_Some (drop_dataUuid event) /\
      drop_item event = Some item /\ drop_compendium event = Some compendium /\
      drop_hook event = HookPass /\
      dropped_type item = compendium_type compendium /\
      match item, compendium with
      | DroppedFeat _ _ feat, CompendiumFeat _ _ filter =>
          (validateFeat toLowerCase translatedSkills feat filter).2 = true
      | DroppedSpell _ _ spell, CompendiumSpell _ _ filter =>
          (validateSpell spell filter).2 = true
      | _, _ => False
      end /\
      onDrop toLowerCase translatedSkills event = (Some (setDropped target item), None)).
Proof.
  intros Htarget. unfold onDrop. rewrite Htarget.
  case_bool_decide as Htype; cbn [negb orb]; [|left; eauto].
  case_bool_decide as Huuid; cbn [negb]; [|left; eauto].
  destruct (drop_item event) as [item|]; [|left; eauto].
  destruct (drop_compendium event) as [compendium|]; [|left; destruct item; eauto].
  destruct item as [name uuid feat|name uuid spell|type name uuid],
    compendium as [daily row filter|daily row filter]; try (left; eauto; fail).
  - match goal with
    | |- context [dropChecked ?t ?i ?h ?v] =>
        destruct (dropChecked_cases t i h v) as [Hwarned|(Hhook & Hvalid & Htaken)]
    end.
    + cbn [fst snd]. intros Hv. apply validateFeat_warns in Hv as [w Hw].
      rewrite Hw. by eexists.
    + by left.
    + right. eexists _, _. repeat split; try done.
  - match goal with
    | |- context [dropChecked ?t ?i ?h ?v] =>
        destruct (dropChecked_cases t i h v) as [Hwarned|(Hhook & Hvalid & Htaken)]
    end.
    + cbn [fst snd]. intros Hv. apply validateSpell_warns in Hv as [w Hw].
      rewrite Hw. by eexists.
    + by left.
    + right. eexists _, _. repeat split; try done.
Qed.

End drop_facts.

(** X19: a drop on an input either is taken or is refused with a
    warning, never both and never neither. It is taken only when the
    drag data is an item with a uuid, the item and the row's filter are
    found, the item is of the filter's type, the row's hook does not
    object and validation passes; the input then shows the item's name
    and carries its uuid, and nothing else of it changes. A refused drop
    leaves the input as it was. Without a target nothing happens. *)
Theorem drop_taken_or_warned `{Host} (toLowerCase : string -> string)
    (translatedSkills : list (string * string)) (event : DropEvent) :
  (drop_target event = None ->
   onDrop toLowerCase translatedSkills event = (None, None)) /\
  (forall target,
      drop_target event = Some target ->
      (exists notice,
          onDrop toLowerCase translatedSkills event = (Some target, Some notice)) \/
      (exists item compendium,
          drop_dataType event = Some "Item" /\ is_Some (drop_dataUuid event) /\
          drop_item event = Some item /\ drop_compendium event = Some compendium /\
          drop_hook event = HookPass /\
          dropped_type item = compendium_type compendium /\
          match item, compendium with
          | DroppedFeat _ _ feat, CompendiumFeat _ _ filter =>
              (validateFeat toLowerCase translatedSkills feat filter).2 = true
          | DroppedSpell _ _ spell, CompendiumSpell _ _ filter =>
              (validateSpell spell filter).2 = true
          | _, _ => False
          end /\
          onDrop toLowerCase translatedSkills event
          = (Some (setDropped target item), None) /\
          el_value (setDropped target item) = dropped_name item /\
          el_uuid (setDropped target item) = dropped_uuid item /\
          (el_type (setDropped target item), el_daily (setDropped target item),
           el_row (setDropped target item), el_save (setDropped target item),
           el_empty (setDropped target item))
          = (el_type target, el_daily target, el_row target, el_save target,
             el_empty target))).
Proof.
  split.
  - intros Hnone. unfold onDrop. by rewrite Hnone.
  - intros target Htarget.
    destruct (onDrop_cases toLowerCase translatedSkills event target Htarget)
      as [Hwarned|(item & compendium & H1 & H2 & H3 & H4 & H5 & H6 & H7 & H8)].
    + by left.
    + right. exists item, compendium. repeat split; done.
Qed.

Lemma drop_taken_or_warned_witness :
  @onDrop plainHost lowerCase sampleSkills quietDrop
  = (Some (setDropped dropElement
             (DroppedFeat "Quiet Allies" "Compendium.feats.quiet" quietFeat)), None).
Proof.
  destruct (@drop_taken_or_warned plainHost lowerCase sampleSkills quietDrop)
    as [_ Hcases].
  destruct (Hcases dropElement eq_refl)
    as [(notice & Hwarned)
       |(item & compendium & _ & _ & Hitem & _ & _ & _ & _ & Htaken & _)].
  - discriminate Hwarned.
  - injection Hitem as <-. exact Htaken.
Defined.

(** X20: a feat whose level is outside the range of the row's filter is
    refused with the level warning, which names the range and the
    feat's level, and the input keeps its value; a feat dropped on a
    spell row, or a spell on a feat row, is refused with the type
    warning before the row's hook is asked. *)
Theorem drop_refused_by_level_or_type `{Host} (toLowerCase : string -> string)
    (translatedSkills : list (string * string)) (event : DropEvent)
    (target : RowElement) (item : DroppedItem) (compendium : CompendiumFilter) :
  drop_target event = Some target ->
  drop_dataType event = Some "Item" ->
  is_Some (drop_dataUuid event) ->
  drop_item event = Some item ->
  drop_compendium event = Some compendium ->
  (dropped_type item <> compendium_type compendium ->
   onDrop toLowerCase translatedSkills event
   = (Some target,
      Some (NoticeData
              (DropDataWarning "type"
                 [i18n_localize ("TYPES.Item." +:+ compendium_type compendium)]
                 [i18n_localize ("TYPES.Item." +:+ dropped_type item)])))) /\
  (forall name uuid feat daily row filter,
      item = DroppedFeat name uuid feat ->
      compendium = CompendiumFeat daily row filter ->
      drop_hook event = HookPass ->
      ~ (Z.min (fflt_levelMin filter) (fflt_levelMax filter) <= feat_level feat
         <= Z.max (fflt_levelMin filter) (fflt_levelMax filter)) ->
      onDrop toLowerCase translatedSkills event
      = (Some target,
         Some (NoticeFeat
                 (FeatData
                    (DropDataWarning "level"
                       [pretty (fflt_levelMin filter) +:+ "-"
                          +:+ pretty (fflt_levelMax filter)]
                       [pretty (feat_level feat)]))))).
Proof.
  intros Htarget Htype Huuid Hitem Hcompendium. unfold onDrop.
  rewrite Htarget, Htype, Hitem, Hcompendium.
  rewrite bool_decide_eq_true_2 by done. rewrite bool_decide_eq_true_2 by done.
  cbn [negb orb]. split.
  - intros Hne. destruct item, compendium; cbn in Hne; done.
  - intros name uuid feat daily row filter -> -> Hhook Hlevel.
    rewrite Hhook. unfold dropChecked, validateFeat.
    assert (Hcheck : checkLevel feat filter
                     = Some (FeatData
                               (DropDataWarning "level"
                                  [pretty (fflt_levelMin filter) +:+ "-"
                                     +:+ pretty (fflt_levelMax filter)]
                                  [pretty (feat_level feat)]))).
    { unfold checkLevel. destruct (between _ _ _) eqn:Hb; [|done].
      apply between_spec in Hb. done. }
    rewrite Hcheck. reflexivity.
Qed.

Lemma drop_refused_by_level_or_type_witness :
  @onDrop plainHost lowerCase sampleSkills
    {| drop_target := Some dropElement;
       drop_dataType := Some "Item";
       drop_dataUuid := Some "Compendium.spells.guidance";
       drop_item := Some (DroppedSpell "Guidance" "Compendium.spells.guidance" focusCantrip);
       drop_compendium := Some (CompendiumFeat "flexibility" "feat" quietFilter);
       drop_hook := HookFalse |}
  = (Some dropElement,
     Some (NoticeData (DropDataWarning "type" ["TYPES.Item.feat"] ["TYPES.Item.spell"]))).
Proof.
  refine (proj1 (@drop_refused_by_level_or_type plainHost lowerCase sampleSkills
                   {| drop_target := Some dropElement;
                      drop_dataType := Some "Item";
                      drop_dataUuid := Some "Compendium.spells.guidance";
                      drop_item :=
                        Some (DroppedSpell "Guidance" "Compendium.spells.guidance"
                                focusCantrip);
                      drop_compendium :=
                        Some (CompendiumFeat "flexibility" "feat" quietFilter);
                      drop_hook := HookFalse |}
                   dropElement
                   (DroppedSpell "Guidance" "Compendium.spells.guidance" focusCantrip)
                   (CompendiumFeat "flexibility" "feat" quietFilter)
                   eq_refl eq_refl _ eq_refl eq_refl) _).
  - by eexists.
  - discriminate.
Defined.

(** X21: what is dropped is what gets recorded: after a drop that is
    taken on the input of a drop row, accepting the form reads for the
    row the item's uuid and name, under the daily and row the input
    belonged to before; and after the field is cleared it reads an empty
    uuid and an empty name. *)
Theorem dropped_item_recorded `{Host} (toLowerCase : string -> string)
    (translatedSkills : list (string * string)) (event : DropEvent)
    (target target' : RowElement) :
  drop_target event = Some target ->
  el_type target = TDrop ->
  onDrop toLowerCase translatedSkills event = (Some target', None) ->
  exists item,
    drop_item event = Some item /\
    rowValue target' = Some (RowDrop (dropped_uuid item) (dropped_name item)) /\
    (el_daily target', el_row target', el_save target')
    = (el_daily target, el_row target, el_save target) /\
    rowValue (onClearField target') = Some (RowDrop "" "").
Proof.
  intros Htarget Htype Hdrop.
  destruct (onDrop_cases toLowerCase translatedSkills event target Htarget)
    as [(notice & Hwarned)|(item & compendium & _ & _ & Hitem & _ & _ & _ & _ & Htaken)].
  - rewrite Hwarned in Hdrop. discriminate.
  - rewrite Htaken in Hdrop. injection Hdrop as <-.
    exists item. split; [done|]. unfold rowValue. cbn. rewrite Htype. done.
Qed.

Lemma dropped_item_recorded_witness :
  exists target',
    @onDrop plainHost lowerCase sampleSkills quietDrop = (Some target', None) /\
    @rowValue plainHost target' = Some (RowDrop "Compendium.feats.quiet" "Quiet Allies").
Proof.
  exists (setDropped dropElement
            (DroppedFeat "Quiet Allies" "Compendium.feats.quiet" quietFeat)).
  assert (Hdrop : @onDrop plainHost lowerCase sampleSkills quietDrop
                  = (Some (setDropped dropElement
                             (DroppedFeat "Quiet Allies" "Compendium.feats.quiet"
                                quietFeat)), None))
    by (vm_compute; reflexivity).
  split; [exact Hdrop|].
  destruct (@dropped_item_recorded plainHost lowerCase sampleSkills quietDrop dropElement
              _ eq_refl eq_refl Hdrop) as (item & Hitem & Hvalue & _).
  injection Hitem as <-. exact Hvalue.
Defined.

(** X22: clearing a field that must not be empty blocks the next accept:
    with the cleared input on the form, accepting warns about the empty
    rows, marks the row and commits nothing. *)
Theorem cleared_field_blocks_accept `{Host} (actor : CharacterPF2e)
    (catalog : gmap string PreparedDaily) (form : list RowElement)
    (inputEl : RowElement) :
  onClearField inputEl ∈ form ->
  el_empty inputEl = false ->
  EWarn "interface.error.empty" ∈ (onAccept actor catalog form).1 /\
  EMarkEmpty (el_row inputEl) ∈ (onAccept actor catalog form).1 /\
  Forall (fun e => isCommitEffect e = false) (onAccept actor catalog form).1 /\
  EClose ∉ (onAccept actor catalog form).1.
Proof.
  intros Hin Hempty. unfold onAccept.
  set (emptyRows := List.filter _ form).
  assert (Hel : onClearField inputEl ∈ emptyRows).
  { apply list_elem_of_In, filter_In. split; [by apply list_elem_of_In|].
    cbn. by rewrite Hempty. }
  rewrite bool_decide_eq_false_2 by (intros Hnil; rewrite Hnil in Hel; inversion Hel).
  cbn [negb fst]. split; [set_solver|]. split.
  - do 2 right. apply list_elem_of_fmap. by exists (onClearField inputEl).
  - split.
    + constructor; [done|]. constructor; [done|]. apply Forall_fmap, Forall_true. done.
    + intros Hclose. apply elem_of_cons in Hclose as [?|Hclose]; [done|].
      apply elem_of_cons in Hclose as [?|Hclose]; [done|].
      apply list_elem_of_fmap in Hclose as (el & ? & _). done.
Qed.

Lemma cleared_field_blocks_accept_witness :
  EWarn "interface.error.empty"
    ∈ (@onAccept plainHost (plainActor None) ∅
         [onClearField (setDropped dropElement
                          (DroppedFeat "Quiet Allies" "Compendium.feats.quiet"
                             quietFeat))]).1.
Proof.
  apply (@cleared_field_blocks_accept plainHost (plainActor None) ∅ _
           (setDropped dropElement
              (DroppedFeat "Quiet Allies" "Compendium.feats.quiet" quietFeat))).
  - left.
  - reflexivity.
Defined.

(** ** Combo rows *)



(** X24: a change of the select of a combo row goes through exactly
    when the select shows one of its options; the input then takes the
    option's text, [input] goes off, and accept records the option's
    value. With no option selected the handler throws. *)
Theorem combo_select_taken `{Host} (options : list ComboOption) (selectedIndex : Z)
    (inputEl : RowElement) :
  el_type inputEl = TCombo ->
  (0 <= selectedIndex < Z.of_nat (length options) ->
   exists option,
     options !! Z.to_nat selectedIndex = Some option /\
     onComboSelectChange options selectedIndex inputEl
     = Ok (setCombo inputEl (copt_text option) false (copt_value option)) /\
     rowValue (setCombo inputEl (copt_text option) false (copt_value option))
     = Some (RowCombo (copt_value option) false)) /\
  (~ (0 <= selectedIndex < Z.of_nat (length options)) ->
   onComboSelectChange options selectedIndex inputEl = Throw TypeError).
Proof.
  intros Htype. unfold onComboSelectChange. split.
  - intros [Hlow Hhigh]. rewrite (proj2 (Z.ltb_ge _ _)) by done.
    destruct (lookup_lt_is_Some_2 options (Z.to_nat selectedIndex)) as [option Hoption];
      [lia|].
    exists option. rewrite Hoption. repeat split; try done.
    unfold rowValue. cbn. by rewrite Htype.
  - intros Hout. destruct (selectedIndex <? 0) eqn:Hneg; [done|].
    apply Z.ltb_ge in Hneg. rewrite lookup_ge_None_2; [done|]. lia.
Qed.

Lemma combo_select_taken_witness :
  onComboSelectChange comboOptions 1 (comboElement "dw")
  = Ok (setCombo (comboElement "dw") "Dwarven" false "dwarven") /\
  onComboSelectChange comboOptions (-1) (comboElement "dw") = Throw TypeError.
Proof.
  destruct (@combo_select_taken plainHost comboOptions 1 (comboElement "dw") eq_refl)
    as [Htaken _].
  destruct (@combo_select_taken plainHost comboOptions (-1) (comboElement "dw") eq_refl)
    as [_ Hthrown].
  split.
  - destruct Htaken as (option & Hoption & Hchange & _); [cbn; lia|].
    injection Hoption as <-. exact Hchange.
  - apply Hthrown. cbn. lia.
Defined.

(** ** Random rows *)

Section tick_facts.

Lemma randomTick_index (randomElement : SelectEl) :
  sel_options randomElement <> [] ->
  0 <= sel_selectedIndex randomElement ->
  sel_selectedIndex (randomTick randomElement)
  = (sel_selectedIndex randomElement + 1) mod Z.of_nat (length (sel_options randomElement)).
Proof.
  intros Hne Hpos. unfold randomTick. cbn.
  destruct (sel_options randomElement) as [|o options] eqn:Hoptions; [done|].
  rewrite (proj2 (Z.eqb_neq _ _)) by (cbn; lia).
  apply Z.rem_mod_nonneg; cbn; lia.
Qed.

Lemma randomTick_iter (randomElement : SelectEl) (k : nat) :
  sel_options randomElement <> [] ->
  0 <= sel_selectedIndex randomElement ->
  sel_options (Nat.iter k randomTick randomElement) = sel_options randomElement /\
  sel_selectedIndex (Nat.iter k randomTick randomElement)
  = (if k is O then sel_selectedIndex randomElement
     else (sel_selectedIndex randomElement + Z.of_nat k)
          mod Z.of_nat (length (sel_options randomElement))).
Proof.
  intros Hne Hpos. induction k as [|k [IHoptions IHindex]]; [done|].
  change (Nat.iter (S k) randomTick randomElement)
    with (randomTick (Nat.iter k randomTick randomElement)).
  split; [exact IHoptions|].
  rewrite randomTick_index.
  - rewrite IHoptions, IHindex. destruct k as [|k]; [f_equal; lia|].
    rewrite Zplus_mod_idemp_l. f_equal. lia.
  - by rewrite IHoptions.
  - rewrite IHindex. destruct k; [done|].
    apply Z.mod_pos_bound. destruct (sel_options randomElement); [done|cbn; lia].
Qed.

End tick_facts.

(** X25: the ticker of a random row walks through the options in a
    circle: from a selected option, [k] ticks move the selection [k]
    options further, wrapping after the last; every option is shown
    within as many ticks as there are options, which is also when the
    selection is back where it started. From no selection the first tick
    selects the first option. *)
Theorem random_tick_cycles (randomElement : SelectEl) :
  sel_options randomElement <> [] ->
  0 <= sel_selectedIndex randomElement
  < Z.of_nat (length (sel_options randomElement)) ->
  (forall k,
      sel_selectedIndex (Nat.iter (S k) randomTick randomElement)
      = (sel_selectedIndex randomElement + Z.of_nat (S k))
        mod Z.of_nat (length (sel_options randomElement))) /\
  sel_selectedIndex
    (Nat.iter (length (sel_options randomElement)) randomTick randomElement)
  = sel_selectedIndex randomElement /\
  (forall index,
      0 <= index < Z.of_nat (length (sel_options randomElement)) ->
      exists k, (k < length (sel_options randomElement))%nat /\
                sel_selectedIndex (Nat.iter k randomTick randomElement) = index) /\
  (forall options,
      options <> [] ->
      sel_selectedIndex
        (randomTick {| sel_options := options; sel_selectedIndex := -1 |}) = 0).
Proof.
  intros Hne [Hlow Hhigh].
  set (n := Z.of_nat (length (sel_options randomElement))) in *.
  assert (Hn : 0 < n) by lia.
  split; [|split; [|split]].
  - intros k. by destruct (randomTick_iter randomElement (S k) Hne Hlow) as [_ ->].
  - destruct (randomTick_iter randomElement (length (sel_options randomElement)) Hne Hlow)
      as [_ ->].
    destruct (length (sel_options randomElement)) eqn:Hlen; [done|].
    fold n. rewrite <- (Z.mul_1_l n) at 1. rewrite Z.mod_add by lia.
    apply Z.mod_small. lia.
  - intros index [Hi Hi'].
    exists (Z.to_nat ((index - sel_selectedIndex randomElement) mod n)).
    pose proof (Z.mod_pos_bound (index - sel_selectedIndex randomElement) n Hn) as Hbound.
    split; [unfold n in *; lia|].
    destruct (randomTick_iter randomElement
                (Z.to_nat ((index - sel_selectedIndex randomElement) mod n)) Hne Hlow)
      as [_ ->].
    destruct (Z.to_nat _) eqn:Hk.
    + assert (Hzero : (index - sel_selectedIndex randomElement) mod n = 0) by lia.
      pose proof (Z.div_mod (index - sel_selectedIndex randomElement) n) as Hdiv.
      rewrite Hzero in Hdiv.
      assert ((index - sel_selectedIndex randomElement) / n = 0) by nia. lia.
    + rewrite <- Hk. rewrite Z2Nat.id by lia. fold n.
      rewrite Zplus_mod_idemp_r. replace (_ + _) with index by lia.
      apply Z.mod_small. lia.
  - intros options Hoptions. unfold randomTick. cbn.
    destruct options; [done|]. cbn. reflexivity.
Qed.

Lemma random_tick_cycles_witness :
  sel_selectedIndex (Nat.iter 3 randomTick (mkSelect ["a"; "b"; "c"] 1)) = 1.
Proof.
  destruct (random_tick_cycles (mkSelect ["a"; "b"; "c"] 1)) as (_ & Hback & _).
  - discriminate.
  - cbn. lia.
  - exact Hback.
Defined.

(** ** The filter adapter *)

Section convert_facts.
Variable simplifyValue : CharacterPF2e -> SimplifiableValue -> option Z.
Variable stringNumber : Z -> string.

Lemma assocGet_fmap_keyed {A B} (f : string * A -> string * B) k (l : list (string * A)) :
  (forall entry, (f entry).1 = entry.1) ->
  assocGet k (f <$> l) = (fun v => (f (k, v)).2) <$> assocGet k l.
Proof.
  intros Hkey. induction l as [|[k' v] l IH]; [reflexivity|].
  rewrite fmap_cons. specialize (Hkey (k', v)) as Hk. cbn in Hk.
  destruct (f (k', v)) as [k'' v'] eqn:Hf. cbn in Hk. subst k''.
  cbn [assocGet]. destruct (String.eqb k k') eqn:Heq.
  - apply String.eqb_eq in Heq. subst k'. cbn. by rewrite Hf.
  - exact IH.
Qed.

Lemma convertCheckbox_key actor dropFilter entry :
  (convertCheckbox simplifyValue stringNumber actor dropFilter entry).1 = entry.1.
Proof. destruct entry. unfold convertCheckbox. by case_match. Qed.

Lemma convertMultiselect_key dropFilter entry :
  (convertMultiselect dropFilter entry).1 = entry.1.
Proof. destruct entry. unfold convertMultiselect. by case_match. Qed.

Lemma convertSlider_key actor dropFilter entry :
  (convertSlider simplifyValue actor dropFilter entry).1 = entry.1.
Proof. destruct entry. unfold convertSlider. repeat case_match; done. Qed.

Lemma rangeFromOne_elem_of n z : z ∈ rangeFromOne n <-> 1 <= z <= n.
Proof.
  unfold rangeFromOne. rewrite list_elem_of_fmap. split.
  - intros (i & -> & Hi). apply elem_of_seq in Hi. lia.
  - intros Hz. exists (Z.to_nat (z - 1)). split; [lia|]. apply elem_of_seq. lia.
Qed.

Lemma rangeFromOne_nil n : rangeFromOne n = [] <-> n <= 0.
Proof.
  split.
  - intros Hnil. destruct (decide (n <= 0)); [done|].
    assert (1 ∈ rangeFromOne n) by (apply rangeFromOne_elem_of; lia).
    rewrite Hnil in *. set_solver.
  - intros Hn. unfold rangeFromOne. by rewrite Z2Nat.nonpos.
Qed.

Lemma selectedOf_converted actor tab dropFilter init name checkbox selected :
  assocGet name (bf_checkboxes (tabFilter tab init)) = Some checkbox ->
  searchCheckbox simplifyValue stringNumber actor dropFilter name = Some selected ->
  selectedOf (convertToCompendiumFilter simplifyValue stringNumber actor tab dropFilter init)
    name = Some selected.
Proof.
  intros Hbox Hsearch. unfold selectedOf, convertToCompendiumFilter. cbn [bf_checkboxes].
  rewrite assocGet_fmap_keyed by apply convertCheckbox_key. rewrite Hbox. cbn.
  by rewrite Hsearch.
Qed.

Lemma levelOf_converted actor tab dropFilter init sliders slider range :
  bf_sliders (tabFilter tab init) = Some sliders ->
  assocGet "level" sliders = Some slider ->
  searchSlider simplifyValue actor dropFilter "level" = Some range ->
  levelOf (convertToCompendiumFilter simplifyValue stringNumber actor tab dropFilter init)
  = Some range.
Proof.
  intros Hsliders Hslider Hsearch. unfold levelOf, convertToCompendiumFilter.
  cbn [bf_sliders]. rewrite Hsliders.
  rewrite assocGet_fmap_keyed by apply convertSlider_key. rewrite Hslider.
  cbn [fmap option_fmap option_map]. unfold convertSlider. rewrite Hsearch.
  by destruct range.
Qed.

End convert_facts.

(** X26: a spell row whose filter gives its rank as a number [n], or as
    an expression that resolves to [n], is turned into a browser filter
    with the ranks 1 to [n] selected, written as strings; validation
    reading that filter admits a dropped spell exactly when its rank is
    one of them. When [n] is not positive no rank is selected, and then
    every rank is admitted. *)
Theorem numeric_rank_admits_up_to
    (simplifyValue : CharacterPF2e -> SimplifiableValue -> option Z)
    (stringNumber : Z -> string) (actor : CharacterPF2e) (tab : CompendiumTab)
    (search : DropSearch) (init : bool) (n : Z) (item : SpellPF2e)
    (spellFilter : SpellFilters) :
  (forall z, stringNumber z = pretty z) ->
  is_Some (assocGet "rank" (bf_checkboxes (tabFilter tab init))) ->
  (search_rank search = RankNumber n \/
   exists expr, search_rank search = RankText expr /\
                simplifyValue actor (SimpleText expr) = Some n) ->
  selectedOf
    (convertToCompendiumFilter simplifyValue stringNumber actor tab
       {| df_type := DropSpell; df_search := search |} init) "rank"
  = Some (flt_rank spellFilter) ->
  flt_rank spellFilter = pretty <$> rangeFromOne n /\
  (checkRank item spellFilter = None <-> n <= 0 \/ 1 <= spell_rank item <= n).
Proof.
  intros Hstring [checkbox Hbox] Hrank Hselected.
  assert (Hsearch : searchCheckbox simplifyValue stringNumber actor
                      {| df_type := DropSpell; df_search := search |} "rank"
                    = Some (pretty <$> rangeFromOne n)).
  { unfold searchCheckbox, convertRank. cbn.
    destruct Hrank as [->|(expr & -> & ->)];
      (f_equal; apply list_fmap_ext; intros; apply Hstring). }
  rewrite (selectedOf_converted _ _ _ _ _ _ _ _ _ Hbox Hsearch) in Hselected.
  injection Hselected as Hselected. split; [done|].
  unfold checkRank. rewrite <- Hselected.
  rewrite <- rangeFromOne_nil, <- rangeFromOne_elem_of.
  destruct (rangeFromOne n) as [|z zs] eqn:Hrange.
  - cbn. split; [by left|done].
  - rewrite bool_decide_eq_false_2 by done. cbn [negb andb].
    case_bool_decide as Hin; cbn.
    + split; [|done]. intros _. right.
      apply list_elem_of_fmap in Hin as (z' & Heq & Hin). by apply (inj pretty) in Heq as ->.
    + split; [done|]. intros [?|Hin']; [done|]. exfalso. apply Hin.
      apply list_elem_of_fmap. eauto.
Qed.

Lemma numeric_rank_admits_up_to_witness :
  checkRank focusCantrip
    {| flt_rank := ["1"; "2"]; flt_category := []; flt_traditions := [];
       flt_rarity := []; flt_source := []; flt_traits := [];
       flt_traitsConjunction := "and" |} = None.
Proof.
  destruct (numeric_rank_admits_up_to sampleSimplify pretty (plainActor None)
              spellTab
              {| search_rank := RankText "half"; search_level := LevelUnset;
                 search_checkboxes := []; search_multiselects := [] |}
              false 2 focusCantrip
              {| flt_rank := ["1"; "2"]; flt_category := []; flt_traditions := [];
                 flt_rarity := []; flt_source := []; flt_traits := [];
                 flt_traitsConjunction := "and" |})
    as [_ Hadmits].
  - reflexivity.
  - by eexists.
  - right. by exists "half".
  - reflexivity.
  - apply Hadmits. right. cbn. lia.
Defined.

(** X27: a feat row whose filter gives its level as a value to resolve
    against the character is turned into a browser filter whose level
    slider runs from 0 to the resolved level, or to 20 when the value
    does not resolve; validation reading that filter admits a dropped
    feat exactly when its level lies between the two. *)
Theorem simplified_level_admits_from_zero
    (simplifyValue : CharacterPF2e -> SimplifiableValue -> option Z)
    (stringNumber : Z -> string) (actor : CharacterPF2e) (tab : CompendiumTab)
    (search : DropSearch) (init : bool) (value : SimplifiableValue) (item : FeatPF2e)
    (featFilter : FeatFilters) :
  (exists sliders, bf_sliders (tabFilter tab init) = Some sliders /\
                   is_Some (assocGet "level" sliders)) ->
  search_level search = LevelSimple value ->
  levelOf
    (convertToCompendiumFilter simplifyValue stringNumber actor tab
       {| df_type := DropFeat; df_search := search |} init)
  = Some (fflt_levelMin featFilter, fflt_levelMax featFilter) ->
  fflt_levelMin featFilter = 0 /\
  fflt_levelMax featFilter = default 20 (simplifyValue actor value) /\
  (checkLevel item featFilter = None <->
   Z.min 0 (default 20 (simplifyValue actor value)) <= feat_level item
   <= Z.max 0 (default 20 (simplifyValue actor value))).
Proof.
  intros (sliders & Hsliders & [slider Hslider]) Hlevel Hread.
  assert (Hsearch : searchSlider simplifyValue actor
                      {| df_type := DropFeat; df_search := search |} "level"
                    = Some (0, default 20 (simplifyValue actor value))).
  { unfold searchSlider, convertLevel. cbn. by rewrite Hlevel. }
  rewrite (levelOf_converted _ _ _ _ _ _ _ _ _ Hsliders Hslider Hsearch) in Hread.
  injection Hread as Hmin Hmax. split; [done|]. split; [done|].
  rewrite checkLevel_None, <- Hmin, <- Hmax. done.
Qed.

Lemma simplified_level_admits_from_zero_witness :
  checkLevel quietFeat
    {| fflt_levelMin := 0; fflt_levelMax := 5; fflt_category := []; fflt_skills := [];
       fflt_rarity := []; fflt_source := []; fflt_traits := [];
       fflt_traitsConjunction := "and" |} = None.
Proof.
  destruct (simplified_level_admits_from_zero sampleSimplify pretty
              (plainActor None) featTab
              {| search_rank := RankUnset; search_level := LevelSimple (SimpleText "level");
                 search_checkboxes := []; search_multiselects := [] |}
              false (SimpleText "level") quietFeat
              {| fflt_levelMin := 0; fflt_levelMax := 5; fflt_category := [];
                 fflt_skills := []; fflt_rarity := []; fflt_source := [];
                 fflt_traits := []; fflt_traitsConjunction := "and" |})
    as (_ & _ & Hadmits).
  - eexists. split; [reflexivity|]. by eexists.
  - reflexivity.
  - reflexivity.
  - apply Hadmits. cbn. lia.
Defined.

(** X28: the adapter only adds to the browser's filter. The checkboxes,
    multiselects and sliders keep their names and their order, and every
    checkbox keeps its options. A checkbox the row's filter does not
    name is left as it is; one it names is expanded, takes the named
    values as its selection, whether the browser knows them or not, and
    gets those of its options selected that are named: no option that
    was selected is deselected. A multiselect keeps the selections it
    had, the new ones going after them. *)
Theorem conversion_only_selects
    (simplifyValue : CharacterPF2e -> SimplifiableValue -> option Z)
    (stringNumber : Z -> string) (actor : CharacterPF2e) (tab : CompendiumTab)
    (dropFilter : DropFilter) (init : bool) :
  let before := tabFilter tab init in
  let after :=
    convertToCompendiumFilter simplifyValue stringNumber actor tab dropFilter init in
  fst <$> bf_checkboxes after = fst <$> bf_checkboxes before /\
  fst <$> bf_multiselects after = fst <$> bf_multiselects before /\
  match bf_sliders before, bf_sliders after with
  | Some sliders, Some sliders' => fst <$> sliders' = fst <$> sliders
  | None, None => True
  | _, _ => False
  end /\
  Forall2 (fun entry entry' =>
             fst <$> cb_options entry'.2 = fst <$> cb_options entry.2 /\
             (forall name, (name, true) ∈ cb_options entry.2 ->
                           (name, true) ∈ cb_options entry'.2) /\
             match searchCheckbox simplifyValue stringNumber actor dropFilter entry.1 with
             | None => entry' = entry
             | Some selected =>
                 cb_selected entry'.2 = selected /\
                 cb_isExpanded entry'.2 = true /\
                 (forall name,
                     (name, true) ∈ cb_options entry'.2 <->
                     (name, true) ∈ cb_options entry.2 \/
                     (name ∈ selected /\ name ∈ fst <$> cb_options entry.2))
             end)
          (bf_checkboxes before) (bf_checkboxes after) /\
  Forall2 (fun entry entry' => ms_selected entry.2 `prefix_of` ms_selected entry'.2)
          (bf_multiselects before) (bf_multiselects after).
Proof.
  intros before after. unfold after, convertToCompendiumFilter. fold before.
  cbn [bf_checkboxes bf_multiselects bf_sliders].
  assert (Hoptions : forall (options : list (string * bool)) (selected : list string)
                            (name : string),
             (name, true)
               ∈ (fun option : string * bool =>
                    (option.1, option.2 || bool_decide (option.1 ∈ selected))) <$> options
             <-> (name, true) ∈ options \/
                 (name ∈ selected /\ name ∈ fst <$> options)).
  { intros options selected name. rewrite list_elem_of_fmap. split.
    - intros ([name' b] & [= -> Hb] & Hin). cbn in *. symmetry in Hb.
      apply orb_true_iff in Hb as [->|Hsel]; [by left|].
      right. apply bool_decide_eq_true in Hsel. split; [done|].
      apply list_elem_of_fmap. by exists (name', b).
    - intros [Hin|[Hsel Hin]].
      + exists (name, true). done.
      + apply list_elem_of_fmap in Hin as ([name' b] & -> & Hin). cbn.
        exists (name', b). split; [|done]. cbn.
        rewrite bool_decide_eq_true_2 by done. by rewrite orb_true_r. }
  split; [|split; [|split; [|split]]].
  - rewrite <- list_fmap_compose. apply list_fmap_ext. intros i entry _.
    apply convertCheckbox_key.
  - rewrite <- list_fmap_compose. apply list_fmap_ext. intros i entry _.
    apply convertMultiselect_key.
  - destruct (bf_sliders before) as [sliders|]; [|done].
    rewrite <- list_fmap_compose. apply list_fmap_ext. intros i entry _.
    apply convertSlider_key.
  - apply Forall2_fmap_r, Forall_Forall2_diag, Forall_forall.
    intros [name checkbox] _. unfold compose, convertCheckbox. cbn [fst snd].
    destruct (searchCheckbox _ _ _ _ name) as [selected|]; [|done].
    cbn [snd cb_options cb_selected cb_isExpanded].
    split; [|split; [|split; [done|split; [done|]]]].
    + rewrite <- list_fmap_compose. by apply list_fmap_ext.
    + intros option Hin. apply Hoptions. by left.
    + intros option. apply Hoptions.
  - apply Forall2_fmap_r, Forall_Forall2_diag, Forall_forall.
    intros [name multiselect] _. unfold compose, convertMultiselect. cbn [fst snd].
    destruct (assocGet name _); [|done]. cbn. by eexists.
Qed.

(** X29: the filter of a drop row is made once. The first call for a
    row that succeeds stores the entry, which names the row's daily, the
    row and the type of the row's filter; from then on every call for the
    row returns this entry and leaves the store alone, whatever the
    state of the browser, the [init] flag or the row's filter have
    become. A call that fails logs the failure and stores nothing. *)
Theorem drop_filter_made_once
    (simplifyValue : CharacterPF2e -> SimplifiableValue -> option Z)
    (stringNumber : Z -> string) (actor : CharacterPF2e)
    (tabs : DailyRowDropType -> CompendiumTab)
    (dropFilters : gmap string CompendiumEntry) (rowFilter : option DropFilter)
    (el : RowElement) (init : bool) :
  let first :=
    compendiumFilterFromElement simplifyValue stringNumber actor tabs dropFilters
      rowFilter el init in
  (forall entry,
      first.1.2 = Some entry ->
      first.2 = [] /\
      first.1.1 !! filterKey (el_daily el) (el_row el) = Some entry /\
      (dropFilters !! filterKey (el_daily el) (el_row el) = None ->
       exists filter,
         rowFilter = Some filter /\
         centry_daily entry = el_daily el /\ centry_row entry = el_row el /\
         centry_type entry = df_type filter /\
         centry_filter entry
         = convertToCompendiumFilter simplifyValue stringNumber actor
             (tabs (df_type filter)) filter init) /\
      forall actor' tabs' rowFilter' el' init',
        filterKey (el_daily el') (el_row el') = filterKey (el_daily el) (el_row el) ->
        compendiumFilterFromElement simplifyValue stringNumber actor' tabs' first.1.1
          rowFilter' el' init'
        = (first.1.1, Some entry, [])) /\
  (first.1.2 = None ->
   rowFilter = None /\ first.1.1 = dropFilters /\
   first.2
   = [ EError "error.unexpected"; EConsoleError "TypeError";
       EConsoleError "The error occured when trying to open a drop filter." ]).
Proof.
  intros first. unfold first, compendiumFilterFromElement.
  destruct (dropFilters !! filterKey (el_daily el) (el_row el)) as [cached|] eqn:Hcached.
  - cbn. split; [|done]. intros entry [= <-]. repeat split; try done.
    intros actor' tabs' rowFilter' el' init' ->. by rewrite Hcached.
  - destruct rowFilter as [filter|]; cbn.
    + split; [|done]. intros entry [= <-]. split; [done|].
      split; [by rewrite lookup_insert_eq|]. split; [by eexists|].
      intros actor' tabs' rowFilter' el' init' ->. by rewrite lookup_insert_eq.
    + split; [done|]. done.
Qed.

Lemma drop_filter_made_once_witness :
  exists entry,
    (compendiumFilterFromElement sampleSimplify pretty (plainActor None)
       (fun _ => featTab) ∅
       (Some {| df_type := DropFeat;
                df_search :=
                  {| search_rank := RankUnset;
                     search_level := LevelSimple (SimpleText "level");
                     search_checkboxes := []; search_multiselects := [] |} |})
       dropElement false).1.2 = Some entry /\
    levelOf (centry_filter entry) = Some (0, 5) /\
    compendiumFilterFromElement sampleSimplify pretty (plainActor None)
      (fun _ => spellTab) {[ filterKey "flexibility" "feat" := entry ]} None
      dropElement true
    = ({[ filterKey "flexibility" "feat" := entry ]}, Some entry, []).
Proof.
  pose proof (drop_filter_made_once sampleSimplify pretty (plainActor None)
                (fun _ => featTab) ∅
                (Some {| df_type := DropFeat;
                         df_search :=
                           {| search_rank := RankUnset;
                              search_level := LevelSimple (SimpleText "level");
                              search_checkboxes := []; search_multiselects := [] |} |})
                dropElement false) as Hall.
  cbv zeta in Hall. destruct Hall as [Hfirst _].
  eexists. split; [reflexivity|].
  destruct (Hfirst _ eq_refl) as (_ & _ & _ & Hagain).
  split; [reflexivity|].
  exact (Hagain (plainActor None) (fun _ => spellTab) None dropElement true eq_refl).
Defined.

(** X30: what accept records is what the form shows when it is opened
    again. For a character whose flags hold the payload of the flag
    update of a completed accept, the template of a saved row is built
    from the value read from the row's element: an input row shows the
    trimmed text, a select or random row has the recorded value
    selected, a drop row shows the name and carries the uuid, and a
    combo row is in the input state it was left in. This holds of every
    row but one whose slug is [__proto__], for which accept records
    nothing. *)
Theorem recorded_value_shown_again `{Host} (actor actor' : CharacterPF2e)
    (catalog : gmap string PreparedDaily) (form : list RowElement)
    (effects : list Effect) (updates : FlagUpdate) (el : RowElement)
    (daily : PreparedDaily) (row : DailyRow) :
  processDailies actor catalog form = (effects, true) ->
  EUpdateFlag updates ∈ effects ->
  actor_flags actor' = Some updates ->
  el ∈ form ->
  el_save el = true ->
  (forall el', el' ∈ form -> el_daily el' = el_daily el -> el_row el' = el_row el ->
               el' = el) ->
  el_daily el = daily_key daily ->
  el_row el = row_slug row ->
  el_type el = row_type row ->
  daily_key daily ∉ fixedFlagKeys ->
  row_slug row <> "__proto__" ->
  row_condition row <> Some false ->
  row_save row <> Some false ->
  getRowFlag actor' (daily_key daily) (row_slug row) = rowValue el /\
  match row_type row with
  | TInput =>
      exists t, rowTemplate actor' daily row = Some t /\
                tpl_value t = Some (trim (el_value el))
  | TSelect =>
      row_options row <> [] ->
      exists t, rowTemplate actor' daily row = Some t /\
                tpl_selected t = Some (trim (el_value el))
  | TRandom =>
      row_options row <> [] ->
      exists t, rowTemplate actor' daily row = Some t /\
                tpl_selected t = Some (selectRandomOption el)
  | TDrop =>
      exists t, rowTemplate actor' daily row = Some t /\
                tpl_value t = Some (el_value el) /\
                data_uuid (tpl_data t) = Some (el_uuid el)
  | TCombo =>
      exists t, rowTemplate actor' daily row = Some t /\
                data_input (tpl_data t) = Some (el_input el)
  | TAlert | TNotify => True
  end.
Proof.
  intros Hrun Hupdate Hflags Hin Hsave Honly Hdaily Hrow Htype Hfixed Hproto Hcond
    Hsaved.
  destruct (processDailies_flagUpdate _ _ _ _ _ Hrun Hupdate)
    as (collected & extraFlags & addedItemIds & Hcollected & ->).
  assert (Hflag : forall value, rowValue el = Some value ->
                  getRowFlag actor' (daily_key daily) (row_slug row) = Some value).
  { intros value Hvalue.
    destruct (collectRows_saved form collected el value Hcollected Hin Hsave Hvalue Honly)
      as (rows & Hrows & Hvalue').
    unfold getRowFlag. rewrite Hflags, flagUpdate_daily by done.
    rewrite <- Hdaily, Hrows. cbn. rewrite <- Hrow. apply Hvalue'. by rewrite Hrow. }
  assert (Hnone : rowValue el = None ->
                  getRowFlag actor' (daily_key daily) (row_slug row) = None).
  { intros Hvalue. unfold getRowFlag. rewrite Hflags, flagUpdate_daily by done.
    destruct (col_flags collected !! daily_key daily) as [rows|] eqn:Hrows; [|done].
    cbn. destruct (rows !! row_slug row) as [value|] eqn:Hvalue'; [|done].
    destruct (collectRows_flags form collected _ _ _ _ Hcollected Hrows Hvalue')
      as (el' & Hel' & Hd' & Hr' & _ & Hv').
    rewrite (Honly el' Hel') in Hv' by congruence. congruence. }
  split.
  { destruct (rowValue el) as [value|] eqn:Hvalue; [by apply Hflag|by apply Hnone]. }
  unfold rowTemplate.
  rewrite bool_decide_eq_false_2 by done.
  rewrite (bool_decide_eq_false_2 (row_save row = Some false)) by done.
  cbn [negb]. unfold rowIsOfType, rowValue in *. rewrite Htype in Hflag.
  destruct (row_type row) eqn:Hty; try done.
  - intros Hoptions. rewrite (Hflag _ eq_refl).
    rewrite bool_decide_eq_true_2 by set_solver.
    rewrite (bool_decide_eq_false_2 (TSelect ∈ [TCombo])) by set_solver.
    rewrite (bool_decide_eq_false_2 (row_options row = [])) by done.
    eexists. split; [reflexivity|]. reflexivity.
  - intros Hoptions. rewrite (Hflag _ eq_refl).
    rewrite bool_decide_eq_true_2 by set_solver.
    rewrite (bool_decide_eq_false_2 (TRandom ∈ [TCombo])) by set_solver.
    rewrite (bool_decide_eq_false_2 (row_options row = [])) by done.
    eexists. split; [reflexivity|]. reflexivity.
  - rewrite (Hflag _ eq_refl).
    rewrite bool_decide_eq_true_2 by set_solver.
    rewrite (bool_decide_eq_true_2 (TCombo ∈ [TCombo])) by set_solver.
    eexists. split; [reflexivity|]. reflexivity.
  - rewrite (Hflag _ eq_refl).
    rewrite bool_decide_eq_false_2 by set_solver.
    rewrite (bool_decide_eq_false_2 (TInput ∈ [TDrop])) by set_solver.
    rewrite (bool_decide_eq_false_2 (TInput ∈ [TAlert])) by set_solver.
    rewrite (bool_decide_eq_true_2 (TInput ∈ [TInput])) by set_solver.
    eexists. split; [reflexivity|]. reflexivity.
  - rewrite (Hflag _ eq_refl).
    rewrite bool_decide_eq_false_2 by set_solver.
    rewrite (bool_decide_eq_true_2 (TDrop ∈ [TDrop])) by set_solver.
    eexists. split; [reflexivity|]. split; reflexivity.
Qed.

Lemma recorded_value_shown_again_witness :
  exists t,
    @rowTemplate plainHost
      (plainActor
         (Some (flagUpdate {[ "library" := {[ "pick" := RowString "fireball" ]} ]}
                  (JObj []) ["item-0"; "item-1"])))
      libraryDaily pickRow = Some t /\
    tpl_selected t = Some "fireball".
Proof.
  destruct (@recorded_value_shown_again plainHost (plainActor None)
              (plainActor
                 (Some (flagUpdate {[ "library" := {[ "pick" := RowString "fireball" ]} ]}
                          (JObj []) ["item-0"; "item-1"])))
              {[ "library" := libraryDaily ]} mixedForm
              (@processDailies plainHost (plainActor None)
                 {[ "library" := libraryDaily ]} mixedForm).1
              (flagUpdate {[ "library" := {[ "pick" := RowString "fireball" ]} ]}
                 (JObj []) ["item-0"; "item-1"])
              (selectElement "library" "pick" "fireball") libraryDaily pickRow)
    as [_ Hshown].
  - vm_compute. reflexivity.
  - vm_compute. do 2 right. left.
  - reflexivity.
  - left.
  - reflexivity.
  - intros el' Hel' Hd Hr. unfold mixedForm in Hel'.
    rewrite !elem_of_cons, elem_of_nil in Hel'.
    destruct Hel' as [->|[->|[->|[->|[]]]]]; [reflexivity|discriminate..].
  - reflexivity.
  - reflexivity.
  - reflexivity.
  - unfold fixedFlagKeys. cbn. set_solver.
  - discriminate.
  - discriminate.
  - discriminate.
  - apply Hshown. discriminate.
Defined.
